(** * AbyssChess: a shallow embedding of [chess_engine.py]

    The development follows the layout of the Python module: the Python
    primitives the engine relies on (exceptions, [str] methods, list
    indexing, mutable list objects), the board representation, the move
    logic ([parse_move], [apply_move], [is_valid_move], [get_legal_moves])
    and the command dispatcher [main] running against the files of
    [chess_data/].  Theorems come after all definitions. *)

From Stdlib Require Import ZArith Ascii String List Lia Bool DecimalString.
From stdpp Require Import base option list gmap strings fin_maps.

Local Open Scope Z_scope.

(** ** Python primitives *)

Module Py.

(** The exceptions that the engine can raise or catch.  [SystemExit] is
    what [sys.exit] raises; [SystemError] stands for an interpreter error. *)
Inductive exn : Type :=
  | IndexError
  | KeyError
  | ValueError
  | FileNotFoundError
  | SystemError
  | SystemExit (code : Z).

(** A computation either returns a value or raises. *)
Inductive exc (A : Type) : Type :=
  | Ok (a : A)
  | Raise (e : exn).
Arguments Ok {A} a.
Arguments Raise {A} e.

#[export] Instance exc_fmap : FMap exc := fun A B f m =>
  match m with
  | Ok a => Ok (f a)
  | Raise e => Raise e
  end.
#[export] Instance exc_ret : MRet exc := fun A a => Ok a.
#[export] Instance exc_bind : MBind exc := fun A B f m =>
  match m with
  | Ok a => f a
  | Raise e => Raise e
  end.

(** Code point of a character.  Characters are the 8-bit code points
    U+0000..U+00FF; every [str] method below is written out on that range. *)
Definition ord (c : ascii) : Z := Z.of_N (N_of_ascii c).

Definition between (lo hi : Z) (c : ascii) : bool :=
  (lo <=? ord c) && (ord c <=? hi).

(** [str.isspace] on one character: TAB..CR, FS..US, SPACE, NEL, NBSP. *)
Definition isspace (c : ascii) : bool :=
  between 9 13 c || between 28 32 c || (ord c =? 133) || (ord c =? 160).

(** Characters with the Uppercase property: A-Z and the Latin-1 capitals. *)
Definition char_isupper (c : ascii) : bool :=
  between 65 90 c || between 192 214 c || between 216 222 c.

(** Characters with the Lowercase property: a-z, the ordinal indicators,
    the micro sign and the Latin-1 small letters. *)
Definition char_islower (c : ascii) : bool :=
  between 97 122 c || (ord c =? 170) || (ord c =? 181) || (ord c =? 186)
  || between 223 246 c || between 248 255 c.

(** [str.lower] on one character: capitals move up by 32. *)
Definition char_lower (c : ascii) : ascii :=
  if between 65 90 c || between 192 214 c || between 216 222 c
  then ascii_of_N (N_of_ascii c + 32)
  else c.

(** [str.upper] on one character of the ASCII range; the engine only
    upper-cases tokens that [parse_move] accepted, which are ASCII. *)
Definition char_upper (c : ascii) : ascii :=
  if between 97 122 c then ascii_of_N (N_of_ascii c - 32) else c.

Fixpoint lower (s : string) : string :=
  match s with
  | EmptyString => EmptyString
  | String c s' => String (char_lower c) (lower s')
  end.

Fixpoint upper (s : string) : string :=
  match s with
  | EmptyString => EmptyString
  | String c s' => String (char_upper c) (upper s')
  end.

Fixpoint lstrip (s : string) : string :=
  match s with
  | EmptyString => EmptyString
  | String c s' => if isspace c then lstrip s' else s
  end.

Fixpoint rstrip (s : string) : string :=
  match s with
  | EmptyString => EmptyString
  | String c s' =>
      match rstrip s' with
      | EmptyString => if isspace c then EmptyString else String c EmptyString
      | r => String c r
      end
  end.

(** [str.strip()] with no argument. *)
Definition strip (s : string) : string := rstrip (lstrip s).

(** [s.isupper()]: no lowercase character and at least one uppercase one. *)
Fixpoint isupper_from (cased : bool) (s : string) : bool :=
  match s with
  | EmptyString => cased
  | String c s' =>
      if char_islower c then false
      else isupper_from (cased || char_isupper c) s'
  end.
Definition isupper (s : string) : bool := isupper_from false s.

(** [s.islower()]: no uppercase character and at least one lowercase one. *)
Fixpoint islower_from (cased : bool) (s : string) : bool :=
  match s with
  | EmptyString => cased
  | String c s' =>
      if char_isupper c then false
      else islower_from (cased || char_islower c) s'
  end.
Definition islower (s : string) : bool := islower_from false s.

(** [int(s)] for a one-character string [s] of the 8-bit range: the
    decimal digits, which are 0..9 there, convert; everything else (signs,
    blanks, superscripts, letters) is a ValueError. *)
Definition int_of_char (c : ascii) : exc Z :=
  if between 48 57 c then Ok (ord c - 48) else Raise ValueError.

(** [str(n)] for an integer, as an f-string field formats it. *)
Definition str_of_int (n : Z) : string := NilZero.string_of_int (Z.to_int n).

(** Normalisation of a subscript against a length: negative subscripts
    count from the end, anything still outside [0, len) is an IndexError. *)
Definition norm_index (len : nat) (i : Z) : exc nat :=
  let j := if i <? 0 then i + Z.of_nat len else i in
  if (0 <=? j) && (j <? Z.of_nat len) then Ok (Z.to_nat j) else Raise IndexError.

(** [l[i]] on a list. *)
Definition getitem {A : Type} (l : list A) (i : Z) : exc A :=
  k ← norm_index (length l) i;
  match l !! k with
  | Some x => Ok x
  | None => Raise IndexError
  end.

(** [l[i] = x] on a list, returning the updated contents. *)
Definition setitem {A : Type} (l : list A) (i : Z) (x : A) : exc (list A) :=
  k ← norm_index (length l) i;
  Ok (<[k := x]> l).

(** [s[i]] on a string: the character at that subscript. *)
Definition str_getitem (s : string) (i : Z) : exc ascii :=
  getitem (list_ascii_of_string s) i.

(** [range(n)] *)
Definition range (n : nat) : list Z := Z.of_nat <$> seq 0 n.

(** A [for] loop threading an accumulator through a body that may raise. *)
Fixpoint for_each {A S : Type} (xs : list A) (body : S -> A -> exc S) (s : S) : exc S :=
  match xs with
  | [] => Ok s
  | x :: xs' => s' ← body s x; for_each xs' body s'
  end.

End Py.
Import Py.

(** ** Move parsing *)

(** [col_map = {'a':0, ..., 'h':7}], subscripted by a one-character string. *)
Definition col_map (c : ascii) : exc Z :=
  match c with
  | "a" => Ok 0 | "b" => Ok 1 | "c" => Ok 2 | "d" => Ok 3
  | "e" => Ok 4 | "f" => Ok 5 | "g" => Ok 6 | "h" => Ok 7
  | _ => Raise KeyError
  end%char.

Definition pos : Type := (Z * Z).

(** The [try] block of [parse_move]. *)
Definition parse_move_try (move_str : string) : exc (pos * pos) :=
  c0 ← str_getitem move_str 0; fc ← col_map c0;
  c1 ← str_getitem move_str 1; d1 ← int_of_char c1; let fr := 8 - d1 in
  c2 ← str_getitem move_str 2; tc ← col_map c2;
  c3 ← str_getitem move_str 3; d3 ← int_of_char c3; let tr := 8 - d3 in
  Ok ((fr, fc), (tr, tc)).

(** [parse_move]: [Ok None] is Python's [None]; exceptions other than the
    two that are caught propagate. *)
Definition parse_move (move_str : string) : exc (option (pos * pos)) :=
  let move_str := lower (strip move_str) in
  if negb (String.length move_str =? 4)%nat then Ok None
  else match parse_move_try move_str with
       | Ok r => Ok (Some r)
       | Raise KeyError | Raise ValueError => Ok None
       | Raise e => Raise e
       end.

(** ** Move parsing on arbitrary characters

    [parse_move] above takes its argument among the strings of 8-bit
    characters.  A Python [str] holds any code point, and [str.lower] and
    [int] look a character up in the Unicode Character Database.  This
    module embeds [parse_move] once more, on lists of code points, with the
    tables of the database as parameters; on the 8-bit strings it is the
    function above. *)

Module Unicode.

(** A [str]: its code points. *)
Definition str : Type := list N.

(** The code points of a string of 8-bit characters. *)
Definition of_string (s : string) : str := N_of_ascii <$> list_ascii_of_string s.

Definition between (lo hi c : N) : bool := ((lo <=? c) && (c <=? hi))%N.

(** [str.isspace] on one character: the characters of bidirectional type
    WS, B or S and those of category Zs. *)
Definition isspace (c : N) : bool :=
  between 0x09 0x0D c || between 0x1C 0x20 c || (c =? 0x85)%N || (c =? 0xA0)%N
  || (c =? 0x1680)%N || between 0x2000 0x200A c || between 0x2028 0x2029 c
  || (c =? 0x202F)%N || (c =? 0x205F)%N || (c =? 0x3000)%N.

Fixpoint lstrip (s : str) : str :=
  match s with
  | [] => []
  | c :: s' => if isspace c then lstrip s' else s
  end.

Fixpoint rstrip (s : str) : str :=
  match s with
  | [] => []
  | c :: s' =>
      match rstrip s' with
      | [] => if isspace c then [] else [c]
      | r => c :: r
      end
  end.

(** [str.strip()] with no argument. *)
Definition strip (s : str) : str := rstrip (lstrip s).

(** The tables of the Unicode Character Database that [parse_move] reads
    through [str.lower] and [int]: the full lower-case mapping of a
    character, the test for a capital sigma in final position, and the
    value of a decimal digit. *)
Record database : Type := Database {
  to_lower : N -> list N;
  final_sigma : str -> nat -> bool;
  to_decimal : N -> option Z
}.

Section Database.

Variable db : database.

(** [str.lower()] on the character at subscript [i] of [s]: a capital
    sigma (U+03A3) becomes a final or a non-final small sigma, every other
    character is replaced by its full lower-case mapping. *)
Definition lower_at (s : str) (i : nat) (c : N) : list N :=
  if (c =? 0x3A3)%N then [if final_sigma db s i then 0x3C2 else 0x3C3]%N
  else to_lower db c.

Definition lower (s : str) : str := concat (imap (lower_at s) s).

(** [int(s)] for a one-character string [s]: a decimal digit of any
    script converts to its value, everything else is a ValueError. *)
Definition int_of_char (c : N) : exc Z :=
  match to_decimal db c with
  | Some d => Ok d
  | None => Raise ValueError
  end.

(** [col_map = {'a':0, ..., 'h':7}], subscripted by a one-character string. *)
Definition col_map (c : N) : exc Z :=
  match c with
  | 0x61%N => Ok 0 | 0x62%N => Ok 1 | 0x63%N => Ok 2 | 0x64%N => Ok 3
  | 0x65%N => Ok 4 | 0x66%N => Ok 5 | 0x67%N => Ok 6 | 0x68%N => Ok 7
  | _ => Raise KeyError
  end.

(** The [try] block of [parse_move]. *)
Definition parse_move_try (move_str : str) : exc (pos * pos) :=
  c0 ← getitem move_str 0; fc ← col_map c0;
  c1 ← getitem move_str 1; d1 ← int_of_char c1; let fr := 8 - d1 in
  c2 ← getitem move_str 2; tc ← col_map c2;
  c3 ← getitem move_str 3; d3 ← int_of_char c3; let tr := 8 - d3 in
  Ok ((fr, fc), (tr, tc)).

Definition parse_move (move_str : str) : exc (option (pos * pos)) :=
  let move_str := lower (strip move_str) in
  if negb (length move_str =? 4)%nat then Ok None
  else match parse_move_try move_str with
       | Ok r => Ok (Some r)
       | Raise KeyError | Raise ValueError => Ok None
       | Raise e => Raise e
       end.

(** What [parse_move] depends on in the tables.  On U+0000..U+00FF they
    are the tables of module [Py]; no character maps to the empty string;
    and the lower-case mapping of a character beyond U+00FF holds no file
    letter a..h and no digit 0..9. *)
Record conforms : Prop := Conforms {
  to_lower_latin1 :
    ∀ a : ascii, to_lower db (N_of_ascii a) = [N_of_ascii (char_lower a)];
  to_lower_nonempty : ∀ c : N, to_lower db c ≠ [];
  to_lower_beyond :
    ∀ c x : N, (0x100 <= c)%N → x ∈ to_lower db c →
               between 0x30 0x39 x = false ∧ between 0x61 0x68 x = false;
  to_decimal_latin1 :
    ∀ a : ascii, int_of_char (N_of_ascii a) = Py.int_of_char a
}.

(** What [str.lower] can put in the place of the character [c]. *)
Definition lowered (c : N) (xs : list N) : Prop :=
  xs = to_lower db c ∨ (c = 0x3A3%N ∧ (xs = [0x3C2%N] ∨ xs = [0x3C3%N])).

(** The inputs on which [parse_move] returns squares from rank characters
    that are not among 1..8: stripped and lower-cased they are a file
    letter, a decimal digit, a file letter, a decimal digit, and one of the
    digits is 0, 9 or a decimal digit of another script. *)
Definition unchecked_ranks (s : str) : bool :=
  match lower (strip s) with
  | [f1; r1; f2; r2] =>
      between 0x61 0x68 f1 && bool_decide (is_Some (to_decimal db r1))
      && between 0x61 0x68 f2 && bool_decide (is_Some (to_decimal db r2))
      && negb (between 0x31 0x38 r1 && between 0x31 0x38 r2)
  | _ => false
  end.

End Database.

(** File letters in either case and the rank digits 1..8, by code point. *)
Definition file_index (c : N) : option Z :=
  if between 0x61 0x68 c then Some (Z.of_N c - 0x61)
  else if between 0x41 0x48 c then Some (Z.of_N c - 0x41)
  else None.

Definition rank_digit (c : N) : option Z :=
  if between 0x31 0x38 c then Some (Z.of_N c - 0x30) else None.

(** The parser as the specification words it, on arbitrary characters. *)
Definition parse_claimed (token : str) : option (pos * pos) :=
  match token with
  | [f1; r1; f2; r2] =>
      c1 ← file_index f1; d1 ← rank_digit r1;
      c2 ← file_index f2; d2 ← rank_digit r2;
      Some ((8 - d1, c1), (8 - d2, c2))
  | _ => None
  end.

(** Tables that agree with Unicode on U+0000..U+00FF and on the full-width
    digits U+FF10..U+FF19, and treat every other character as a caseless
    character without a digit value. *)
Definition latin1_and_fullwidth : database :=
  Database
    (fun c => if (c <? 0x100)%N then [N_of_ascii (char_lower (ascii_of_N c))] else [c])
    (fun _ _ => false)
    (fun c => if between 0x30 0x39 c then Some (Z.of_N c - 0x30)
              else if between 0xFF10 0xFF19 c then Some (Z.of_N c - 0xFF10)
              else None).

End Unicode.

(** ** Board representation *)

(** A board as a JSON value and as read-only code sees it: rows of cells. *)
Abbreviation grid := (list (list string)).

Definition INITIAL_BOARD : grid :=
  [ ["r";"n";"b";"q";"k";"b";"n";"r"];
    ["p";"p";"p";"p";"p";"p";"p";"p"];
    [".";".";".";".";".";".";".";"."];
    [".";".";".";".";".";".";".";"."];
    [".";".";".";".";".";".";".";"."];
    [".";".";".";".";".";".";".";"."];
    ["P";"P";"P";"P";"P";"P";"P";"P"];
    ["R";"N";"B";"Q";"K";"B";"N";"R"] ].

(** ** Mutable list objects

    A board in memory is a list object whose items are references to row
    objects; a row object is a list of (immutable) strings.  The two kinds
    of object live in two stores of the heap. *)

Abbreviation loc := positive.

Record heap : Type := Heap {
  boards : gmap loc (list loc);
  rows : gmap loc (list string)
}.

Definition empty_heap : heap := Heap ∅ ∅.

(** Stateful computations that may raise: the state reached is kept when an
    exception is raised. *)
Definition St (S A : Type) : Type := S -> S * exc A.

#[export] Instance St_ret {S} : MRet (St S) := fun A a s => (s, Ok a).
#[export] Instance St_bind {S} : MBind (St S) := fun A B f m s =>
  match m s with
  | (s', Ok a) => f a s'
  | (s', Raise e) => (s', Raise e)
  end.

Definition raise {S A} (e : exn) : St S A := fun s => (s, Raise e).
Definition lift {S A} (r : exc A) : St S A := fun s => (s, r).
Definition gets {S A} (f : S -> A) : St S A := fun s => (s, Ok (f s)).
Definition modify {S} (f : S -> S) : St S unit := fun s => (f s, Ok tt).

(** A reference always designates a live object in Python; the model has
    to answer for a dangling one and reports an interpreter error. *)
Definition deref_board (b : loc) : St heap (list loc) := fun h =>
  match boards h !! b with
  | Some rs => (h, Ok rs)
  | None => (h, Raise SystemError)
  end.

Definition deref_row (r : loc) : St heap (list string) := fun h =>
  match rows h !! r with
  | Some cs => (h, Ok cs)
  | None => (h, Raise SystemError)
  end.

Definition new_board_obj (rs : list loc) : St heap loc := fun h =>
  let l := fresh (dom (boards h)) in
  (Heap (<[l := rs]> (boards h)) (rows h), Ok l).

Definition new_row_obj (cs : list string) : St heap loc := fun h =>
  let l := fresh (dom (rows h)) in
  (Heap (boards h) (<[l := cs]> (rows h)), Ok l).

Definition write_board (b : loc) (rs : list loc) : St heap unit :=
  modify (fun h => Heap (<[b := rs]> (boards h)) (rows h)).

Definition write_row (r : loc) (cs : list string) : St heap unit :=
  modify (fun h => Heap (boards h) (<[r := cs]> (rows h))).

(** [board[i][j]] *)
Definition load2 (b : loc) (i j : Z) : St heap string :=
  rs ← deref_board b;
  r ← lift (getitem rs i);
  cs ← deref_row r;
  lift (getitem cs j).

(** [board[i][j] = v] *)
Definition store2 (b : loc) (i j : Z) (v : string) : St heap unit :=
  rs ← deref_board b;
  r ← lift (getitem rs i);
  cs ← deref_row r;
  cs' ← lift (setitem cs j v);
  write_row r cs'.

(** The contents of a board object, [None] when a reference dangles. *)
Definition contents (h : heap) (b : loc) : option grid :=
  rs ← boards h !! b; mapM (fun r => rows h !! r) rs.

(** Building the objects of a board value, as [json.load] and the module
    initialiser do: one fresh row object per row, then the outer list. *)
Fixpoint new_rows (g : grid) : St heap (list loc) :=
  match g with
  | [] => mret []
  | cs :: g' => r ← new_row_obj cs; rs ← new_rows g'; mret (r :: rs)
  end.

Definition new_board (g : grid) : St heap loc :=
  rs ← new_rows g; new_board_obj rs.

(** [copy.deepcopy] on a board.  The copy of the outer list is created
    first and recorded, then each item is copied and appended; [memo] maps
    the rows already copied to their copies, so that a row referenced twice
    is copied once.  Strings are atomic: a row's copy holds the same items. *)
Fixpoint deepcopy_items (items : list loc) (y : loc) (memo : gmap loc loc)
    : St heap unit :=
  match items with
  | [] => mret tt
  | r :: items' =>
      '(r', memo') ← match memo !! r with
                     | Some r' => mret (r', memo)
                     | None => cs ← deref_row r; r' ← new_row_obj cs;
                               mret (r', <[r := r']> memo)
                     end;
      ys ← deref_board y;
      write_board y (ys ++ [r']);;
      deepcopy_items items' y memo'
  end.

Definition deepcopy (board : loc) : St heap loc :=
  items ← deref_board board;
  y ← new_board_obj [];
  deepcopy_items items y ∅;;
  mret y.

(** ** Move logic *)

Definition apply_move (board : loc) (from_pos to_pos : pos) : St heap loc :=
  new_board ← deepcopy board;
  let '(fr, fc) := from_pos in
  let '(tr, tc) := to_pos in
  piece ← load2 new_board fr fc;
  store2 new_board tr tc piece;;
  store2 new_board fr fc ".";;
  (if bool_decide (piece = "P") && bool_decide (tr = 0)
   then store2 new_board tr tc "Q" else mret tt);;
  (if bool_decide (piece = "p") && bool_decide (tr = 7)
   then store2 new_board tr tc "q" else mret tt);;
  mret new_board.

Definition is_valid_move (board : grid) (from_pos to_pos : pos) (turn : string)
    : exc (bool * string) :=
  let '(fr, fc) := from_pos in
  let '(tr, tc) := to_pos in
  row ← getitem board fr;
  piece ← getitem row fc;
  if bool_decide (piece = ".") then Ok (false, "Tidak ada bidak di posisi itu!")
  else
    let is_white := isupper piece in
    let is_black := islower piece in
    if bool_decide (turn = "white") && is_black
    then Ok (false, "Sekarang giliran putih!")
    else if bool_decide (turn = "black") && is_white
    then Ok (false, "Sekarang giliran hitam!")
    else
      trow ← getitem board tr;
      target ← getitem trow tc;
      if negb (bool_decide (target = ".")) && eqb is_white (isupper target)
      then Ok (false, "Tidak bisa makan bidak sendiri!")
      else Ok (true, "OK").

(** The f-string [f"{col}{8-r}{tcol}{8-tr}"]. *)
Definition move_token (col : ascii) (r : Z) (tcol : ascii) (tr : Z) : string :=
  String col (str_of_int (8 - r)) +:+ String tcol (str_of_int (8 - tr)).

Definition get_legal_moves (board : grid) (turn : string) : exc (list string) :=
  for_each (range 8) (fun moves r =>
    for_each (range 8) (fun moves c =>
      row ← getitem board r;
      piece ← getitem row c;
      if bool_decide (piece = ".") then Ok moves
      else if bool_decide (turn = "white") && negb (isupper piece) then Ok moves
      else if bool_decide (turn = "black") && negb (islower piece) then Ok moves
      else
        for_each (range 8) (fun moves tr =>
          for_each (range 8) (fun moves tc =>
            '(valid, _) ← is_valid_move board (r, c) (tr, tc) turn;
            if (valid : bool) then
              col ← str_getitem "abcdefgh" c;
              tcol ← str_getitem "abcdefgh" tc;
              Ok (moves ++ [move_token col r tcol tr])
            else Ok moves) moves) moves) moves) [].


(** ** Game state and its files *)

(** An entry of the move log: the keys ["move"], ["player"], ["time"]. *)
Record move_record : Type := MoveRecord {
  move : string;
  player : string;
  time : string
}.

(** The [state] dictionary.  [B] is the representation of the board: a
    reference to a list object in memory, a [grid] in [game.json].  The key
    ["game_num"] is the one the engine reads with a default. *)
Record game_state (B : Type) : Type := GameState {
  board : B;
  turn : string;
  moves : list move_record;
  game_num : option Z
}.
Arguments GameState {B} _ _ _ _.
Arguments board {B} _.
Arguments turn {B} _.
Arguments moves {B} _.
Arguments game_num {B} _.

(** The directory [chess_data/] with [DATA_FILE] and [LEADERBOARD_FILE]. *)
Record chess_data_dir : Type := ChessData {
  game_json : option (game_state grid);
  leaderboard_json : option (gmap string Z)
}.

(** The files the engine touches; [None] is a missing file or directory. *)
Record files : Type := Files {
  chess_data : option chess_data_dir;
  README_md : option string
}.

(** What one invocation reads from its environment, with the clock. *)
Record environ : Type := Environ {
  CHESS_MOVE : option string;
  CHESS_PLAYER : option string;
  CHESS_CMD : option string;
  utcnow_isoformat : string
}.

(** The state of the running process. *)
Record world : Type := World {
  mem : heap;
  disk : files;
  stdout : list string
}.

Definition with_heap {A} (m : St heap A) : St world A := fun w =>
  match m (mem w) with
  | (h', r) => (World h' (disk w) (stdout w), r)
  end.

Definition set_disk (fs : files) : St world unit :=
  modify (fun w => World (mem w) fs (stdout w)).

Definition print (line : string) : St world unit :=
  modify (fun w => World (mem w) (disk w) (stdout w ++ [line])).

(** The module body: the list objects of the global [INITIAL_BOARD]. *)
Definition module_init : heap * exc loc := new_board INITIAL_BOARD empty_heap.
Definition module_heap : heap := module_init.1.
Definition INITIAL_BOARD_ref : loc :=
  match module_init.2 with
  | Ok l => l
  | Raise _ => 1%positive
  end.

(** [json.load] builds the objects of a board; [read_board] is the board as
    [json.dump] and the read-only functions see it. *)
Definition json_load_board (g : grid) : St heap loc := new_board g.
Definition read_board (b : loc) : St heap grid := fun h =>
  match contents h b with
  | Some g => (h, Ok g)
  | None => (h, Raise SystemError)
  end.

Definition load_game : St world (game_state loc) :=
  fs ← gets disk;
  match chess_data fs ≫= game_json with
  | Some g =>
      b ← with_heap (json_load_board (board g));
      mret (GameState b (turn g) (moves g) (game_num g))
  | None =>
      mret (GameState INITIAL_BOARD_ref "black" [] (Some 1))
  end.

(** [mkdir(exist_ok=True)], then the file is overwritten. *)
Definition save_game (state : game_state loc) : St world unit :=
  g ← with_heap (read_board (board state));
  fs ← gets disk;
  let d := default (ChessData None None) (chess_data fs) in
  let snapshot := GameState g (turn state) (moves state) (game_num state) in
  set_disk (Files (Some (ChessData (Some snapshot) (leaderboard_json d))) (README_md fs)).

Definition load_leaderboard : St world (gmap string Z) :=
  fs ← gets disk;
  mret (default ∅ (chess_data fs ≫= leaderboard_json)).

(** No [mkdir] here: opening the file fails when [chess_data/] is missing. *)
Definition save_leaderboard (lb : gmap string Z) : St world unit :=
  fs ← gets disk;
  match chess_data fs with
  | Some d => set_disk (Files (Some (ChessData (game_json d) (Some lb))) (README_md fs))
  | None => raise FileNotFoundError
  end.

(** ** Main *)

Section Main.

(** [render_board_md] followed by the five [re.sub] of [update_readme]:
    the new text of README.md from the board, the legal moves, the turn,
    the game number, the move log, the leaderboard and the old text; [re.sub]
    raises on a replacement with a bad escape.  No property below depends
    on the text produced. *)
Variable render_readme :
  grid -> list string -> string -> Z -> list move_record -> gmap string Z ->
  string -> exc string.

Definition update_readme (g : grid) (legal : list string) (turn : string)
    (game_num : Z) (recent_moves : list move_record) (lb : gmap string Z)
    : St world unit :=
  fs ← gets disk;
  match README_md fs with
  | Some content =>
      content ← lift (render_readme g legal turn game_num recent_moves lb content);
      set_disk (Files (chess_data fs) (Some content))
  | None => raise FileNotFoundError
  end.

(** The branch [command == "new"] of [main] (lines 243-251). *)
Definition new_command (state : game_state loc) (lb : gmap string Z)
    : St world (game_state loc * gmap string Z) :=
  let state := GameState INITIAL_BOARD_ref "black" []
                 (Some (default 1 (game_num state) + 1)) in
  save_game state;;
  print "[+] Game baru dimulai!";;
  mret (state, lb).

(** The branch [command == "move"] of [main] (lines 252-275). *)
Definition move_command (move_str player now : string)
    (state : game_state loc) (lb : gmap string Z)
    : St world (game_state loc * gmap string Z) :=
  parsed ← lift (parse_move move_str);
  match parsed with
  | None =>
      print ("[-] Format gerakan tidak valid: " +:+ move_str);;
      raise (SystemExit 1)
  | Some (from_pos, to_pos) =>
      g ← with_heap (read_board (board state));
      '(valid, msg) ← lift (is_valid_move g from_pos to_pos (turn state));
      if negb valid then
        print ("[-] Gerakan tidak valid: " +:+ msg);;
        raise (SystemExit 1)
      else
        b ← with_heap (apply_move (board state) from_pos to_pos);
        let log := moves state ++ [MoveRecord (upper move_str) player now] in
        let turn' := if bool_decide (turn state = "black")
                     then "white" else "black" in
        let state := GameState b turn' log (game_num state) in
        let lb := <[player := default 0 (lb !! player) + 1]> lb in
        save_leaderboard lb;;
        save_game state;;
        print ("[+] Gerakan " +:+ move_str +:+ " oleh @" +:+ player
               +:+ " berhasil!");;
        mret (state, lb)
  end.

(** The end of [main] (lines 277-284). *)
Definition render_and_update (state : game_state loc) (lb : gmap string Z)
    : St world unit :=
  g ← with_heap (read_board (board state));
  legal ← lift (get_legal_moves g (turn state));
  n ← lift (match game_num state with Some n => Ok n | None => Raise KeyError end);
  update_readme g legal (turn state) n (moves state) lb;;
  print "[+] README berhasil diupdate!".

Definition main (e : environ) : St world unit :=
  let move_str := strip (default "" (CHESS_MOVE e)) in
  let player := strip (default "anonymous" (CHESS_PLAYER e)) in
  let command := strip (default "move" (CHESS_CMD e)) in
  state ← load_game;
  lb ← load_leaderboard;
  '(state, lb) ←
    (if bool_decide (command = "new") then new_command state lb
     else if bool_decide (command = "move")
     then move_command move_str player (utcnow_isoformat e) state lb
     else mret (state, lb));
  render_and_update state lb.

(** One invocation of the script against the files [fs]: the files it
    leaves, what it printed, and how it ended. *)
Definition invoke (e : environ) (fs : files) : files * list string * exc unit :=
  match main e (World module_heap fs []) with
  | (w, r) => (disk w, stdout w, r)
  end.

End Main.

(** ** The data model of the specification

    The definitions of this part are written from the words of the
    specification, to be compared with the code above. *)

Inductive side : Type := White | Black.

#[export] Instance side_eq_dec : EqDecision side.
Proof. solve_decision. Defined.

(** The sides as the ["turn"] key spells them. *)
Definition side_of (turn : string) : option side :=
  if bool_decide (turn = "white") then Some White
  else if bool_decide (turn = "black") then Some Black
  else None.

Definition turn_of (s : side) : string :=
  match s with White => "white" | Black => "black" end.

Definition opposite (s : side) : side :=
  match s with White => Black | Black => White end.

(** The keys of [PIECES]: six white tokens, six black tokens, the empty
    marker.  The colour of a piece is the case of its token. *)
Definition white_pieces : list string := ["K"; "Q"; "R"; "B"; "N"; "P"].
Definition black_pieces : list string := ["k"; "q"; "r"; "b"; "n"; "p"].
Definition empty_cell : string := ".".

Definition piece_side (p : string) : option side :=
  if bool_decide (p ∈ white_pieces) then Some White
  else if bool_decide (p ∈ black_pieces) then Some Black
  else None.

Definition is_token (p : string) : Prop :=
  p ∈ white_pieces ++ black_pieces ++ [empty_cell].

(** A board of the data model: 8 rows of 8 cells, every cell a token. *)
Definition well_formed (g : grid) : Prop :=
  length g = 8%nat ∧ Forall (fun row => length row = 8%nat ∧ Forall is_token row) g.

(** The shape alone. *)
Definition eight_by_eight (g : grid) : Prop :=
  length g = 8%nat ∧ Forall (fun row : list string => length row = 8%nat) g.

(** A square of the data model: row and column in [0, 8). *)
Definition on_board (p : pos) : Prop := (0 <= p.1 < 8) ∧ (0 <= p.2 < 8).

(** The cell of a square ([empty_cell] outside the grid). *)
Definition cell (g : grid) (p : pos) : string :=
  default empty_cell (g !! Z.to_nat p.1 ≫= fun row => row !! Z.to_nat p.2).

(** The 64 squares, rows 0..7 and within a row columns 0..7. *)
Definition all_squares : list pos :=
  flat_map (fun r => map (fun c => (r, c)) (range 8)) (range 8).

(** *** Move parser (4.1) *)

(** The place of a character in an alphabet, counted from 0. *)
Fixpoint position (c : ascii) (alphabet : string) : option Z :=
  match alphabet with
  | EmptyString => None
  | String a rest => if Ascii.eqb c a then Some 0 else Z.succ <$> position c rest
  end.

(** File letters in either case: a=0 .. h=7. *)
Definition file_index (c : ascii) : option Z :=
  match position c "abcdefgh" with
  | Some k => Some k
  | None => position c "ABCDEFGH"
  end.

Definition decimal_digit (c : ascii) : option Z := position c "0123456789".

Definition rank_digit (c : ascii) : option Z :=
  d ← decimal_digit c; if bool_decide (1 <= d <= 8) then Some d else None.

(** The parser as the specification words it: a token of exactly four
    characters file, rank, file, rank gives the two squares, every other
    string gives nothing. *)
Definition parse_claimed (token : string) : option (pos * pos) :=
  match token with
  | String f1 (String r1 (String f2 (String r2 EmptyString))) =>
      c1 ← file_index f1; d1 ← rank_digit r1;
      c2 ← file_index f2; d2 ← rank_digit r2;
      Some ((8 - d1, c1), (8 - d2, c2))
  | _ => None
  end.

(** *** Legality checker (4.2) *)

Inductive rejection : Type :=
  | NoPieceAtSource
  | WrongSidesTurn (expected : side)
  | CannotCaptureOwnPiece.

Definition reason (r : rejection) : string :=
  match r with
  | NoPieceAtSource => "Tidak ada bidak di posisi itu!"
  | WrongSidesTurn White => "Sekarang giliran putih!"
  | WrongSidesTurn Black => "Sekarang giliran hitam!"
  | CannotCaptureOwnPiece => "Tidak bisa makan bidak sendiri!"
  end.

(** Rules 1 to 4 in their order; [None] is acceptance. *)
Definition check_claimed (g : grid) (source destination : pos) (sideToMove : side)
    : option rejection :=
  if bool_decide (cell g source = empty_cell) then Some NoPieceAtSource
  else if bool_decide (piece_side (cell g source) ≠ Some sideToMove)
  then Some (WrongSidesTurn sideToMove)
  else if bool_decide (cell g destination ≠ empty_cell ∧
                       piece_side (cell g destination) = piece_side (cell g source))
  then Some CannotCaptureOwnPiece
  else None.

Definition verdict (r : option rejection) : bool * string :=
  match r with
  | None => (true, "OK")
  | Some r => (false, reason r)
  end.

(** *** Enumeration (4.2) *)

Definition owned (g : grid) (s : side) (p : pos) : bool :=
  bool_decide (piece_side (cell g p) = Some s).

Definition file_letter (c : Z) : ascii :=
  nth (Z.to_nat c) ["a"; "b"; "c"; "d"; "e"; "f"; "g"; "h"]%char "?"%char.

Definition rank_char (r : Z) : ascii :=
  nth (Z.to_nat r) ["8"; "7"; "6"; "5"; "4"; "3"; "2"; "1"]%char "?"%char.

(** The four-character token of a source and a destination square. *)
Definition token_of (source destination : pos) : string :=
  String (file_letter source.2) (String (rank_char source.1)
    (String (file_letter destination.2) (String (rank_char destination.1)
       EmptyString))).

(** Sources in row-major order (outer), destinations in row-major order
    (inner); a source counts when it holds a piece of the side, a
    destination when it holds no piece of the side. *)
Definition legal_tokens (g : grid) (s : side) : list string :=
  flat_map (fun source =>
    if owned g s source
    then flat_map (fun destination =>
           if owned g s destination then [] else [token_of source destination])
         all_squares
    else [])
  all_squares.

Definition count_owned (g : grid) (s : side) : nat :=
  length (filter (fun p => owned g s p = true) all_squares).

(** *** Move applicator (4.3) *)

(** What the specification's first bullet says of a result [g'] of moving
    from [source] to [destination] on [g]. *)
Definition transfer_claimed (g : grid) (source destination : pos) (g' : grid) : Prop :=
  cell g' destination = cell g source ∧
  cell g' source = empty_cell ∧
  ∀ p, on_board p → p ≠ source → p ≠ destination → cell g' p = cell g p.

(** Automatic promotion: the piece that arrives on row [r]. *)
Definition promoted (piece : string) (r : Z) : string :=
  if bool_decide (piece = "P" ∧ r = 0) then "Q"
  else if bool_decide (piece = "p" ∧ r = 7) then "q"
  else piece.

(** What the specification says of the destination cell of a result [g']:
    it holds the piece that was at [source], promoted or as it was. *)
Definition promotion_claimed (g : grid) (source destination : pos) (g' : grid) : Prop :=
  cell g' destination = promoted (cell g source) destination.1.

(** One heap is an extension of another: every object of the first is in
    the second with the same items. *)
Definition extends (h h' : heap) : Prop :=
  boards h ⊆ boards h' ∧ rows h ⊆ rows h'.

(** The rows of a board object are distinct objects. *)
Definition unshared (h : heap) (b : loc) : Prop :=
  ∃ rs, boards h !! b = Some rs ∧ NoDup rs.

(** A board object [b] of heap [h] seen as the grid [g]: its items [rs]
    are distinct row objects holding the rows of [g]. *)
Definition board_view (h : heap) (b : loc) (rs : list loc) (g : grid) : Prop :=
  boards h !! b = Some rs ∧ NoDup rs ∧
  Forall2 (fun r cs => rows h !! r = Some cs) rs g.

(** The grid with one cell replaced. *)
Definition set_cell (g : grid) (p : pos) (v : string) : grid :=
  alter (fun row => <[Z.to_nat p.2 := v]> row) (Z.to_nat p.1) g.

(** The cell updates of [apply_move] in the order of the code, on a grid. *)
Definition moved (g : grid) (from_pos to_pos : pos) : grid :=
  let piece := cell g from_pos in
  let g1 := set_cell g to_pos piece in
  let g2 := set_cell g1 from_pos "." in
  let g3 := if bool_decide (piece = "P") && bool_decide (to_pos.1 = 0)
            then set_cell g2 to_pos "Q" else g2 in
  if bool_decide (piece = "p") && bool_decide (to_pos.1 = 7)
  then set_cell g3 to_pos "q" else g3.

(** [apply_move] run on the objects of a grid, and the grid it returns. *)
Definition apply_move_on (g : grid) (from_pos to_pos : pos) : option grid :=
  match new_board g empty_heap with
  | (h, Ok b) =>
      match apply_move b from_pos to_pos h with
      | (h', Ok b') => contents h' b'
      | (_, Raise _) => None
      end
  | (_, Raise _) => None
  end.

(** A position with a white pawn on a7 and a black pawn on h2. *)
Definition pawns_about_to_promote : grid :=
  [ [".";".";".";".";"k";".";".";"."];
    ["P";".";".";".";".";".";".";"."];
    [".";".";".";".";".";".";".";"."];
    [".";".";".";".";".";".";".";"."];
    [".";".";".";".";".";".";".";"."];
    [".";".";".";".";".";".";".";"."];
    [".";".";".";".";".";".";".";"p"];
    [".";".";".";".";"K";".";".";"."] ].

(** *** Game state machine (4.4) *)

(** The state an invocation starts from: the snapshot, or the fresh game. *)
Definition loaded_state (fs : files) : game_state grid :=
  default (GameState INITIAL_BOARD "black" [] (Some 1))
          (chess_data fs ≫= game_json).

Definition loaded_leaderboard (fs : files) : gmap string Z :=
  default ∅ (chess_data fs ≫= leaderboard_json).

(** The three inputs of an invocation after [strip]. *)
Definition move_str_of (e : environ) : string := strip (default "" (CHESS_MOVE e)).
Definition player_of (e : environ) : string := strip (default "anonymous" (CHESS_PLAYER e)).
Definition command_of (e : environ) : string := strip (default "move" (CHESS_CMD e)).

(** An actor's count on a leaderboard, 0 for an absent actor. *)
Definition count_of (lb : gmap string Z) (actor : string) : Z :=
  default 0 (lb !! actor).

(** A rejected move: the token does not parse, or the legality check
    refuses it on the loaded state. *)
Definition rejected (e : environ) (fs : files) : Prop :=
  parse_move (move_str_of e) = Ok None ∨
  ∃ from_pos to_pos msg,
    parse_move (move_str_of e) = Ok (Some (from_pos, to_pos)) ∧
    is_valid_move (board (loaded_state fs)) from_pos to_pos (turn (loaded_state fs))
      = Ok (false, msg).

Section Runs.

Variable render_readme :
  grid -> list string -> string -> Z -> list move_record -> gmap string Z ->
  string -> exc string.

(** The files after one invocation. *)
Definition files_after (e : environ) (fs : files) : files :=
  (invoke render_readme e fs).1.1.

(** The files after a sequence of invocations that all ended normally;
    [None] as soon as one of them did not. *)
Fixpoint play (es : list environ) (fs : files) : option files :=
  match es with
  | [] => Some fs
  | e :: es' =>
      match invoke render_readme e fs with
      | (fs', _, Ok _) => play es' fs'
      | (_, _, Raise _) => None
      end
  end.

End Runs.

(** *** Sample inputs *)

(** A renderer that leaves the README text as it is. *)
Definition keep_readme : grid -> list string -> string -> Z ->
    list move_record -> gmap string Z -> string -> exc string :=
  fun _ _ _ _ _ _ content => Ok content.

(** A checkout with an empty [chess_data/] and an empty README.md. *)
Definition fresh_checkout : files := Files (Some (ChessData None None)) (Some "").

(** An invocation for a move, with [CHESS_CMD] unset, and one for "new". *)
Definition move_by (token actor : string) : environ :=
  Environ (Some token) (Some actor) None "2024-01-01T00:00:00".
Definition new_game_by (actor : string) : environ :=
  Environ None (Some actor) (Some "new") "2024-01-01T00:00:00".

(** How many of the invocations are moves submitted by [actor]. *)
Definition moves_by (actor : string) (es : list environ) : nat :=
  length (filter (fun e => player_of e = actor) es).

(** ** Definitions for the further properties *)

(** *** Subscripts counted from the end *)

(** The squares that Python subscripts reach on an 8 x 8 board: rows and
    columns in [-8, 8), the negative ones counted from the end. *)
Definition in_range (p : pos) : Prop := (-8 <= p.1 < 8) ∧ (-8 <= p.2 < 8).

(** The square of the board that such a pair designates. *)
Definition wrap (p : pos) : pos := (p.1 `mod` 8, p.2 `mod` 8).

(** The cell updates of [apply_move] in the order of the code, for
    subscripts in [-8, 8): the cells are those of the wrapped squares, the
    promotion tests compare the row as it was passed. *)
Definition moved_wrapped (g : grid) (from_pos to_pos : pos) : grid :=
  let piece := cell g (wrap from_pos) in
  let g1 := set_cell g (wrap to_pos) piece in
  let g2 := set_cell g1 (wrap from_pos) "." in
  let g3 := if bool_decide (piece = "P") && bool_decide (to_pos.1 = 0)
            then set_cell g2 (wrap to_pos) "Q" else g2 in
  if bool_decide (piece = "p") && bool_decide (to_pos.1 = 7)
  then set_cell g3 (wrap to_pos) "q" else g3.

(** *** Reachable files *)

(** The state an invocation loads is a state of the data model: a board
    of 8 x 8 tokens, a turn that names a side, a game number. *)
Definition good (fs : files) : Prop :=
  well_formed (board (loaded_state fs)) ∧
  is_Some (side_of (turn (loaded_state fs))) ∧
  is_Some (game_num (loaded_state fs)).

(** The turn after a move, as [main] computes it. *)
Definition flipped (turn : string) : string :=
  if bool_decide (turn = "black") then "white" else "black".

(** The snapshot and the leaderboard that an accepted move writes. *)
Definition snapshot_after_move (e : environ) (fs : files) (from_pos to_pos : pos)
    : game_state grid :=
  GameState (moved_wrapped (board (loaded_state fs)) from_pos to_pos)
    (flipped (turn (loaded_state fs)))
    (moves (loaded_state fs) ++
       [MoveRecord (upper (move_str_of e)) (player_of e) (utcnow_isoformat e)])
    (game_num (loaded_state fs)).

Definition leaderboard_after_move (e : environ) (fs : files) : gmap string Z :=
  <[player_of e := count_of (loaded_leaderboard fs) (player_of e) + 1]>
    (loaded_leaderboard fs).

(** The line printed when a move has been applied. *)
Definition success_line (e : environ) : string :=
  "[+] Gerakan " +:+ move_str_of e +:+ " oleh @" +:+ player_of e +:+ " berhasil!".

Section Histories.

Variable render_readme :
  grid -> list string -> string -> Z -> list move_record -> gmap string Z ->
  string -> exc string.

(** The files after a sequence of invocations, whatever their outcomes. *)
Definition run_all (es : list environ) (fs : files) : files :=
  foldl (fun fs e => files_after render_readme e fs) fs es.

End Histories.

(** How many of the invocations carry the command "new". *)
Definition new_commands (es : list environ) : nat :=
  length (filter (fun e => command_of e = "new") es).

(** A checkout without [chess_data/], with an empty README.md, and an
    invocation with a command that [main] does not know. *)
Definition bare_checkout : files := Files None (Some "").
Definition help_by (actor : string) : environ :=
  Environ None (Some actor) (Some "help") "2024-01-01T00:00:00".

(** The part of a grid that the loops of [get_legal_moves] subscript: at
    least 8 rows, and at least 8 cells in each of the first 8 rows. *)
Definition has_corner (g : grid) : Prop :=
  (8 <= length g)%nat ∧
  Forall (fun row : list string => (8 <= length row)%nat) (take 8 g).

(** 1 when the condition holds, 0 otherwise. *)
Definition indicator (b : bool) : Z := if b then 1 else 0.

(** * Theorems *)

(** ** Python primitives *)

Ltac each_char c := destruct c as [[] [] [] [] [] [] [] []].

Lemma col_map_lower (c : ascii) :
  col_map (char_lower c)
  = match file_index c with Some k => Ok k | None => Raise KeyError end.
Proof. each_char c; vm_compute; reflexivity. Qed.

Lemma int_of_char_lower (c : ascii) :
  int_of_char (char_lower c)
  = match decimal_digit c with Some d => Ok d | None => Raise ValueError end.
Proof. each_char c; vm_compute; reflexivity. Qed.

Lemma length_lower (s : string) : String.length (lower s) = String.length s.
Proof. induction s as [|c s IH]; simpl; congruence. Qed.

(** The [try] block on a four-character string, step by step. *)
Lemma parse_move_try_four (c0 c1 c2 c3 : ascii) :
  parse_move_try (String c0 (String c1 (String c2 (String c3 EmptyString))))
  = (fc ← col_map c0; d1 ← int_of_char c1; tc ← col_map c2;
     d3 ← int_of_char c3; Ok ((8 - d1, fc), (8 - d3, tc))).
Proof. reflexivity. Qed.

(** [parse_move] in terms of the stripped input, one case per length. *)
Lemma parse_move_stripped (s : string) :
  parse_move s
  = match strip s with
    | String c0 (String c1 (String c2 (String c3 EmptyString))) =>
        match file_index c0, decimal_digit c1, file_index c2, decimal_digit c3 with
        | Some fc, Some d1, Some tc, Some d3 => Ok (Some ((8 - d1, fc), (8 - d3, tc)))
        | _, _, _, _ => Ok None
        end
    | _ => Ok None
    end.
Proof.
  unfold parse_move.
  destruct (strip s) as [|c0 [|c1 [|c2 [|c3 [|c4 t]]]]]; try reflexivity.
  cbn [lower String.length Nat.eqb negb].
  rewrite parse_move_try_four, !col_map_lower, !int_of_char_lower.
  destruct (file_index c0), (decimal_digit c1), (file_index c2),
    (decimal_digit c3); reflexivity.
Qed.

(** [parse_move] never raises. *)
Lemma parse_move_total (s : string) : ∃ r, parse_move s = Ok r.
Proof.
  rewrite parse_move_stripped.
  destruct (strip s) as [|c0 [|c1 [|c2 [|c3 [|c4 t]]]]]; eauto.
  destruct (file_index c0), (decimal_digit c1), (file_index c2),
    (decimal_digit c3); eauto.
Qed.

(** ** Move parser *)

Lemma code_point_latin1 (c : N) : (c < 0x100)%N → ∃ a : ascii, c = N_of_ascii a.
Proof. intros H. exists (ascii_of_N c). by rewrite N_ascii_embedding. Qed.

Lemma latin1_code_point (a : ascii) : (N_of_ascii a < 0x100)%N.
Proof. apply N_ascii_bounded. Qed.

Lemma isspace_latin1 (a : ascii) : Unicode.isspace (N_of_ascii a) = isspace a.
Proof. each_char a; reflexivity. Qed.

Lemma col_map_latin1 (a : ascii) : Unicode.col_map (N_of_ascii a) = col_map a.
Proof. each_char a; reflexivity. Qed.

Lemma file_index_latin1 (a : ascii) : Unicode.file_index (N_of_ascii a) = file_index a.
Proof. each_char a; reflexivity. Qed.

Lemma rank_digit_latin1 (a : ascii) : Unicode.rank_digit (N_of_ascii a) = rank_digit a.
Proof. each_char a; reflexivity. Qed.

Lemma lstrip_of_string (s : string) :
  Unicode.lstrip (Unicode.of_string s) = Unicode.of_string (lstrip s).
Proof.
  induction s as [|a s IH]; [reflexivity|].
  change (Unicode.of_string (String a s)) with (N_of_ascii a :: Unicode.of_string s).
  cbn [Unicode.lstrip lstrip]. rewrite isspace_latin1.
  by destruct (isspace a).
Qed.

Lemma rstrip_of_string (s : string) :
  Unicode.rstrip (Unicode.of_string s) = Unicode.of_string (rstrip s).
Proof.
  induction s as [|a s IH]; [reflexivity|].
  change (Unicode.of_string (String a s)) with (N_of_ascii a :: Unicode.of_string s).
  cbn [Unicode.rstrip rstrip]. rewrite IH, isspace_latin1.
  destruct (rstrip s); [by destruct (isspace a)|reflexivity].
Qed.

Lemma strip_of_string (s : string) :
  Unicode.strip (Unicode.of_string s) = Unicode.of_string (strip s).
Proof. unfold Unicode.strip, strip. by rewrite lstrip_of_string, rstrip_of_string. Qed.

Lemma lower_at_latin1 (db : Unicode.database) (s : Unicode.str) (i : nat) (a : ascii) :
  Unicode.conforms db →
  Unicode.lower_at db s i (N_of_ascii a) = [N_of_ascii (char_lower a)].
Proof.
  intros Hdb. unfold Unicode.lower_at.
  pose proof (latin1_code_point a) as Ha.
  destruct (N.eqb_spec (N_of_ascii a) 0x3A3) as [E|_]; [lia|].
  apply (Unicode.to_lower_latin1 db Hdb).
Qed.

Lemma concat_imap_latin1 (f : nat → N → list N) (l : list ascii) :
  (∀ i a, f i (N_of_ascii a) = [N_of_ascii (char_lower a)]) →
  concat (imap f (N_of_ascii <$> l)) = N_of_ascii <$> (char_lower <$> l).
Proof.
  revert f. induction l as [|a l IH]; intros f Hf; [reflexivity|].
  cbn. rewrite Hf. cbn. f_equal. apply IH. intros i b. apply Hf.
Qed.

Lemma list_ascii_of_string_lower (s : string) :
  list_ascii_of_string (lower s) = char_lower <$> list_ascii_of_string s.
Proof. induction s as [|a s IH]; [reflexivity|]. cbn. by rewrite IH. Qed.

(** On 8-bit strings the two embeddings of [str.lower] agree. *)
Lemma lower_of_string (db : Unicode.database) (s : string) :
  Unicode.conforms db →
  Unicode.lower db (Unicode.of_string s) = Unicode.of_string (lower s).
Proof.
  intros Hdb. unfold Unicode.lower, Unicode.of_string.
  rewrite list_ascii_of_string_lower. apply concat_imap_latin1.
  intros i a. by apply lower_at_latin1.
Qed.

Lemma length_of_string (s : string) :
  length (Unicode.of_string s) = String.length s.
Proof.
  unfold Unicode.of_string. rewrite length_fmap.
  induction s as [|a s IH]; [reflexivity|]. cbn. by rewrite IH.
Qed.

(** On 8-bit strings the two embeddings of [parse_move] agree. *)
Lemma parse_move_of_string (db : Unicode.database) (s : string) :
  Unicode.conforms db →
  Unicode.parse_move db (Unicode.of_string s) = parse_move s.
Proof.
  intros Hdb. unfold Unicode.parse_move, parse_move.
  rewrite strip_of_string, lower_of_string, length_of_string by done.
  destruct (lower (strip s)) as [|c0 [|c1 [|c2 [|c3 [|c4 t]]]]]; try reflexivity.
  cbn [String.length Nat.eqb negb].
  rewrite parse_move_try_four.
  unfold Unicode.parse_move_try.
  change (Unicode.of_string (String c0 (String c1 (String c2 (String c3 EmptyString)))))
    with [N_of_ascii c0; N_of_ascii c1; N_of_ascii c2; N_of_ascii c3].
  change (getitem [N_of_ascii c0; N_of_ascii c1; N_of_ascii c2; N_of_ascii c3] 0)
    with (Ok (N_of_ascii c0)).
  change (getitem [N_of_ascii c0; N_of_ascii c1; N_of_ascii c2; N_of_ascii c3] 1)
    with (Ok (N_of_ascii c1)).
  change (getitem [N_of_ascii c0; N_of_ascii c1; N_of_ascii c2; N_of_ascii c3] 2)
    with (Ok (N_of_ascii c2)).
  change (getitem [N_of_ascii c0; N_of_ascii c1; N_of_ascii c2; N_of_ascii c3] 3)
    with (Ok (N_of_ascii c3)).
  cbn [mbind exc_bind].
  rewrite !col_map_latin1, !(Unicode.to_decimal_latin1 db Hdb).
  reflexivity.
Qed.

Lemma parse_claimed_of_string (token : string) :
  Unicode.parse_claimed (Unicode.of_string token) = parse_claimed token.
Proof.
  destruct token as [|c0 [|c1 [|c2 [|c3 [|c4 t]]]]]; try reflexivity.
  change (Unicode.of_string (String c0 (String c1 (String c2 (String c3 EmptyString)))))
    with [N_of_ascii c0; N_of_ascii c1; N_of_ascii c2; N_of_ascii c3].
  cbn [Unicode.parse_claimed parse_claimed].
  by rewrite !file_index_latin1, !rank_digit_latin1.
Qed.

Lemma col_map_code_point (c : N) :
  Unicode.col_map c
  = if Unicode.between 0x61 0x68 c then Ok (Z.of_N c - 0x61) else Raise KeyError.
Proof.
  destruct (N.lt_ge_cases c 0x100) as [Hc|Hc].
  - destruct (code_point_latin1 c Hc) as [a ->]. each_char a; reflexivity.
  - replace (Unicode.between 0x61 0x68 c) with false
      by (unfold Unicode.between; symmetry; apply andb_false_iff; right;
          apply N.leb_gt; lia).
    destruct c as [|p]; [lia|].
    do 8 (try (destruct p as [p|p|]; try reflexivity)); lia.
Qed.

Lemma lower_at_lowered (db : Unicode.database) (s : Unicode.str) (i : nat) (c : N) :
  Unicode.lowered db c (Unicode.lower_at db s i c).
Proof.
  unfold Unicode.lowered, Unicode.lower_at.
  destruct (N.eqb_spec c 0x3A3) as [->|_]; [|by left].
  right. split; [done|]. destruct (Unicode.final_sigma db _ i); auto.
Qed.

Lemma imap_lowered (db : Unicode.database) (f : nat → N → list N) (s : Unicode.str) :
  (∀ i c, Unicode.lowered db c (f i c)) →
  Forall2 (Unicode.lowered db) s (imap f s).
Proof.
  revert f. induction s as [|c s IH]; intros f Hf; cbn; constructor; [apply Hf|].
  apply IH. intros i c'. apply Hf.
Qed.

(** [str.lower] replaces the characters one by one. *)
Lemma lower_expand (db : Unicode.database) (s : Unicode.str) :
  ∃ xss, Forall2 (Unicode.lowered db) s xss ∧ Unicode.lower db s = concat xss.
Proof.
  exists (imap (Unicode.lower_at db s) s). split; [|reflexivity].
  apply imap_lowered. intros i c. apply lower_at_lowered.
Qed.

(** A character is replaced by its lower-case form in U+0000..U+00FF, or
    it lies beyond and nothing that replaces it is a file letter or one of
    the digits 0..9. *)
Lemma lowered_cases (db : Unicode.database) (c : N) (xs : list N) :
  Unicode.conforms db → Unicode.lowered db c xs →
  (∃ a : ascii, c = N_of_ascii a ∧ xs = [N_of_ascii (char_lower a)]) ∨
  (xs ≠ [] ∧
   ∀ x, x ∈ xs → Unicode.between 0x30 0x39 x = false ∧
                 Unicode.between 0x61 0x68 x = false).
Proof.
  intros Hdb [->|[-> Hs]].
  - destruct (N.lt_ge_cases c 0x100) as [Hc|Hc].
    + left. destruct (code_point_latin1 c Hc) as [a ->]. exists a.
      split; [done|]. apply (Unicode.to_lower_latin1 db Hdb).
    + right. split; [apply (Unicode.to_lower_nonempty db Hdb)|].
      intros x Hx. by apply (Unicode.to_lower_beyond db Hdb c).
  - right. destruct Hs as [->| ->]; (split; [done|]);
      intros x ->%list_elem_of_singleton; done.
Qed.

Lemma lowered_nonempty (db : Unicode.database) (c : N) (xs : list N) :
  Unicode.conforms db → Unicode.lowered db c xs → xs ≠ [].
Proof.
  intros Hdb H. destruct (lowered_cases db c xs Hdb H) as [(a & _ & ->)|[? _]]; done.
Qed.

(** A file letter or a digit 0..9 in the lower-cased string stands for
    one 8-bit character of the input. *)
Lemma lowered_token_char (db : Unicode.database) (c x : N) (xs : list N) :
  Unicode.conforms db → Unicode.lowered db c xs → x ∈ xs →
  Unicode.between 0x30 0x39 x || Unicode.between 0x61 0x68 x = true →
  ∃ a : ascii, c = N_of_ascii a ∧ xs = [x] ∧ x = N_of_ascii (char_lower a).
Proof.
  intros Hdb H Hx Ht.
  destruct (lowered_cases db c xs Hdb H) as [(a & -> & ->)|[_ Hno]].
  - apply list_elem_of_singleton in Hx as ->. by exists a.
  - destruct (Hno x Hx) as [E1 E2]. rewrite E1, E2 in Ht. discriminate.
Qed.

(** A lower-cased string of four characters with file letters in the first
    and in the third place comes from four characters. *)
Lemma lowered_token (db : Unicode.database) (t : Unicode.str) (xss : list (list N))
    (x0 x1 x2 x3 : N) :
  Unicode.conforms db → Forall2 (Unicode.lowered db) t xss →
  concat xss = [x0; x1; x2; x3] →
  Unicode.between 0x61 0x68 x0 = true → Unicode.between 0x61 0x68 x2 = true →
  ∃ c0 c1 c2 c3,
    t = [c0; c1; c2; c3] ∧
    Unicode.lowered db c0 [x0] ∧ Unicode.lowered db c1 [x1] ∧
    Unicode.lowered db c2 [x2] ∧ Unicode.lowered db c3 [x3].
Proof.
  intros Hdb H E F0 F2.
  assert (Hfile : ∀ c x xs, Unicode.lowered db c xs → x ∈ xs →
                            Unicode.between 0x61 0x68 x = true → xs = [x]).
  { intros c x xs Hl Hx Hf.
    destruct (lowered_token_char db c x xs Hdb Hl Hx) as (a & _ & -> & _); [|done].
    rewrite Hf. apply orb_true_r. }
  destruct H as [|c0 xs0 t1 xss1 L0 H]; [discriminate|].
  pose proof (lowered_nonempty db c0 xs0 Hdb L0) as N0.
  destruct xs0 as [|y0 r0]; [done|]. cbn in E. injection E as -> E.
  pose proof (Hfile c0 x0 (x0 :: r0) L0 ltac:(left) F0) as E0.
  injection E0 as ->. cbn in E.
  destruct H as [|c1 xs1 t2 xss2 L1 H]; [discriminate|].
  pose proof (lowered_nonempty db c1 xs1 Hdb L1) as N1.
  destruct xs1 as [|y1 r1]; [done|]. cbn in E. injection E as -> E.
  assert (r1 = []) as ->.
  { destruct r1 as [|y2 r1]; [done|]. cbn in E. injection E as -> E.
    pose proof (Hfile c1 x2 (x1 :: x2 :: r1) L1 ltac:(right; left) F2) as E1.
    discriminate E1. }
  cbn in E.
  destruct H as [|c2 xs2 t3 xss3 L2 H]; [discriminate|].
  pose proof (lowered_nonempty db c2 xs2 Hdb L2) as N2.
  destruct xs2 as [|y2 r2]; [done|]. cbn in E. injection E as -> E.
  pose proof (Hfile c2 x2 (x2 :: r2) L2 ltac:(left) F2) as E2.
  injection E2 as ->. cbn in E.
  destruct H as [|c3 xs3 t4 xss4 L3 H]; [discriminate|].
  pose proof (lowered_nonempty db c3 xs3 Hdb L3) as N3.
  destruct xs3 as [|y3 r3]; [done|]. cbn in E. injection E as -> E.
  apply app_eq_nil in E as [-> E].
  destruct H as [|c4 xs4 t5 xss5 L4 H].
  - by exists c0, c1, c2, c3.
  - pose proof (lowered_nonempty db c4 xs4 Hdb L4) as N4.
    cbn in E. apply app_eq_nil in E as [-> _]. done.
Qed.

(** [parse_move] in terms of the stripped and lower-cased input. *)
Lemma parse_move_lowered (db : Unicode.database) (s : Unicode.str) :
  Unicode.parse_move db s
  = match Unicode.lower db (Unicode.strip s) with
    | [x0; x1; x2; x3] =>
        if Unicode.between 0x61 0x68 x0 && Unicode.between 0x61 0x68 x2 then
          match Unicode.to_decimal db x1, Unicode.to_decimal db x3 with
          | Some d1, Some d3 =>
              Ok (Some ((8 - d1, Z.of_N x0 - 0x61), (8 - d3, Z.of_N x2 - 0x61)))
          | _, _ => Ok None
          end
        else Ok None
    | _ => Ok None
    end.
Proof.
  unfold Unicode.parse_move.
  destruct (Unicode.lower db (Unicode.strip s)) as [|x0 [|x1 [|x2 [|x3 [|x4 t]]]]];
    try reflexivity.
  cbn [length Nat.eqb negb]. unfold Unicode.parse_move_try.
  change (getitem [x0; x1; x2; x3] 0) with (Ok x0).
  change (getitem [x0; x1; x2; x3] 1) with (Ok x1).
  change (getitem [x0; x1; x2; x3] 2) with (Ok x2).
  change (getitem [x0; x1; x2; x3] 3) with (Ok x3).
  cbn [mbind exc_bind]. rewrite !col_map_code_point. unfold Unicode.int_of_char.
  destruct (Unicode.between 0x61 0x68 x0); [|reflexivity]. cbn [mbind exc_bind andb].
  destruct (Unicode.to_decimal db x1); cbn [mbind exc_bind];
    [|by destruct (Unicode.between 0x61 0x68 x2)].
  destruct (Unicode.between 0x61 0x68 x2); [|reflexivity]. cbn [mbind exc_bind].
  by destruct (Unicode.to_decimal db x3).
Qed.

(** [parse_move] never raises. *)
Lemma parse_move_returns (db : Unicode.database) (s : Unicode.str) :
  ∃ r, Unicode.parse_move db s = Ok r.
Proof.
  rewrite parse_move_lowered.
  destruct (Unicode.lower db (Unicode.strip s)) as [|x0 [|x1 [|x2 [|x3 [|x4 t]]]]]; eauto.
  destruct (_ && _); eauto.
  destruct (Unicode.to_decimal db x1), (Unicode.to_decimal db x3); eauto.
Qed.

Lemma file_index_lowered (a : ascii) :
  Unicode.file_index (N_of_ascii a)
  = if Unicode.between 0x61 0x68 (N_of_ascii (char_lower a))
    then Some (Z.of_N (N_of_ascii (char_lower a)) - 0x61) else None.
Proof. each_char a; reflexivity. Qed.

Lemma rank_digit_lowered (a : ascii) :
  Unicode.rank_digit (N_of_ascii a)
  = if Unicode.between 0x31 0x38 (N_of_ascii (char_lower a))
    then Some (Z.of_N (N_of_ascii (char_lower a)) - 0x30) else None.
Proof. each_char a; reflexivity. Qed.

Lemma rank_digit_is_digit (a : ascii) :
  Unicode.between 0x31 0x38 (N_of_ascii a) = true →
  int_of_char a = Ok (Z.of_N (N_of_ascii a) - 0x30).
Proof. each_char a; intros H; try discriminate H; reflexivity. Qed.

Lemma rank_digit_token_char (x : N) :
  Unicode.between 0x31 0x38 x = true →
  Unicode.between 0x30 0x39 x || Unicode.between 0x61 0x68 x = true.
Proof.
  unfold Unicode.between. intros [H1 H2]%andb_true_iff.
  apply N.leb_le in H1, H2. apply orb_true_iff. left.
  apply andb_true_iff. split; apply N.leb_le; lia.
Qed.

(** The value of the digits 1..8, in any tables that conform. *)
Lemma to_decimal_rank (db : Unicode.database) (a : ascii) :
  Unicode.conforms db →
  Unicode.between 0x31 0x38 (N_of_ascii a) = true →
  Unicode.to_decimal db (N_of_ascii a) = Some (Z.of_N (N_of_ascii a) - 0x30).
Proof.
  intros Hdb Ha. pose proof (Unicode.to_decimal_latin1 db Hdb a) as E.
  rewrite (rank_digit_is_digit a Ha) in E. unfold Unicode.int_of_char in E.
  by destruct (Unicode.to_decimal db (N_of_ascii a)); simplify_eq.
Qed.

(** What the specification accepts, [parse_move] accepts with the same
    squares. *)
Lemma parse_move_claimed_Some (db : Unicode.database) (s : Unicode.str)
    (r : pos * pos) :
  Unicode.conforms db →
  Unicode.parse_claimed (Unicode.strip s) = Some r →
  Unicode.parse_move db s = Ok (Some r).
Proof.
  intros Hdb E. rewrite parse_move_lowered.
  destruct (Unicode.strip s) as [|c0 [|c1 [|c2 [|c3 [|c4 t]]]]]; try discriminate E.
  cbn [Unicode.parse_claimed] in E.
  assert (Hlat : ∀ c k, Unicode.file_index c = Some k ∨ Unicode.rank_digit c = Some k →
                        ∃ a : ascii, c = N_of_ascii a).
  { intros c k Hk. apply code_point_latin1.
    unfold Unicode.file_index, Unicode.rank_digit, Unicode.between in Hk.
    destruct Hk as [Hk|Hk]; repeat case_match; try discriminate Hk;
      repeat match goal with
             | H : _ && _ = true |- _ => apply andb_true_iff in H as [? ?]
             | H : (_ <=? _)%N = true |- _ => apply N.leb_le in H
             end; lia. }
  destruct (Unicode.file_index c0) as [k0|] eqn:E0; [|discriminate E].
  destruct (Unicode.rank_digit c1) as [d1|] eqn:E1; [|discriminate E].
  destruct (Unicode.file_index c2) as [k2|] eqn:E2; [|discriminate E].
  destruct (Unicode.rank_digit c3) as [d3|] eqn:E3; [|discriminate E].
  cbn in E. injection E as <-.
  destruct (Hlat c0 k0 (or_introl E0)) as [a0 ->].
  destruct (Hlat c1 d1 (or_intror E1)) as [a1 ->].
  destruct (Hlat c2 k2 (or_introl E2)) as [a2 ->].
  destruct (Hlat c3 d3 (or_intror E3)) as [a3 ->].
  change [N_of_ascii a0; N_of_ascii a1; N_of_ascii a2; N_of_ascii a3]
    with (Unicode.of_string (String a0 (String a1 (String a2 (String a3 EmptyString))))).
  rewrite lower_of_string by done.
  change (Unicode.of_string (lower (String a0 (String a1 (String a2 (String a3 EmptyString))))))
    with [N_of_ascii (char_lower a0); N_of_ascii (char_lower a1);
          N_of_ascii (char_lower a2); N_of_ascii (char_lower a3)].
  cbv beta iota.
  rewrite file_index_lowered in E0, E2. rewrite rank_digit_lowered in E1, E3.
  destruct (Unicode.between 0x61 0x68 (N_of_ascii (char_lower a0))); [|discriminate E0].
  destruct (Unicode.between 0x61 0x68 (N_of_ascii (char_lower a2))); [|discriminate E2].
  destruct (Unicode.between 0x31 0x38 (N_of_ascii (char_lower a1))) eqn:B1;
    [|discriminate E1].
  destruct (Unicode.between 0x31 0x38 (N_of_ascii (char_lower a3))) eqn:B3;
    [|discriminate E3].
  rewrite !to_decimal_rank by done. cbn [andb]. by simplify_eq.
Qed.

(** What [parse_move] accepts with rank characters among 1..8, the
    specification accepts with the same squares. *)
Lemma parse_move_Some_claimed (db : Unicode.database) (s : Unicode.str)
    (r : pos * pos) :
  Unicode.conforms db →
  Unicode.unchecked_ranks db s = false →
  Unicode.parse_move db s = Ok (Some r) →
  Unicode.parse_claimed (Unicode.strip s) = Some r.
Proof.
  intros Hdb Hu E. rewrite parse_move_lowered in E. unfold Unicode.unchecked_ranks in Hu.
  destruct (lower_expand db (Unicode.strip s)) as (xss & HF & El).
  destruct (Unicode.lower db (Unicode.strip s)) as [|x0 [|x1 [|x2 [|x3 [|x4 t]]]]];
    try discriminate E.
  destruct (Unicode.between 0x61 0x68 x0) eqn:F0; [|discriminate E].
  destruct (Unicode.between 0x61 0x68 x2) eqn:F2; [|discriminate E].
  cbn [andb] in E, Hu.
  destruct (Unicode.to_decimal db x1) as [d1|] eqn:D1; [|discriminate E].
  destruct (Unicode.to_decimal db x3) as [d3|] eqn:D3; [|discriminate E].
  injection E as <-.
  rewrite !bool_decide_true in Hu by done. cbn [andb] in Hu.
  apply negb_false_iff, andb_true_iff in Hu as [R1 R3].
  destruct (lowered_token db _ xss x0 x1 x2 x3 Hdb HF (eq_sym El) F0 F2)
    as (c0 & c1 & c2 & c3 & -> & L0 & L1 & L2 & L3).
  destruct (lowered_token_char db c0 x0 [x0] Hdb L0 ltac:(left))
    as (a0 & -> & _ & X0); [rewrite F0; apply orb_true_r|].
  destruct (lowered_token_char db c1 x1 [x1] Hdb L1 ltac:(left))
    as (a1 & -> & _ & X1); [by apply rank_digit_token_char|].
  destruct (lowered_token_char db c2 x2 [x2] Hdb L2 ltac:(left))
    as (a2 & -> & _ & X2); [rewrite F2; apply orb_true_r|].
  destruct (lowered_token_char db c3 x3 [x3] Hdb L3 ltac:(left))
    as (a3 & -> & _ & X3); [by apply rank_digit_token_char|].
  cbn [Unicode.parse_claimed].
  rewrite !file_index_lowered, !rank_digit_lowered, <- X0, <- X1, <- X2, <- X3.
  rewrite F0, F2, R1, R3. cbn.
  subst x1 x3. rewrite to_decimal_rank in D1, D3 by done. by simplify_eq.
Qed.

(** C1, as amended.  For every input string, of whatever characters,
    [parse_move] looks at the string with its surrounding whitespace
    removed.  Unless the function reads a rank from a decimal digit other
    than 1..8 (the input, stripped and lower-cased, is a file letter a..h,
    a decimal digit, a file letter, a decimal digit, one of the digits
    being 0, 9 or a decimal digit of another script), the result is the one
    the specification describes: a token of four characters file, rank,
    file, rank (files a..h in either case, ranks 1..8) gives the squares
    with row = 8 - rank and column = index of the file letter; a token of
    any other length, or with a character outside those alphabets, gives
    [None].  No exception is raised. *)
Theorem parse_move_amended (db : Unicode.database) (s : Unicode.str) :
  Unicode.conforms db →
  Unicode.unchecked_ranks db s = false →
  Unicode.parse_move db s = Ok (Unicode.parse_claimed (Unicode.strip s)).
Proof.
  intros Hdb Hu.
  destruct (Unicode.parse_claimed (Unicode.strip s)) as [r|] eqn:Ec.
  - by apply parse_move_claimed_Some.
  - destruct (parse_move_returns db s) as [[r|] E]; [|done].
    apply (parse_move_Some_claimed db s r Hdb Hu) in E. congruence.
Qed.

Lemma latin1_and_fullwidth_conforms : Unicode.conforms Unicode.latin1_and_fullwidth.
Proof.
  split.
  - intros a. each_char a; reflexivity.
  - intros c. cbn. by destruct (c <? 0x100)%N.
  - intros c x Hc. cbn. destruct (N.ltb_spec c 0x100) as [?|_]; [lia|].
    intros ->%list_elem_of_singleton. unfold Unicode.between.
    split; apply andb_false_iff; right; apply N.leb_gt; lia.
  - intros a. each_char a; reflexivity.
Qed.

Lemma parse_move_amended_witness :
  Unicode.parse_move Unicode.latin1_and_fullwidth (Unicode.of_string "  E7e5 ")
  = Ok (Some ((1, 4), (3, 4))).
Proof.
  exact (parse_move_amended Unicode.latin1_and_fullwidth (Unicode.of_string "  E7e5 ")
           latin1_and_fullwidth_conforms eq_refl).
Defined.

(** A token left out of the statement above: with full-width digits in
    the rank places, "e", U+FF12, "e", U+FF14 is parsed as e2e4. *)
Lemma parse_move_fullwidth_digits :
  Unicode.unchecked_ranks Unicode.latin1_and_fullwidth [0x65; 0xFF12; 0x65; 0xFF14]%N
  = true ∧
  Unicode.parse_move Unicode.latin1_and_fullwidth [0x65; 0xFF12; 0x65; 0xFF14]%N
  = Ok (Some ((6, 4), (4, 4))).
Proof. split; reflexivity. Qed.

(** C1 as stated fails: a five-character string with a leading blank is
    parsed, and so is the token "e9e4", where the claim promises [None]. *)
Lemma parse_move_claimed_counterexample :
  parse_move " e2e4" ≠ Ok (parse_claimed " e2e4") ∧
  parse_move "e9e4" ≠ Ok (parse_claimed "e9e4").
Proof. split; vm_compute; discriminate. Qed.

(** ** Lists and grids *)

Lemma norm_index_in_range (len : nat) (i : Z) :
  0 <= i < Z.of_nat len → norm_index len i = Ok (Z.to_nat i).
Proof.
  intros H. unfold norm_index.
  destruct (Z.ltb_spec i 0); [lia|].
  destruct (Z.leb_spec 0 i); [|lia].
  destruct (Z.ltb_spec i (Z.of_nat len)); [reflexivity|lia].
Qed.

Lemma getitem_lookup {A} (l : list A) (i : Z) (x : A) :
  0 <= i → l !! Z.to_nat i = Some x → getitem l i = Ok x.
Proof.
  intros Hi Hx. unfold getitem.
  rewrite norm_index_in_range.
  - cbn. by rewrite Hx.
  - apply lookup_lt_Some in Hx. lia.
Qed.

Lemma getitem_out_of_range {A} (l : list A) (i : Z) :
  Z.of_nat (length l) <= i → getitem l i = Raise IndexError.
Proof.
  intros H. unfold getitem, norm_index.
  destruct (Z.ltb_spec i 0); [lia|].
  destruct (Z.leb_spec 0 i); [|lia].
  destruct (Z.ltb_spec i (Z.of_nat (length l))); [lia|reflexivity].
Qed.

(** A negative subscript reads the item counted from the end. *)
Lemma getitem_negative {A} (l : list A) (i : Z) :
  - Z.of_nat (length l) <= i < 0 → getitem l i = getitem l (i + Z.of_nat (length l)).
Proof.
  intros H. unfold getitem, norm_index.
  destruct (Z.ltb_spec i 0); [|lia].
  destruct (Z.ltb_spec (i + Z.of_nat (length l)) 0); [lia|].
  reflexivity.
Qed.

Lemma well_formed_shape (g : grid) : well_formed g → eight_by_eight g.
Proof.
  intros [Hlen Hrows]. split; [done|].
  eapply Forall_impl; [exact Hrows|]. by intros row [? _].
Qed.

(** On a board of the right shape every square has its row and its cell. *)
Lemma square_lookup (g : grid) (p : pos) :
  eight_by_eight g → on_board p →
  ∃ row, g !! Z.to_nat p.1 = Some row ∧ length row = 8%nat ∧
         row !! Z.to_nat p.2 = Some (cell g p).
Proof.
  intros [Hlen Hrows] [Hr Hc].
  destruct (lookup_lt_is_Some_2 g (Z.to_nat p.1)) as [row Hrow]; [lia|].
  exists row. split; [done|].
  assert (Hl : length row = 8%nat).
  { rewrite Forall_forall in Hrows. apply Hrows.
    eapply list_elem_of_lookup_2. exact Hrow. }
  split; [done|].
  destruct (lookup_lt_is_Some_2 row (Z.to_nat p.2)) as [x Hx]; [lia|].
  unfold cell. rewrite Hrow. cbn. by rewrite Hx.
Qed.

Lemma cell_is_token (g : grid) (p : pos) :
  well_formed g → on_board p → is_token (cell g p).
Proof.
  intros Hwf Hp.
  destruct (square_lookup g p (well_formed_shape g Hwf) Hp) as (row & Hrow & _ & Hx).
  destruct Hwf as [_ Hrows].
  rewrite Forall_forall in Hrows.
  destruct (Hrows row) as [_ Htok].
  { eapply list_elem_of_lookup_2. exact Hrow. }
  rewrite Forall_forall in Htok. apply Htok.
  eapply list_elem_of_lookup_2. exact Hx.
Qed.

(** [board[r][c]] on a board of the right shape. *)
Lemma getitem_row (g : grid) (p : pos) :
  eight_by_eight g → on_board p →
  ∃ row, getitem g p.1 = Ok row ∧ getitem row p.2 = Ok (cell g p).
Proof.
  intros Hs Hp. destruct (square_lookup g p Hs Hp) as (row & Hrow & _ & Hx).
  destruct Hp as [Hr Hc].
  exists row. split; apply getitem_lookup; (lia || done).
Qed.

Ltac each_token H :=
  unfold is_token, white_pieces, black_pieces, empty_cell in H; cbn [app] in H;
  repeat (apply elem_of_cons in H as [->|H]); [..|by apply elem_of_nil in H].

Lemma side_of_cases (t : string) (s : side) :
  side_of t = Some s → t = turn_of s.
Proof.
  unfold side_of. repeat case_bool_decide; intros [= <-]; done.
Qed.

(** ** Legality checker *)

(** The code of [is_valid_move] against the rules of the specification. *)
Lemma is_valid_move_check (g : grid) (src dst : pos) (t : string) (s : side) :
  well_formed g → on_board src → on_board dst → side_of t = Some s →
  is_valid_move g src dst t = Ok (verdict (check_claimed g src dst s)).
Proof.
  intros Hwf Hsrc Hdst Ht.
  pose proof (cell_is_token g src Hwf Hsrc) as Hp.
  pose proof (cell_is_token g dst Hwf Hdst) as Hq.
  destruct (getitem_row g src (well_formed_shape g Hwf) Hsrc) as (row & Hrow & Hpiece).
  destruct (getitem_row g dst (well_formed_shape g Hwf) Hdst) as (trow & Htrow & Htarget).
  apply side_of_cases in Ht. subst t.
  unfold is_valid_move, check_claimed.
  destruct src as [fr fc], dst as [tr tc]. cbn [fst snd] in *.
  rewrite Hrow. cbn [mbind exc_bind]. rewrite Hpiece. cbn [mbind exc_bind].
  rewrite Htrow. cbn [mbind exc_bind]. rewrite Htarget. cbn [mbind exc_bind].
  clear Hrow Hpiece Htrow Htarget.
  revert Hp Hq. generalize (cell g (fr, fc)) (cell g (tr, tc)). intros p q Hp Hq.
  each_token Hp; each_token Hq; destruct s; vm_compute; reflexivity.
Qed.

(** C2.  On every board of the data model, for every source and
    destination square and either side to move, [is_valid_move] rejects
    with the message for "no piece at source" when the source cell is
    empty, else with the message naming the expected side when the piece at
    source is not of the side to move, else with the message for "cannot
    capture own piece" when the destination holds a piece of the colour of
    the source piece, and accepts in every other case: the verdict depends
    on nothing but the two cells and the turn. *)
Theorem is_valid_move_rules (g : grid) (source destination : pos)
    (turn : string) (sideToMove : side) :
  well_formed g → on_board source → on_board destination →
  side_of turn = Some sideToMove →
  is_valid_move g source destination turn
  = Ok (verdict (check_claimed g source destination sideToMove)).
Proof. apply is_valid_move_check. Qed.

Lemma INITIAL_BOARD_well_formed : well_formed INITIAL_BOARD.
Proof.
  unfold well_formed, is_token. apply (bool_decide_unpack _). vm_compute. exact I.
Qed.

Lemma is_valid_move_rules_witness :
  is_valid_move INITIAL_BOARD (6, 4) (4, 4) "black"
  = Ok (false, "Sekarang giliran hitam!").
Proof.
  apply (is_valid_move_rules INITIAL_BOARD (6, 4) (4, 4) "black" Black).
  - exact INITIAL_BOARD_well_formed.
  - unfold on_board; cbn; lia.
  - unfold on_board; cbn; lia.
  - reflexivity.
Defined.

(** ** Enumeration of the legal moves *)

(** A loop whose body appends to the accumulator computes a [flat_map]. *)
Lemma for_each_append {A B} (xs : list A) (body : list B → A → exc (list B))
    (F : A → list B) (acc : list B) :
  (∀ acc x, x ∈ xs → body acc x = Ok (acc ++ F x)) →
  for_each xs body acc = Ok (acc ++ flat_map F xs).
Proof.
  revert acc. induction xs as [|x xs IH]; intros acc Hbody.
  - cbn. by rewrite app_nil_r.
  - cbn [for_each flat_map]. rewrite Hbody by left.
    cbn [mbind exc_bind]. rewrite IH.
    + by rewrite app_assoc.
    + intros acc' y Hy. apply Hbody. by right.
Qed.

Lemma elem_of_range_8 (x : Z) : x ∈ range 8 ↔ 0 <= x < 8.
Proof.
  unfold range. rewrite list_elem_of_fmap. split.
  - intros (n & -> & Hn). apply elem_of_seq in Hn. lia.
  - intros H. exists (Z.to_nat x). split; [lia|]. apply elem_of_seq. lia.
Qed.

Lemma elem_of_all_squares (p : pos) : p ∈ all_squares ↔ on_board p.
Proof.
  unfold all_squares, on_board. rewrite list_elem_of_In, in_flat_map. split.
  - intros (r & Hr & Hp). apply in_map_iff in Hp as (c & <- & Hc).
    apply list_elem_of_In, elem_of_range_8 in Hr, Hc. done.
  - intros [Hr Hc]. exists p.1. split.
    + by apply list_elem_of_In, elem_of_range_8.
    + apply in_map_iff. exists p.2. split; [by destruct p|].
      by apply list_elem_of_In, elem_of_range_8.
Qed.

Lemma flat_map_pairs {B} (F : pos → list B) (rs cs : list Z) :
  flat_map F (flat_map (fun r => map (fun c => (r, c)) cs) rs)
  = flat_map (fun r => flat_map (fun c => F (r, c)) cs) rs.
Proof.
  induction rs as [|r rs IH]; [done|].
  cbn [flat_map]. rewrite flat_map_app. f_equal; [|exact IH].
  clear. induction cs as [|c cs IH]; [done|].
  cbn [map flat_map]. f_equal. exact IH.
Qed.

Lemma flat_map_all_squares {B} (F : pos → list B) :
  flat_map F all_squares
  = flat_map (fun r => flat_map (fun c => F (r, c)) (range 8)) (range 8).
Proof. apply flat_map_pairs. Qed.

Ltac each_index H :=
  match type of H with
  | 0 <= ?r < 8 =>
      assert (r = 0 ∨ r = 1 ∨ r = 2 ∨ r = 3 ∨ r = 4 ∨ r = 5 ∨ r = 6 ∨ r = 7)
        as [->|[->|[->|[->|[->|[->|[->| ->]]]]]]] by lia
  end.

Lemma file_letter_getitem (c : Z) :
  0 <= c < 8 → str_getitem "abcdefgh" c = Ok (file_letter c).
Proof. intros H. each_index H; reflexivity. Qed.

Lemma move_token_token_of (r c tr tc : Z) :
  0 <= r < 8 → 0 <= c < 8 → 0 <= tr < 8 → 0 <= tc < 8 →
  move_token (file_letter c) r (file_letter tc) tr = token_of (r, c) (tr, tc).
Proof.
  intros Hr Hc Htr Htc. unfold move_token, token_of. cbn [fst snd].
  each_index Hr; each_index Htr; reflexivity.
Qed.

(** The three [continue] tests on a source cell amount to ownership. *)
Lemma source_tests {X} (p : string) (s : side) (skip go : X) :
  is_token p →
  (if bool_decide (p = ".") then skip
   else if bool_decide (turn_of s = "white") && negb (isupper p) then skip
   else if bool_decide (turn_of s = "black") && negb (islower p) then skip
   else go)
  = if bool_decide (piece_side p = Some s) then go else skip.
Proof. intros Hp. each_token Hp; destruct s; reflexivity. Qed.

(** For a source owned by the side, the check accepts exactly the
    destinations the side does not own. *)
Lemma check_owned_source (p q : string) (s : side) :
  is_token p → is_token q → piece_side p = Some s →
  (if bool_decide (p = empty_cell) then Some NoPieceAtSource
   else if bool_decide (piece_side p ≠ Some s) then Some (WrongSidesTurn s)
   else if bool_decide (q ≠ empty_cell ∧ piece_side q = piece_side p)
   then Some CannotCaptureOwnPiece else None)
  = if bool_decide (piece_side q = Some s) then Some CannotCaptureOwnPiece else None.
Proof.
  intros Hp Hq. each_token Hp; each_token Hq; destruct s; vm_compute;
    (reflexivity || discriminate).
Qed.

Lemma destination_step (g : grid) (t : string) (s : side) (src : pos)
    (moves : list string) (tr tc : Z) :
  well_formed g → side_of t = Some s → on_board src → owned g s src = true →
  0 <= tr < 8 → 0 <= tc < 8 →
  ('(valid, _) ← is_valid_move g (src.1, src.2) (tr, tc) t;
   if (valid : bool) then
     col ← str_getitem "abcdefgh" src.2;
     tcol ← str_getitem "abcdefgh" tc;
     Ok (moves ++ [move_token col src.1 tcol tr])
   else Ok moves)
  = Ok (moves ++ if owned g s (tr, tc) then [] else [token_of src (tr, tc)]).
Proof.
  intros Hwf Ht Hsrc Hown Htr Htc.
  assert (Hdst : on_board (tr, tc)) by done.
  destruct src as [r c]. cbn [fst snd].
  rewrite (is_valid_move_check g (r, c) (tr, tc) t s) by done.
  unfold check_claimed.
  rewrite (check_owned_source _ _ s)
    by (try apply cell_is_token; try done;
        unfold owned in Hown; by apply bool_decide_eq_true in Hown).
  unfold owned. destruct Hsrc as [Hr Hc]. cbn [fst snd] in Hr, Hc.
  case_bool_decide; cbn [verdict mbind exc_bind].
  - by rewrite app_nil_r.
  - rewrite !file_letter_getitem by done. cbn [mbind exc_bind].
    by rewrite move_token_token_of.
Qed.

Lemma source_step (g : grid) (t : string) (s : side) (moves : list string) (r c : Z) :
  well_formed g → side_of t = Some s → 0 <= r < 8 → 0 <= c < 8 →
  (row ← getitem g r;
   piece ← getitem row c;
   if bool_decide (piece = ".") then Ok moves
   else if bool_decide (t = "white") && negb (isupper piece) then Ok moves
   else if bool_decide (t = "black") && negb (islower piece) then Ok moves
   else
     for_each (range 8) (fun moves tr =>
       for_each (range 8) (fun moves tc =>
         '(valid, _) ← is_valid_move g (r, c) (tr, tc) t;
         if (valid : bool) then
           col ← str_getitem "abcdefgh" c;
           tcol ← str_getitem "abcdefgh" tc;
           Ok (moves ++ [move_token col r tcol tr])
         else Ok moves) moves) moves)
  = Ok (moves ++
        if owned g s (r, c)
        then flat_map (fun d => if owned g s d then [] else [token_of (r, c) d])
               all_squares
        else []).
Proof.
  intros Hwf Ht Hr Hc.
  assert (Hsrc : on_board (r, c)) by done.
  destruct (getitem_row g (r, c) (well_formed_shape g Hwf) Hsrc) as (row & Hrow & Hpiece).
  cbn [fst snd] in Hrow, Hpiece.
  rewrite Hrow. cbn [mbind exc_bind]. rewrite Hpiece. cbn [mbind exc_bind].
  pose proof (side_of_cases t s Ht) as Et. subst t.
  rewrite (source_tests _ s) by by apply cell_is_token.
  destruct (owned g s (r, c)) eqn:Hown; unfold owned in Hown; rewrite Hown.
  2: by rewrite app_nil_r.
  rewrite flat_map_all_squares.
  apply for_each_append. intros acc tr Htr. apply elem_of_range_8 in Htr.
  apply for_each_append. intros acc' tc Htc. apply elem_of_range_8 in Htc.
  by apply (destination_step g (turn_of s) s (r, c)).
Qed.

Lemma get_legal_moves_tokens (g : grid) (t : string) (s : side) :
  well_formed g → side_of t = Some s →
  get_legal_moves g t = Ok (legal_tokens g s).
Proof.
  intros Hwf Ht. unfold get_legal_moves, legal_tokens.
  rewrite flat_map_all_squares.
  change (Ok (flat_map ?F ?l)) with (Ok ([] ++ flat_map F l)).
  apply for_each_append. intros acc r Hr. apply elem_of_range_8 in Hr.
  apply for_each_append. intros acc' c Hc. apply elem_of_range_8 in Hc.
  by apply source_step.
Qed.

Lemma length_flat_map_unowned {B} (g : grid) (s : side) (f : pos → B) (l : list pos) :
  (length (flat_map (fun d => if owned g s d then [] else [f d]) l)
   + length (filter (fun p => owned g s p = true) l) = length l)%nat.
Proof.
  induction l as [|d l IH]; [done|].
  cbn [flat_map]. rewrite length_app, filter_cons.
  destruct (owned g s d) eqn:E; case_decide; try congruence; cbn [length]; lia.
Qed.

Lemma length_flat_map_owned {B} (g : grid) (s : side) (G : pos → list B)
    (k : nat) (l : list pos) :
  (∀ p, length (G p) = k) →
  length (flat_map (fun p => if owned g s p then G p else []) l)
  = (length (filter (fun p => owned g s p = true) l) * k)%nat.
Proof.
  intros HG. induction l as [|p l IH]; [done|].
  cbn [flat_map]. rewrite length_app, filter_cons, IH.
  destruct (owned g s p) eqn:E; case_decide; try congruence; cbn [length].
  - rewrite HG. lia.
  - lia.
Qed.

Lemma length_legal_tokens (g : grid) (s : side) :
  length (legal_tokens g s) = (count_owned g s * (64 - count_owned g s))%nat.
Proof.
  unfold legal_tokens, count_owned.
  apply length_flat_map_owned. intros p.
  pose proof (length_flat_map_unowned g s (token_of p) all_squares) as H.
  change (length all_squares) with 64%nat in H. lia.
Qed.

Lemma elem_of_legal_tokens (g : grid) (s : side) (tok : string) :
  tok ∈ legal_tokens g s ↔
  ∃ src dst, on_board src ∧ on_board dst ∧
             owned g s src = true ∧ owned g s dst = false ∧
             tok = token_of src dst.
Proof.
  unfold legal_tokens. rewrite list_elem_of_In, in_flat_map. split.
  - intros (src & Hsrc & Hin).
    destruct (owned g s src) eqn:Es; [|by destruct Hin].
    apply in_flat_map in Hin as (dst & Hdst & Hin).
    destruct (owned g s dst) eqn:Ed; [by destruct Hin|].
    destruct Hin as [<-|[]].
    exists src, dst. by rewrite <- !elem_of_all_squares, !list_elem_of_In.
  - intros (src & dst & Hsrc & Hdst & Es & Ed & ->).
    exists src. split; [by apply list_elem_of_In, elem_of_all_squares|].
    rewrite Es. apply in_flat_map. exists dst.
    split; [by apply list_elem_of_In, elem_of_all_squares|].
    rewrite Ed. by left.
Qed.

(** C3.  On every board of the data model and for either side,
    [get_legal_moves] returns the list [legal_tokens]: the sources in
    row-major order as the outer loop and for each the destinations in
    row-major order as the inner loop.  A token is in the list exactly when
    it is the four-character token of a source holding a piece of the side
    and a destination not holding a piece of the side, and the length of
    the list is (number of the side's pieces) x (64 - that number). *)
Theorem get_legal_moves_enumeration (g : grid) (turn : string) (s : side) :
  well_formed g → side_of turn = Some s →
  get_legal_moves g turn = Ok (legal_tokens g s) ∧
  (∀ tok, tok ∈ legal_tokens g s ↔
     ∃ src dst, on_board src ∧ on_board dst ∧
                owned g s src = true ∧ owned g s dst = false ∧
                tok = token_of src dst ∧ String.length tok = 4%nat) ∧
  length (legal_tokens g s) = (count_owned g s * (64 - count_owned g s))%nat.
Proof.
  intros Hwf Ht. split; [by apply get_legal_moves_tokens|]. split.
  - intros tok. rewrite elem_of_legal_tokens. split.
    + intros (src & dst & ? & ? & ? & ? & ->). by exists src, dst.
    + intros (src & dst & ? & ? & ? & ? & -> & _). by exists src, dst.
  - apply length_legal_tokens.
Qed.

Lemma get_legal_moves_enumeration_witness :
  get_legal_moves INITIAL_BOARD "black" = Ok (legal_tokens INITIAL_BOARD Black) ∧
  length (legal_tokens INITIAL_BOARD Black) = 768%nat.
Proof.
  destruct (get_legal_moves_enumeration INITIAL_BOARD "black" Black
              INITIAL_BOARD_well_formed eq_refl) as (H1 & _ & H3).
  split; [exact H1|]. rewrite H3. reflexivity.
Defined.

(** ** Heap objects *)

Lemma extends_refl (h : heap) : extends h h.
Proof. by split. Qed.

Lemma extends_trans (h1 h2 h3 : heap) : extends h1 h2 → extends h2 h3 → extends h1 h3.
Proof. intros [? ?] [? ?]. split; by etrans. Qed.

Lemma fresh_row_None (h : heap) : rows h !! fresh (dom (rows h)) = None.
Proof. apply not_elem_of_dom, is_fresh. Qed.

Lemma fresh_board_None (h : heap) : boards h !! fresh (dom (boards h)) = None.
Proof. apply not_elem_of_dom, is_fresh. Qed.

Lemma new_rows_spec (g : grid) (h : heap) :
  ∃ h' rs, new_rows g h = (h', Ok rs) ∧ boards h' = boards h ∧
           rows h ⊆ rows h' ∧ NoDup rs ∧
           Forall2 (fun r cs => rows h' !! r = Some cs) rs g ∧
           (∀ r, r ∈ rs → rows h !! r = None).
Proof.
  revert h. induction g as [|cs g IH]; intros h.
  - exists h, []. repeat split; try done; try constructor.
    intros r Hr. by apply elem_of_nil in Hr.
  - cbn [new_rows]. unfold mbind at 1, St_bind at 1. unfold new_row_obj at 1.
    set (r := fresh (dom (rows h))).
    set (h1 := Heap (boards h) (<[r := cs]> (rows h))).
    destruct (IH h1) as (h' & rs & E & Hb & Hsub & Hnd & Hall & Hfresh).
    unfold mbind at 1, St_bind at 1. rewrite E. cbn.
    assert (Hr : rows h !! r = None) by apply fresh_row_None.
    exists h', (r :: rs). repeat split.
    + done.
    + etrans; [|exact Hsub]. by apply insert_subseteq.
    + constructor; [|done]. intros Hin. apply Hfresh in Hin.
      subst h1. cbn in Hin. by rewrite lookup_insert_eq in Hin.
    + constructor; [|done]. eapply lookup_weaken; [|exact Hsub].
      subst h1. cbn. by rewrite lookup_insert_eq.
    + intros r' [->|Hin]%elem_of_cons; [done|].
      apply Hfresh in Hin. subst h1. cbn in Hin.
      eapply lookup_weaken_None; [exact Hin|]. by apply insert_subseteq.
Qed.

Lemma contents_view (h : heap) (b : loc) (rs : list loc) (g : grid) :
  board_view h b rs g → contents h b = Some g.
Proof.
  intros (Hb & _ & Hall). unfold contents. rewrite Hb. cbn.
  by apply mapM_Some.
Qed.

Lemma view_of_contents (h : heap) (b : loc) (g : grid) :
  contents h b = Some g → unshared h b → ∃ rs, board_view h b rs g.
Proof.
  intros Hc (rs & Hb & Hnd). exists rs. split; [done|]. split; [done|].
  unfold contents in Hc. rewrite Hb in Hc. cbn in Hc. by apply mapM_Some.
Qed.

Lemma board_view_extends (h h' : heap) (b : loc) (rs : list loc) (g : grid) :
  extends h h' → board_view h b rs g → board_view h' b rs g.
Proof.
  intros [Hbs Hrs] (Hb & Hnd & Hall). split; [|split; [done|]].
  - by eapply lookup_weaken.
  - eapply Forall2_impl; [exact Hall|]. intros r cs Hr. cbn in Hr.
    by eapply lookup_weaken.
Qed.

Lemma contents_extends (h h' : heap) (b : loc) (g : grid) :
  extends h h' → contents h b = Some g → contents h' b = Some g.
Proof.
  intros [Hbs Hrs] Hc. unfold contents in *.
  destruct (boards h !! b) as [rs|] eqn:Hb; [|done].
  rewrite (lookup_weaken _ _ _ _ Hb Hbs). cbn in *.
  apply mapM_Some. apply mapM_Some in Hc.
  eapply Forall2_impl; [exact Hc|]. intros r cs Hr. cbn in Hr.
  by eapply lookup_weaken.
Qed.

Lemma new_board_spec (g : grid) (h : heap) :
  ∃ h' b rs, new_board g h = (h', Ok b) ∧ extends h h' ∧
             boards h !! b = None ∧ board_view h' b rs g.
Proof.
  destruct (new_rows_spec g h) as (h1 & rs & E & Hb & Hsub & Hnd & Hall & _).
  unfold new_board, mbind, St_bind. rewrite E. unfold new_board_obj.
  eexists _, _, rs. split; [reflexivity|].
  assert (Hf : boards h !! fresh (dom (boards h1)) = None).
  { rewrite Hb. apply fresh_board_None. }
  split; [|split; [done|]].
  - split; cbn; [|done]. rewrite Hb. apply insert_subseteq. by rewrite Hb in Hf.
  - split; cbn; [by rewrite lookup_insert_eq|]. done.
Qed.

(** Running stateful computations. *)
Lemma run_bind {S A B} (m : St S A) (f : A → St S B) (s : S) :
  (m ≫= f) s = match m s with
               | (s', Ok a) => f a s'
               | (s', Raise e) => (s', Raise e)
               end.
Proof. reflexivity. Qed.

Lemma run_ret {S A} (a : A) (s : S) : (mret a : St S A) s = (s, Ok a).
Proof. reflexivity. Qed.

Lemma deref_row_Some (h : heap) (r : loc) (cs : list string) :
  rows h !! r = Some cs → deref_row r h = (h, Ok cs).
Proof. intros H. unfold deref_row. by rewrite H. Qed.

Lemma deref_board_Some (h : heap) (b : loc) (rs : list loc) :
  boards h !! b = Some rs → deref_board b h = (h, Ok rs).
Proof. intros H. unfold deref_board. by rewrite H. Qed.

Lemma deepcopy_items_spec (its : list loc) :
  ∀ (gs : grid) (hc : heap) (memo : gmap loc loc) (y : loc) (copied : list loc),
  NoDup its →
  Forall2 (fun r cs => rows hc !! r = Some cs) its gs →
  (∀ r, r ∈ its → memo !! r = None) →
  boards hc !! y = Some copied →
  ∃ h' new, deepcopy_items its y memo hc = (h', Ok tt) ∧
            boards h' = <[y := copied ++ new]> (boards hc) ∧
            rows hc ⊆ rows h' ∧
            Forall2 (fun r cs => rows h' !! r = Some cs) new gs ∧
            NoDup new ∧
            (∀ r, r ∈ new → rows hc !! r = None).
Proof.
  induction its as [|r its IH]; intros gs hc memo y copied Hnd Hall Hmemo Hy.
  - apply Forall2_nil_inv_l in Hall as ->.
    exists hc, []. repeat split; try done; try constructor.
    + rewrite app_nil_r. by rewrite insert_id.
    + intros r Hr. by apply elem_of_nil in Hr.
  - apply Forall2_cons_inv_l in Hall as (cs & gs' & Hr & Hall & ->).
    apply NoDup_cons in Hnd as [Hnotin Hnd].
    cbn [deepcopy_items]. rewrite (Hmemo r) by left.
    rewrite !run_bind. rewrite (deref_row_Some _ _ _ Hr).
    rewrite run_bind. unfold new_row_obj at 1. rewrite run_ret.
    set (r' := fresh (dom (rows hc))).
    set (h1 := Heap (boards hc) (<[r' := cs]> (rows hc))).
    assert (Hr' : rows hc !! r' = None) by apply fresh_row_None.
    rewrite run_bind, (deref_board_Some h1 y copied) by done.
    rewrite run_bind. unfold write_board at 1, modify at 1.
    set (h2 := Heap (<[y := copied ++ [r']]> (boards h1)) (rows h1)).
    destruct (IH gs' h2 (<[r := r']> memo) y (copied ++ [r'])) as
      (h' & new & E & Hb & Hsub & Hall' & Hnd' & Hfresh); [done|..].
    { eapply Forall2_impl; [exact Hall|]. intros x xs Hx. cbn in Hx |- *.
      rewrite lookup_insert_ne; [done|]. intros ->. congruence. }
    { intros x Hx. rewrite lookup_insert_ne; [apply Hmemo; by right|].
      intros ->. done. }
    { cbn. by rewrite lookup_insert_eq. }
    rewrite E. exists h', (r' :: new). split; [done|].
    assert (Hsub1 : rows hc ⊆ rows h2) by (by apply insert_subseteq).
    repeat split.
    + rewrite Hb. cbn. rewrite insert_insert_eq. by rewrite <- app_assoc.
    + by etrans.
    + constructor; [|done]. eapply lookup_weaken; [|exact Hsub].
      cbn. by rewrite lookup_insert_eq.
    + apply NoDup_cons. split; [|done]. intros Hin. apply Hfresh in Hin.
      cbn in Hin. by rewrite lookup_insert_eq in Hin.
    + intros x [->|Hin]%elem_of_cons; [done|].
      apply Hfresh in Hin. by eapply lookup_weaken_None.
Qed.

Lemma deepcopy_spec (h : heap) (b : loc) (rs : list loc) (g : grid) :
  board_view h b rs g →
  ∃ h' b' rs', deepcopy b h = (h', Ok b') ∧ extends h h' ∧
               boards h !! b' = None ∧ board_view h' b' rs' g ∧
               (∀ r, r ∈ rs' → rows h !! r = None).
Proof.
  intros (Hb & Hnd & Hall).
  unfold deepcopy. rewrite run_bind, (deref_board_Some _ _ _ Hb).
  rewrite run_bind. unfold new_board_obj at 1.
  set (y := fresh (dom (boards h))).
  assert (Hy : boards h !! y = None) by apply fresh_board_None.
  set (h1 := Heap (<[y := []]> (boards h)) (rows h)).
  destruct (deepcopy_items_spec rs g h1 ∅ y []) as
    (h' & new & E & Hb' & Hsub & Hall' & Hnd' & Hfresh); [done|done|..].
  { intros r _. apply lookup_empty. }
  { cbn. by rewrite lookup_insert_eq. }
  rewrite run_bind, E, run_ret.
  exists h', y, new. split; [done|]. cbn in Hb', Hsub, Hfresh.
  rewrite insert_insert_eq in Hb'. cbn [app] in Hb'.
  split; [|split; [done|split; [|done]]].
  - split; [|done]. rewrite Hb'. by apply insert_subseteq.
  - split; [|done]. rewrite Hb'. by rewrite lookup_insert_eq.
Qed.

(** ** Cells of a grid *)

Lemma eight_by_eight_set_cell (g : grid) (p : pos) (v : string) :
  eight_by_eight g → eight_by_eight (set_cell g p v).
Proof.
  intros [Hlen Hrows]. unfold set_cell. split; [by rewrite length_alter|].
  apply (Forall_alter (fun row : list string => length row = 8%nat)); [done|].
  intros row _ Hrow. by rewrite length_insert.
Qed.

Lemma cell_set_cell_eq (g : grid) (p : pos) (v : string) :
  eight_by_eight g → on_board p → cell (set_cell g p v) p = v.
Proof.
  intros Hs Hp. destruct (square_lookup g p Hs Hp) as (row & Hrow & Hl & _).
  destruct Hp as [Hr Hc].
  unfold cell, set_cell. rewrite list_lookup_alter_eq, Hrow. cbn.
  rewrite list_lookup_insert_eq by lia. done.
Qed.

Lemma cell_set_cell_ne (g : grid) (p q : pos) (v : string) :
  on_board p → on_board q → p ≠ q → cell (set_cell g p v) q = cell g q.
Proof.
  intros [Hr Hc] [Hr' Hc'] Hne. unfold cell, set_cell.
  destruct (decide (Z.to_nat p.1 = Z.to_nat q.1)) as [E|E].
  - rewrite E, list_lookup_alter_eq.
    destruct (g !! Z.to_nat q.1) as [row|]; [|done]. cbn.
    rewrite list_lookup_insert_ne; [done|].
    intros E'. apply Hne. destruct p, q; cbn in *. f_equal; lia.
  - by rewrite list_lookup_alter_ne.
Qed.

(** ** Reading and writing a board object *)

Lemma view_lookup (h : heap) (b : loc) (rs : list loc) (g : grid) (p : pos) :
  board_view h b rs g → eight_by_eight g → on_board p →
  ∃ r cs, rs !! Z.to_nat p.1 = Some r ∧ g !! Z.to_nat p.1 = Some cs ∧
          rows h !! r = Some cs ∧ length cs = 8%nat ∧ length rs = 8%nat.
Proof.
  intros (Hb & Hnd & Hall) Hs Hp.
  destruct (square_lookup g p Hs Hp) as (cs & Hcs & Hl & _).
  pose proof (Forall2_length _ _ _ Hall) as Hlen.
  destruct (Forall2_lookup_r _ _ _ _ _ Hall Hcs) as (r & Hr & Hrow).
  exists r, cs. destruct Hs as [Hg _]. repeat split; try done. lia.
Qed.

Lemma load2_view (h : heap) (b : loc) (rs : list loc) (g : grid) (p : pos) :
  board_view h b rs g → eight_by_eight g → on_board p →
  load2 b p.1 p.2 h = (h, Ok (cell g p)).
Proof.
  intros Hv Hs Hp.
  destruct (view_lookup h b rs g p Hv Hs Hp) as (r & cs & Hr & Hcs & Hrow & Hl & Hlen).
  destruct (square_lookup g p Hs Hp) as (cs' & Hcs' & _ & Hx).
  assert (cs' = cs) as -> by congruence.
  destruct Hv as (Hb & _). destruct Hp as [Hi Hj].
  unfold load2. rewrite run_bind, (deref_board_Some _ _ _ Hb).
  rewrite run_bind. unfold lift at 1.
  rewrite (getitem_lookup rs p.1 r) by (lia || done).
  rewrite run_bind, (deref_row_Some _ _ _ Hrow).
  unfold lift. by rewrite (getitem_lookup cs p.2 (cell g p)) by (lia || done).
Qed.

Lemma store2_view (h : heap) (b : loc) (rs : list loc) (g : grid) (p : pos)
    (v : string) :
  board_view h b rs g → eight_by_eight g → on_board p →
  ∃ h', store2 b p.1 p.2 v h = (h', Ok tt) ∧
        boards h' = boards h ∧
        board_view h' b rs (set_cell g p v) ∧
        (∀ l, l ∉ rs → rows h' !! l = rows h !! l).
Proof.
  intros Hv Hs Hp.
  destruct (view_lookup h b rs g p Hv Hs Hp) as (r & cs & Hr & Hcs & Hrow & Hl & Hlen).
  destruct Hv as (Hb & Hnd & Hall). destruct Hp as [Hi Hj].
  unfold store2. rewrite run_bind, (deref_board_Some _ _ _ Hb).
  rewrite run_bind. unfold lift at 1.
  rewrite (getitem_lookup rs p.1 r) by (lia || done).
  rewrite run_bind, (deref_row_Some _ _ _ Hrow).
  rewrite run_bind. unfold lift, setitem.
  rewrite norm_index_in_range by lia. cbn [mbind exc_bind].
  unfold write_row, modify.
  eexists. split; [reflexivity|]. cbn [boards rows].
  split; [done|]. split.
  - split; [done|]. split; [done|].
    apply Forall2_same_length_lookup. split.
    { unfold set_cell. rewrite length_alter. by eapply Forall2_length. }
    intros i x y Hx Hy. unfold set_cell in Hy. cbn [rows].
    destruct (decide (i = Z.to_nat p.1)) as [->|Hne].
    + rewrite list_lookup_alter_eq, Hcs in Hy. cbn in Hy.
      assert (x = r) as -> by congruence.
      rewrite lookup_insert_eq. congruence.
    + rewrite list_lookup_alter_ne in Hy by done.
      rewrite lookup_insert_ne.
      * exact (Forall2_lookup_lr _ rs g i x y Hall Hx Hy).
      * intros <-. apply Hne. by eapply NoDup_lookup.
  - intros l Hl'. rewrite lookup_insert_ne; [done|].
    intros <-. apply Hl'. by eapply list_elem_of_lookup_2.
Qed.

(** ** Move applicator *)

(** One store into the copy: the view follows, the shape is kept, and no
    object of the heap [h0] from before the copy is touched. *)
Lemma store2_step (h0 h : heap) (b : loc) (rs : list loc) (g : grid) (p : pos)
    (v : string) :
  board_view h b rs g → eight_by_eight g → on_board p →
  extends h0 h → (∀ r, r ∈ rs → rows h0 !! r = None) →
  ∃ h', store2 b p.1 p.2 v h = (h', Ok tt) ∧
        board_view h' b rs (set_cell g p v) ∧
        eight_by_eight (set_cell g p v) ∧
        extends h0 h'.
Proof.
  intros Hv Hs Hp [Hbs Hrs] Hfresh.
  destruct (store2_view h b rs g p v Hv Hs Hp) as (h' & E & Hb & Hv' & Hframe).
  exists h'. split; [done|]. split; [done|].
  split; [by apply eight_by_eight_set_cell|].
  split; [by rewrite Hb|].
  apply map_subseteq_spec. intros l x Hl.
  rewrite Hframe.
  - by eapply lookup_weaken.
  - intros Hin. apply Hfresh in Hin. congruence.
Qed.

(** [apply_move] on a board object whose rows are not shared: it returns a
    new board object holding [moved], and extends the heap. *)
Lemma apply_move_run (h : heap) (b : loc) (rs : list loc) (g : grid)
    (src dst : pos) :
  board_view h b rs g → eight_by_eight g → on_board src → on_board dst →
  ∃ h' b' rs', apply_move b src dst h = (h', Ok b') ∧
               extends h h' ∧ boards h !! b' = None ∧
               board_view h' b' rs' (moved g src dst).
Proof.
  intros Hv Hs Hsrc Hdst.
  destruct (deepcopy_spec h b rs g Hv) as (h1 & b' & rs' & E1 & Hx1 & Hnew & Hv1 & Hfresh).
  pose proof (load2_view h1 b' rs' g src Hv1 Hs Hsrc) as E2.
  destruct (store2_step h h1 b' rs' g dst (cell g src) Hv1 Hs Hdst Hx1 Hfresh)
    as (h2 & E3 & Hv2 & Hs2 & Hx2).
  destruct (store2_step h h2 b' rs' _ src "." Hv2 Hs2 Hsrc Hx2 Hfresh)
    as (h3 & E4 & Hv3 & Hs3 & Hx3).
  unfold apply_move, moved.
  destruct src as [fr fc], dst as [tr tc]. cbn [fst snd] in *.
  rewrite run_bind, E1, run_bind, E2, run_bind, E3, run_bind, E4.
  destruct (bool_decide (cell g (fr, fc) = "P") && bool_decide (tr = 0)) eqn:EP.
  - destruct (store2_step h h3 b' rs' _ (tr, tc) "Q" Hv3 Hs3 Hdst Hx3 Hfresh)
      as (h4 & E5 & Hv4 & Hs4 & Hx4). cbn [fst snd] in E5.
    rewrite run_bind, E5.
    destruct (bool_decide (cell g (fr, fc) = "p") && bool_decide (tr = 7)) eqn:Ep.
    + destruct (store2_step h h4 b' rs' _ (tr, tc) "q" Hv4 Hs4 Hdst Hx4 Hfresh)
        as (h5 & E6 & Hv5 & Hs5 & Hx5). cbn [fst snd] in E6.
      rewrite run_bind, E6, run_ret. by exists h5, b', rs'.
    + rewrite run_bind, !run_ret. by exists h4, b', rs'.
  - rewrite run_bind, run_ret.
    destruct (bool_decide (cell g (fr, fc) = "p") && bool_decide (tr = 7)) eqn:Ep.
    + destruct (store2_step h h3 b' rs' _ (tr, tc) "q" Hv3 Hs3 Hdst Hx3 Hfresh)
        as (h5 & E6 & Hv5 & Hs5 & Hx5). cbn [fst snd] in E6.
      rewrite run_bind, E6, run_ret. by exists h5, b', rs'.
    + rewrite run_bind, !run_ret. by exists h3, b', rs'.
Qed.

Lemma eight_by_eight_moved (g : grid) (src dst : pos) :
  eight_by_eight g → eight_by_eight (moved g src dst).
Proof.
  intros Hs. unfold moved.
  repeat (destruct (_ && _)); repeat apply eight_by_eight_set_cell; done.
Qed.

(** The cells of [moved]. *)
Lemma moved_destination (g : grid) (src dst : pos) :
  eight_by_eight g → on_board src → on_board dst →
  cell (moved g src dst) dst
  = if bool_decide (cell g src = "P" ∧ dst.1 = 0) then "Q"
    else if bool_decide (cell g src = "p" ∧ dst.1 = 7) then "q"
    else if bool_decide (src = dst) then "." else cell g src.
Proof.
  intros Hs Hsrc Hdst. unfold moved.
  pose proof (eight_by_eight_set_cell g dst (cell g src) Hs) as Hs1.
  pose proof (eight_by_eight_set_cell _ src "." Hs1) as Hs2.
  repeat case_bool_decide; destruct_and?; cbn [andb]; simplify_eq;
    rewrite ?cell_set_cell_eq by (try apply eight_by_eight_set_cell; done);
    try done; try tauto; try lia; try congruence.
  all: rewrite cell_set_cell_ne by done; by rewrite cell_set_cell_eq.
Qed.

Lemma moved_source (g : grid) (src dst : pos) :
  eight_by_eight g → on_board src → on_board dst → src ≠ dst →
  cell (moved g src dst) src = empty_cell.
Proof.
  intros Hs Hsrc Hdst Hne. unfold moved.
  pose proof (eight_by_eight_set_cell g dst (cell g src) Hs) as Hs1.
  repeat (destruct (_ && _)); rewrite ?cell_set_cell_ne by done;
    by rewrite cell_set_cell_eq.
Qed.

Lemma moved_elsewhere (g : grid) (src dst p : pos) :
  on_board src → on_board dst → on_board p → p ≠ src → p ≠ dst →
  cell (moved g src dst) p = cell g p.
Proof.
  intros Hsrc Hdst Hp Hne1 Hne2. unfold moved.
  repeat (destruct (_ && _)); by rewrite !cell_set_cell_ne by done.
Qed.

(** Everything [apply_move] does, on a board whose rows are not shared. *)
Lemma apply_move_effect (h : heap) (b : loc) (g : grid) (src dst : pos) :
  contents h b = Some g → unshared h b → eight_by_eight g →
  on_board src → on_board dst →
  ∃ h' b', apply_move b src dst h = (h', Ok b') ∧
           boards h !! b' = None ∧ extends h h' ∧
           contents h' b = Some g ∧
           contents h' b' = Some (moved g src dst) ∧ unshared h' b'.
Proof.
  intros Hc Hu Hs Hsrc Hdst.
  destruct (view_of_contents h b g Hc Hu) as (rs & Hv).
  destruct (apply_move_run h b rs g src dst Hv Hs Hsrc Hdst)
    as (h' & b' & rs' & E & Hx & Hnew & Hv').
  exists h', b'. split; [done|]. split; [done|]. split; [done|].
  split; [by eapply contents_extends|]. split; [by eapply contents_view|].
  exists rs'. by destruct Hv' as (? & ? & _).
Qed.

(** C5, as amended.  For every board object whose rows are distinct
    objects, holding an 8 x 8 grid, and for every source and destination
    square, [apply_move] returns a board object that did not exist before;
    every object that existed before the call, the input board among them,
    holds what it held; every cell of the result other than source and
    destination equals its value in the input.  When the two squares
    differ, the source cell of the result is empty and the destination cell
    holds the piece that was at source, or the queen of its colour when
    that piece is a white pawn arriving on row 0 or a black pawn arriving
    on row 7.  When they are the same square, that cell ends up empty,
    unless such a pawn stands on it, in which case it holds the queen. *)
Theorem apply_move_new_board (h : heap) (b : loc) (g : grid)
    (source destination : pos) :
  contents h b = Some g → unshared h b → eight_by_eight g →
  on_board source → on_board destination →
  ∃ h' b' g',
    apply_move b source destination h = (h', Ok b') ∧
    boards h !! b' = None ∧ contents h' b' = Some g' ∧ eight_by_eight g' ∧
    extends h h' ∧ contents h' b = Some g ∧
    (∀ p, on_board p → p ≠ source → p ≠ destination → cell g' p = cell g p) ∧
    (source ≠ destination →
       cell g' source = empty_cell ∧
       cell g' destination = promoted (cell g source) destination.1) ∧
    (source = destination →
       cell g' destination
       = if bool_decide (promoted (cell g source) destination.1 = cell g source)
         then empty_cell else promoted (cell g source) destination.1).
Proof.
  intros Hc Hu Hs Hsrc Hdst.
  destruct (apply_move_effect h b g source destination Hc Hu Hs Hsrc Hdst)
    as (h' & b' & E & Hnew & Hx & Hold & Hc' & _).
  exists h', b', (moved g source destination).
  split; [done|]. split; [done|]. split; [done|].
  split; [by apply eight_by_eight_moved|]. split; [done|]. split; [done|].
  split; [intros p Hp ? ?; by apply moved_elsewhere|].
  rewrite moved_destination by done. unfold promoted. split.
  - intros Hne. split; [by apply moved_source|].
    repeat case_bool_decide; done.
  - intros Heq. unfold empty_cell.
    repeat case_bool_decide; destruct_and?; simplify_eq; try done; congruence.
Qed.

Lemma module_heap_board :
  contents module_heap INITIAL_BOARD_ref = Some INITIAL_BOARD ∧
  unshared module_heap INITIAL_BOARD_ref.
Proof.
  destruct (new_board_spec INITIAL_BOARD empty_heap) as (h & b & rs & E & _ & _ & Hv).
  unfold module_heap, INITIAL_BOARD_ref, module_init. rewrite E. cbn [fst snd].
  split; [by eapply contents_view|]. exists rs. by destruct Hv as (? & ? & _).
Qed.

Lemma INITIAL_BOARD_shape : eight_by_eight INITIAL_BOARD.
Proof. apply well_formed_shape, INITIAL_BOARD_well_formed. Qed.

Lemma apply_move_new_board_witness :
  ∃ h' b' g',
    apply_move INITIAL_BOARD_ref (1, 4) (3, 4) module_heap = (h', Ok b') ∧
    contents h' b' = Some g' ∧
    contents h' INITIAL_BOARD_ref = Some INITIAL_BOARD ∧
    cell g' (1, 4) = "." ∧ cell g' (3, 4) = "p".
Proof.
  destruct (apply_move_new_board module_heap INITIAL_BOARD_ref INITIAL_BOARD
              (1, 4) (3, 4))
    as (h' & b' & g' & E & _ & Hc & _ & _ & Hold & _ & Hmove & _).
  - apply module_heap_board.
  - apply module_heap_board.
  - exact INITIAL_BOARD_shape.
  - unfold on_board; cbn; lia.
  - unfold on_board; cbn; lia.
  - exists h', b', g'. destruct Hmove as [Hs Hd]; [discriminate|].
    repeat split; assumption.
Defined.

(** C5 as stated fails: a white pawn moved from a7 to a8 leaves a queen,
    not the pawn, on the destination; and when source and destination are
    the same square the piece is not on the destination afterwards. *)
Lemma apply_move_transfer_counterexample :
  (∃ g', apply_move_on pawns_about_to_promote (1, 0) (0, 0) = Some g' ∧
         ¬ transfer_claimed pawns_about_to_promote (1, 0) (0, 0) g') ∧
  (∃ g', apply_move_on INITIAL_BOARD (1, 0) (1, 0) = Some g' ∧
         ¬ transfer_claimed INITIAL_BOARD (1, 0) (1, 0) g').
Proof.
  split; (eexists; split; [vm_compute; reflexivity|]);
    intros (H & _); vm_compute in H; discriminate H.
Qed.

(** ** Promotion *)

(** C6, as amended.  On every board object whose rows are distinct
    objects, holding an 8 x 8 grid, and for every source and destination
    square: when the piece at source is a white pawn and the destination
    row is 0, the destination cell of the board returned by [apply_move]
    holds the white queen; when it is a black pawn and the destination row
    is 7, the destination cell holds the black queen; in every other case
    a piece moved to another square arrives unchanged, and a piece "moved"
    to its own square is removed: the cell is left empty. *)
Theorem apply_move_promotion (h : heap) (b : loc) (g : grid)
    (source destination : pos) :
  contents h b = Some g → unshared h b → eight_by_eight g →
  on_board source → on_board destination →
  ∃ h' b' g',
    apply_move b source destination h = (h', Ok b') ∧
    contents h' b' = Some g' ∧
    (cell g source = "P" → destination.1 = 0 → cell g' destination = "Q") ∧
    (cell g source = "p" → destination.1 = 7 → cell g' destination = "q") ∧
    (¬ (cell g source = "P" ∧ destination.1 = 0) →
     ¬ (cell g source = "p" ∧ destination.1 = 7) →
     source ≠ destination →
     cell g' destination = cell g source) ∧
    (¬ (cell g source = "P" ∧ destination.1 = 0) →
     ¬ (cell g source = "p" ∧ destination.1 = 7) →
     source = destination →
     cell g' destination = empty_cell).
Proof.
  intros Hc Hu Hs Hsrc Hdst.
  destruct (apply_move_effect h b g source destination Hc Hu Hs Hsrc Hdst)
    as (h' & b' & E & _ & _ & _ & Hc' & _).
  exists h', b', (moved g source destination).
  split; [done|]. split; [done|].
  rewrite moved_destination by done.
  repeat split; intros; repeat case_bool_decide; try done; try tauto;
    destruct_and?; congruence.
Qed.

Lemma apply_move_promotion_witness :
  ∃ h' b' g',
    apply_move INITIAL_BOARD_ref (6, 0) (0, 0) module_heap = (h', Ok b') ∧
    contents h' b' = Some g' ∧ cell g' (0, 0) = "Q".
Proof.
  destruct (apply_move_promotion module_heap INITIAL_BOARD_ref INITIAL_BOARD
              (6, 0) (0, 0))
    as (h' & b' & g' & E & Hc & HP & _).
  - apply module_heap_board.
  - apply module_heap_board.
  - exact INITIAL_BOARD_shape.
  - unfold on_board; cbn; lia.
  - unfold on_board; cbn; lia.
  - exists h', b', g'. repeat split; try assumption. by apply HP.
Defined.

(** C6 as stated fails: a black pawn "moved" from a7 to a7 is not
    promoted, and yet the destination cell of the result does not hold the
    pawn. *)
Lemma apply_move_promotion_counterexample :
  cell INITIAL_BOARD (1, 0) = "p" ∧
  ∃ g', apply_move_on INITIAL_BOARD (1, 0) (1, 0) = Some g' ∧
        cell g' (1, 0) = empty_cell ∧
        ¬ promotion_claimed INITIAL_BOARD (1, 0) (1, 0) g'.
Proof.
  split; [reflexivity|]. eexists. split; [vm_compute; reflexivity|].
  split; [reflexivity|]. intros H. vm_compute in H. discriminate H.
Qed.

(** ** The process *)

Lemma run_with_heap {A} (m : St heap A) (h : heap) (d : files) (o : list string) :
  with_heap m (World h d o)
  = match m h with (h', r) => (World h' d o, r) end.
Proof. reflexivity. Qed.

Lemma read_board_contents (h : heap) (d : files) (o : list string) (b : loc) (g : grid) :
  contents h b = Some g →
  with_heap (read_board b) (World h d o) = (World h d o, Ok g).
Proof. intros H. unfold with_heap, read_board. cbn. by rewrite H. Qed.

(** [load_game] from the initial heap of the module: the state read from
    the snapshot or the fresh one, with its board in memory. *)
Lemma load_game_run (fs : files) (o : list string) :
  ∃ h b, load_game (World module_heap fs o)
         = (World h fs o,
            Ok (GameState b (turn (loaded_state fs)) (moves (loaded_state fs))
                  (game_num (loaded_state fs)))) ∧
         contents h b = Some (board (loaded_state fs)) ∧
         unshared h b ∧
         contents h INITIAL_BOARD_ref = Some INITIAL_BOARD.
Proof.
  unfold load_game, loaded_state.
  rewrite run_bind. unfold gets at 1. cbn [disk].
  destruct (chess_data fs ≫= game_json) as [g|]; cbn [default].
  - destruct (new_board_spec (board g) module_heap) as (h & b & rs & E & Hx & _ & Hv).
    rewrite run_bind, run_with_heap. unfold json_load_board. rewrite E, run_ret.
    exists h, b. split; [done|]. split; [by eapply contents_view|].
    split; [exists rs; by destruct Hv as (? & ? & _)|].
    eapply contents_extends; [exact Hx|]. apply module_heap_board.
  - rewrite run_ret. exists module_heap, INITIAL_BOARD_ref. cbn.
    split; [done|]. split; [apply module_heap_board|].
    split; apply module_heap_board.
Qed.

Lemma load_leaderboard_run (w : world) :
  load_leaderboard w = (w, Ok (loaded_leaderboard (disk w))).
Proof. reflexivity. Qed.

(** The branch for a move whose token does not parse. *)
Lemma move_command_unparsed (move_str player now : string)
    (state : game_state loc) (lb : gmap string Z) (w : world) :
  parse_move move_str = Ok None →
  move_command move_str player now state lb w
  = (World (mem w) (disk w)
       (stdout w ++ ["[-] Format gerakan tidak valid: " +:+ move_str]),
     Raise (SystemExit 1)).
Proof. intros H. unfold move_command. rewrite run_bind. unfold lift. by rewrite H. Qed.

(** The branch for a move that the legality check refuses or that makes
    it raise. *)
Lemma move_command_checked (move_str player now : string)
    (state : game_state loc) (lb : gmap string Z) (w : world)
    (g : grid) (from_pos to_pos : pos) :
  parse_move move_str = Ok (Some (from_pos, to_pos)) →
  contents (mem w) (board state) = Some g →
  move_command move_str player now state lb w
  = match is_valid_move g from_pos to_pos (turn state) with
    | Raise ex => (w, Raise ex)
    | Ok (false, msg) =>
        (World (mem w) (disk w) (stdout w ++ ["[-] Gerakan tidak valid: " +:+ msg]),
         Raise (SystemExit 1))
    | Ok (true, _) =>
        (b ← with_heap (apply_move (board state) from_pos to_pos);
         let log := moves state ++ [MoveRecord (upper move_str) player now] in
         let turn' := if bool_decide (turn state = "black")
                      then "white" else "black" in
         let state := GameState b turn' log (game_num state) in
         let lb := <[player := default 0 (lb !! player) + 1]> lb in
         save_leaderboard lb;;
         save_game state;;
         print ("[+] Gerakan " +:+ move_str +:+ " oleh @" +:+ player
                +:+ " berhasil!");;
         mret (state, lb)) w
    end.
Proof.
  intros Hp Hc. unfold move_command. rewrite run_bind. unfold lift at 1. rewrite Hp.
  destruct w as [h d o]. cbn [mem] in Hc.
  rewrite run_bind, (read_board_contents h d o _ g Hc).
  rewrite run_bind. unfold lift at 1.
  destruct (is_valid_move g from_pos to_pos (turn state)) as [[[] msg]|ex];
    reflexivity.
Qed.

(** The end of [main] leaves [chess_data/] as it finds it. *)
Lemma render_and_update_data render (state : game_state loc) (lb : gmap string Z)
    (w w' : world) (r : exc unit) :
  render_and_update render state lb w = (w', r) →
  chess_data (disk w') = chess_data (disk w).
Proof.
  destruct w as [h d o]. unfold render_and_update.
  rewrite run_bind, run_with_heap. unfold read_board at 1.
  destruct (contents h (board state)) as [g|]; [|by intros [= <- _]].
  rewrite run_bind. unfold lift at 1.
  destruct (get_legal_moves g (turn state)) as [legal|ex]; [|by intros [= <- _]].
  rewrite run_bind. unfold lift at 1.
  destruct (game_num state) as [n|]; [|by intros [= <- _]].
  rewrite run_bind. unfold update_readme at 1. rewrite run_bind.
  unfold gets at 1. cbn [disk].
  destruct (README_md d) as [content|]; [|by intros [= <- _]].
  rewrite run_bind. unfold lift at 1.
  destruct (render _ _ _ _ _ _ _) as [content'|ex]; by intros [= <- _].
Qed.

(** A move that goes through: what the branch computes and what it has
    written when it returns. *)
Lemma move_command_done (move_str player now : string)
    (state state' : game_state loc) (lb lb' : gmap string Z) (w w' : world) :
  move_command move_str player now state lb w = (w', Ok (state', lb')) →
  turn state' = (if bool_decide (turn state = "black") then "white" else "black") ∧
  moves state' = moves state ++ [MoveRecord (upper move_str) player now] ∧
  game_num state' = game_num state ∧
  lb' = <[player := default 0 (lb !! player) + 1]> lb ∧
  ∃ g', chess_data (disk w')
        = Some (ChessData
                  (Some (GameState g' (turn state') (moves state') (game_num state')))
                  (Some lb')).
Proof.
  destruct w as [h d o]. unfold move_command.
  rewrite run_bind. unfold lift at 1.
  destruct (parse_move move_str) as [[[from_pos to_pos]|]|ex]; [|done|done].
  rewrite run_bind, run_with_heap. unfold read_board at 1.
  destruct (contents h (board state)) as [g|]; [|done].
  rewrite run_bind. unfold lift at 1.
  destruct (is_valid_move g from_pos to_pos (turn state)) as [[[] msg]|ex];
    [|done|done].
  cbn [negb]. rewrite run_bind, run_with_heap.
  destruct (apply_move (board state) from_pos to_pos h) as [h1 [b|ex]]; [|done].
  cbv zeta. rewrite run_bind. unfold save_leaderboard at 1.
  rewrite run_bind. unfold gets at 1. cbn [disk].
  destruct (chess_data d) as [dir|]; [|done].
  unfold set_disk at 1, modify at 1. cbn [mem disk stdout].
  rewrite run_bind. unfold save_game at 1.
  rewrite run_bind, run_with_heap. unfold read_board at 1. cbn [board].
  destruct (contents h1 b) as [g'|]; [|done].
  rewrite run_bind. unfold gets at 1. cbn [disk chess_data README_md default].
  unfold set_disk at 1, modify at 1. cbn [mem disk stdout leaderboard_json].
  rewrite run_bind. unfold print at 1, modify at 1. rewrite run_ret.
  intros [= <- <- <-]. cbn. repeat split. by exists g'.
Qed.

(** [main] on the command "move": the state is loaded, the branch runs,
    then the README is rendered. *)
Lemma main_move render (e : environ) (fs : files) :
  command_of e = "move" →
  ∃ h b, contents h b = Some (board (loaded_state fs)) ∧ unshared h b ∧
         main render e (World module_heap fs [])
         = match move_command (move_str_of e) (player_of e) (utcnow_isoformat e)
                   (GameState b (turn (loaded_state fs)) (moves (loaded_state fs))
                      (game_num (loaded_state fs)))
                   (loaded_leaderboard fs) (World h fs []) with
           | (w', Ok (state, lb)) => render_and_update render state lb w'
           | (w', Raise ex) => (w', Raise ex)
           end.
Proof.
  intros Hcmd. destruct (load_game_run fs []) as (h & b & E & Hc & Hu & _).
  exists h, b. split; [done|]. split; [done|].
  unfold main. cbv zeta. unfold command_of in Hcmd. rewrite Hcmd.
  rewrite run_bind, E, run_bind, load_leaderboard_run. cbn [disk].
  rewrite bool_decide_false by discriminate. rewrite bool_decide_true by done.
  rewrite run_bind. unfold move_str_of, player_of.
  destruct (move_command _ _ _ _ _ _) as [w' [[state lb]|ex]]; reflexivity.
Qed.

(** [main] on the command "new". *)
Lemma main_new render (e : environ) (fs : files) :
  command_of e = "new" →
  ∃ h b, contents h INITIAL_BOARD_ref = Some INITIAL_BOARD ∧
         main render e (World module_heap fs [])
         = match new_command
                   (GameState b (turn (loaded_state fs)) (moves (loaded_state fs))
                      (game_num (loaded_state fs)))
                   (loaded_leaderboard fs) (World h fs []) with
           | (w', Ok (state, lb)) => render_and_update render state lb w'
           | (w', Raise ex) => (w', Raise ex)
           end.
Proof.
  intros Hcmd. destruct (load_game_run fs []) as (h & b & E & _ & _ & Hinit).
  exists h, b. split; [done|].
  unfold main. cbv zeta. unfold command_of in Hcmd. rewrite Hcmd.
  rewrite run_bind, E, run_bind, load_leaderboard_run. cbn [disk].
  rewrite bool_decide_true by done.
  rewrite run_bind.
  destruct (new_command _ _ _) as [w' [[state lb]|ex]]; reflexivity.
Qed.

Lemma invoke_move_unparsed render (e : environ) (fs : files) :
  command_of e = "move" → parse_move (move_str_of e) = Ok None →
  invoke render e fs
  = (fs, ["[-] Format gerakan tidak valid: " +:+ move_str_of e], Raise (SystemExit 1)).
Proof.
  intros Hcmd Hp. destruct (main_move render e fs Hcmd) as (h & b & _ & _ & E).
  unfold invoke. rewrite E, move_command_unparsed by done. reflexivity.
Qed.

Lemma invoke_move_refused render (e : environ) (fs : files)
    (from_pos to_pos : pos) (msg : string) :
  command_of e = "move" →
  parse_move (move_str_of e) = Ok (Some (from_pos, to_pos)) →
  is_valid_move (board (loaded_state fs)) from_pos to_pos (turn (loaded_state fs))
  = Ok (false, msg) →
  invoke render e fs
  = (fs, ["[-] Gerakan tidak valid: " +:+ msg], Raise (SystemExit 1)).
Proof.
  intros Hcmd Hp Hv. destruct (main_move render e fs Hcmd) as (h & b & Hc & _ & E).
  unfold invoke. rewrite E.
  erewrite move_command_checked; [|exact Hp|exact Hc].
  cbn [turn]. rewrite Hv. reflexivity.
Qed.

Lemma invoke_move_raises render (e : environ) (fs : files)
    (from_pos to_pos : pos) (ex : exn) :
  command_of e = "move" →
  parse_move (move_str_of e) = Ok (Some (from_pos, to_pos)) →
  is_valid_move (board (loaded_state fs)) from_pos to_pos (turn (loaded_state fs))
  = Raise ex →
  invoke render e fs = (fs, [], Raise ex).
Proof.
  intros Hcmd Hp Hv. destruct (main_move render e fs Hcmd) as (h & b & Hc & _ & E).
  unfold invoke. rewrite E.
  erewrite move_command_checked; [|exact Hp|exact Hc].
  cbn [turn]. rewrite Hv. reflexivity.
Qed.

(** An invocation of "move" that ends normally has written the snapshot
    with the turn flipped and the move logged, and the leaderboard with the
    player's count raised by one. *)
Lemma invoke_move_done render (e : environ) (fs fs' : files) (out : list string) :
  command_of e = "move" →
  invoke render e fs = (fs', out, Ok tt) →
  ∃ g', chess_data fs'
        = Some (ChessData
            (Some (GameState g'
                     (if bool_decide (turn (loaded_state fs) = "black")
                      then "white" else "black")
                     (moves (loaded_state fs) ++
                        [MoveRecord (upper (move_str_of e)) (player_of e)
                           (utcnow_isoformat e)])
                     (game_num (loaded_state fs))))
            (Some (<[player_of e := count_of (loaded_leaderboard fs) (player_of e) + 1]>
                     (loaded_leaderboard fs)))).
Proof.
  intros Hcmd Hrun. destruct (main_move render e fs Hcmd) as (h & b & _ & _ & E).
  unfold invoke in Hrun. rewrite E in Hrun.
  destruct (move_command _ _ _ _ _ _) as [w1 [[state lb]|ex]] eqn:Em.
  2: { by injection Hrun. }
  apply move_command_done in Em as (Ht & Hm & Hn & Hlb & g' & Hd).
  destruct (render_and_update render state lb w1) as [w2 r] eqn:Er.
  apply render_and_update_data in Er.
  injection Hrun as <- _ _.
  exists g'. rewrite Er, Hd, Ht, Hm, Hn, Hlb. reflexivity.
Qed.

(** ** Rejected moves *)

Lemma rejected_run render (e : environ) (fs : files) :
  command_of e = "move" → rejected e fs →
  ∃ msg, invoke render e fs = (fs, [msg], Raise (SystemExit 1)).
Proof.
  intros Hcmd [Hp|(from_pos & to_pos & msg & Hp & Hv)].
  - eexists. by apply invoke_move_unparsed.
  - eexists. by eapply invoke_move_refused.
Qed.

(** C4.  For every starting state of the files and every move token that
    does not parse or that the legality check refuses on the loaded state,
    an invocation of the move command ends with exit status 1 after
    printing one rejection message and leaves every file as it was: the
    snapshot (board, turn, move log, game number) and the leaderboard are
    exactly as loaded.  Repeating the invocation any number of times still
    leaves the files as they were. *)
Theorem rejected_move_mutates_nothing render (e : environ) (fs : files) :
  command_of e = "move" → rejected e fs →
  (∃ msg, invoke render e fs = (fs, [msg], Raise (SystemExit 1))) ∧
  loaded_state (files_after render e fs) = loaded_state fs ∧
  loaded_leaderboard (files_after render e fs) = loaded_leaderboard fs ∧
  ∀ n : nat, Nat.iter n (files_after render e) fs = fs.
Proof.
  intros Hcmd Hrej.
  destruct (rejected_run render e fs Hcmd Hrej) as (msg & E).
  assert (Hfs : files_after render e fs = fs) by (unfold files_after; by rewrite E).
  split; [by exists msg|]. rewrite Hfs. split; [done|]. split; [done|].
  induction n as [|n IH]; [done|]. by rewrite Nat.iter_succ, IH.
Qed.

Lemma rejected_move_mutates_nothing_witness :
  rejected (move_by "e2e4" "alice") fresh_checkout ∧
  invoke keep_readme (move_by "e2e4" "alice") fresh_checkout
  = (fresh_checkout, ["[-] Gerakan tidak valid: Sekarang giliran hitam!"],
     Raise (SystemExit 1)) ∧
  Nat.iter 3 (files_after keep_readme (move_by "e2e4" "alice")) fresh_checkout
  = fresh_checkout.
Proof.
  assert (Hrej : rejected (move_by "e2e4" "alice") fresh_checkout).
  { right. exists (6, 4), (4, 4), "Sekarang giliran hitam!". split; reflexivity. }
  destruct (rejected_move_mutates_nothing keep_readme (move_by "e2e4" "alice")
              fresh_checkout eq_refl Hrej) as ((msg & E) & _ & _ & Hn).
  split; [exact Hrej|]. split; [|exact (Hn 3%nat)].
  vm_compute. reflexivity.
Defined.

(** ** Turn alternation *)

Lemma loaded_state_move_done render (e : environ) (fs fs' : files) (out : list string) :
  command_of e = "move" → invoke render e fs = (fs', out, Ok tt) →
  turn (loaded_state fs')
  = (if bool_decide (turn (loaded_state fs) = "black") then "white" else "black") ∧
  game_num (loaded_state fs') = game_num (loaded_state fs) ∧
  loaded_leaderboard fs'
  = <[player_of e := count_of (loaded_leaderboard fs) (player_of e) + 1]>
      (loaded_leaderboard fs).
Proof.
  intros Hcmd Hrun.
  destruct (invoke_move_done render e fs fs' out Hcmd Hrun) as (g' & Hd).
  unfold loaded_state, loaded_leaderboard in *. rewrite Hd. done.
Qed.

Lemma turn_flips (t : string) (s : side) :
  side_of t = Some s →
  side_of (if bool_decide (t = "black") then "white" else "black")
  = Some (opposite s).
Proof. intros H. apply side_of_cases in H as ->. by destruct s. Qed.

(** C7.  When an invocation of the move command ends normally, the side
    to move of the state it leaves is the opposite of the side to move of
    the state it loaded; after two such invocations in a row the side to
    move is the one before the first. *)
Theorem turn_alternates render :
  (∀ (e : environ) (fs fs' : files) (out : list string) (s : side),
     command_of e = "move" → side_of (turn (loaded_state fs)) = Some s →
     invoke render e fs = (fs', out, Ok tt) →
     side_of (turn (loaded_state fs')) = Some (opposite s)) ∧
  (∀ (e1 e2 : environ) (fs fs1 fs2 : files) (out1 out2 : list string) (s : side),
     command_of e1 = "move" → command_of e2 = "move" →
     side_of (turn (loaded_state fs)) = Some s →
     invoke render e1 fs = (fs1, out1, Ok tt) →
     invoke render e2 fs1 = (fs2, out2, Ok tt) →
     side_of (turn (loaded_state fs2)) = Some s ∧
     turn (loaded_state fs2) = turn (loaded_state fs)).
Proof.
  assert (Hone : ∀ e fs fs' out s,
     command_of e = "move" → side_of (turn (loaded_state fs)) = Some s →
     invoke render e fs = (fs', out, Ok tt) →
     side_of (turn (loaded_state fs')) = Some (opposite s)).
  { intros e fs fs' out s Hcmd Hs Hrun.
    destruct (loaded_state_move_done render e fs fs' out Hcmd Hrun) as (-> & _).
    by apply turn_flips. }
  split; [exact Hone|].
  intros e1 e2 fs fs1 fs2 out1 out2 s Hc1 Hc2 Hs H1 H2.
  pose proof (Hone e1 fs fs1 out1 s Hc1 Hs H1) as Hs1.
  pose proof (Hone e2 fs1 fs2 out2 _ Hc2 Hs1 H2) as Hs2.
  assert (Hs' : side_of (turn (loaded_state fs2)) = Some s) by (by destruct s).
  split; [done|].
  apply side_of_cases in Hs, Hs'. congruence.
Qed.

Lemma turn_alternates_witness :
  side_of (turn (loaded_state
                   (files_after keep_readme (move_by "e7e5" "alice") fresh_checkout)))
  = Some White.
Proof.
  destruct (turn_alternates keep_readme) as [Hone _].
  apply (Hone (move_by "e7e5" "alice") fresh_checkout _
              (invoke keep_readme (move_by "e7e5" "alice") fresh_checkout).1.2 Black).
  - reflexivity.
  - reflexivity.
  - vm_compute. reflexivity.
Defined.

(** ** Leaderboard *)

Lemma count_of_insert (lb : gmap string Z) (p actor : string) (n : Z) :
  count_of (<[p := n]> lb) actor = if bool_decide (p = actor) then n else count_of lb actor.
Proof.
  unfold count_of. case_bool_decide as H.
  - subst. by rewrite lookup_insert_eq.
  - by rewrite lookup_insert_ne.
Qed.

Lemma moves_by_cons (actor : string) (e : environ) (es : list environ) :
  moves_by actor (e :: es)
  = ((if bool_decide (player_of e = actor) then 1 else 0) + moves_by actor es)%nat.
Proof.
  unfold moves_by. rewrite filter_cons.
  case_decide; case_bool_decide; done.
Qed.

Lemma play_counts render (es : list environ) :
  ∀ fs fs' : files,
  Forall (fun e => command_of e = "move") es →
  play render es fs = Some fs' →
  ∀ actor : string,
    count_of (loaded_leaderboard fs') actor
    = count_of (loaded_leaderboard fs) actor + Z.of_nat (moves_by actor es) ∧
    (is_Some (loaded_leaderboard fs !! actor) →
     is_Some (loaded_leaderboard fs' !! actor)).
Proof.
  induction es as [|e es IH]; intros fs fs' Hall Hplay actor.
  - injection Hplay as <-. cbn. split; [lia|done].
  - apply Forall_cons in Hall as [Hcmd Hall]. cbn [play] in Hplay.
    destruct (invoke render e fs) as [[fs1 out] [[]|ex]] eqn:Hrun; [|done].
    destruct (loaded_state_move_done render e fs fs1 out Hcmd Hrun) as (_ & _ & Hlb).
    destruct (IH fs1 fs' Hall Hplay actor) as [Hcount Hkeep].
    rewrite Hcount, Hlb, count_of_insert, moves_by_cons. split.
    + case_bool_decide; subst; lia.
    + intros Hsome. apply Hkeep. rewrite Hlb.
      destruct (decide (player_of e = actor)) as [->|Hne].
      * rewrite lookup_insert_eq. by eexists.
      * by rewrite lookup_insert_ne.
Qed.

(** C9.  An invocation of the move command that ends normally gives an
    actor who was absent from the leaderboard an entry equal to 1, raises
    the entry of an actor who was present by 1, and leaves every other
    entry as it was.  Across every sequence of such invocations each
    actor's count is therefore non-decreasing: it grows by the number of
    moves the actor made, and an entry that is present stays present. *)
Theorem leaderboard_counts render :
  (∀ (e : environ) (fs fs' : files) (out : list string),
     command_of e = "move" → invoke render e fs = (fs', out, Ok tt) →
     (loaded_leaderboard fs !! player_of e = None →
      loaded_leaderboard fs' !! player_of e = Some 1) ∧
     (∀ n, loaded_leaderboard fs !! player_of e = Some n →
           loaded_leaderboard fs' !! player_of e = Some (n + 1)) ∧
     (∀ actor, actor ≠ player_of e →
               loaded_leaderboard fs' !! actor = loaded_leaderboard fs !! actor)) ∧
  (∀ (es : list environ) (fs fs' : files),
     Forall (fun e => command_of e = "move") es →
     play render es fs = Some fs' →
     ∀ actor : string,
       count_of (loaded_leaderboard fs) actor
       <= count_of (loaded_leaderboard fs') actor ∧
       count_of (loaded_leaderboard fs') actor
       = count_of (loaded_leaderboard fs) actor + Z.of_nat (moves_by actor es) ∧
       (is_Some (loaded_leaderboard fs !! actor) →
        is_Some (loaded_leaderboard fs' !! actor))).
Proof.
  split.
  - intros e fs fs' out Hcmd Hrun.
    destruct (loaded_state_move_done render e fs fs' out Hcmd Hrun) as (_ & _ & ->).
    unfold count_of. split; [|split].
    + intros ->. by rewrite lookup_insert_eq.
    + intros n ->. by rewrite lookup_insert_eq.
    + intros actor Hne. by rewrite lookup_insert_ne.
  - intros es fs fs' Hall Hplay actor.
    destruct (play_counts render es fs fs' Hall Hplay actor) as [Hcount Hkeep].
    split; [lia|]. done.
Qed.

Lemma leaderboard_counts_witness :
  ∃ fs',
    play keep_readme
      [move_by "e7e5" "alice"; move_by "e2e4" "bob"; move_by "d7d5" "alice"]
      fresh_checkout = Some fs' ∧
    count_of (loaded_leaderboard fs') "alice" = 2 ∧
    count_of (loaded_leaderboard fs') "bob" = 1.
Proof.
  set (es := [move_by "e7e5" "alice"; move_by "e2e4" "bob"; move_by "d7d5" "alice"]).
  set (fs' := default fresh_checkout (play keep_readme es fresh_checkout)).
  assert (Hplay : play keep_readme es fresh_checkout = Some fs')
    by (vm_compute; reflexivity).
  assert (Hall : Forall (fun e => command_of e = "move") es)
    by (repeat constructor).
  destruct (leaderboard_counts keep_readme) as [_ Hseq].
  exists fs'. split; [exact Hplay|]. split.
  - destruct (Hseq es fresh_checkout fs' Hall Hplay "alice") as (_ & -> & _).
    reflexivity.
  - destruct (Hseq es fresh_checkout fs' Hall Hplay "bob") as (_ & -> & _).
    reflexivity.
Defined.

(** ** New game *)

Lemma new_command_run (state : game_state loc) (lb : gmap string Z)
    (h : heap) (fs : files) (o : list string) :
  contents h INITIAL_BOARD_ref = Some INITIAL_BOARD →
  ∃ w' state',
    new_command state lb (World h fs o) = (w', Ok (state', lb)) ∧
    chess_data (disk w')
    = Some (ChessData
              (Some (GameState INITIAL_BOARD "black" []
                       (Some (default 1 (game_num state) + 1))))
              (chess_data fs ≫= leaderboard_json)).
Proof.
  intros Hc. unfold new_command. cbv zeta.
  rewrite run_bind. unfold save_game at 1. cbn [board].
  rewrite run_bind, (read_board_contents h fs o _ _ Hc).
  rewrite run_bind. unfold gets at 1. cbn [disk].
  unfold set_disk at 1, modify at 1. cbn [mem disk stdout].
  rewrite run_bind. unfold print at 1, modify at 1. rewrite run_ret.
  eexists _, _. split; [reflexivity|]. cbn.
  by destruct (chess_data fs).
Qed.

(** C8.  An invocation of the command "new" writes a snapshot whose
    board is the standard starting position, whose side to move is black
    and whose move log is empty; its game number is one more than the game
    number of the previous state.  The previous state is the one
    [load_game] returned: the snapshot or, when no previous game existed,
    the fresh game, whose number is 1 (so the numbering starts at 1, and
    "new" on it gives game 2); a snapshot without a game number counts as
    game 1.  The leaderboard file is left as it was. *)
Theorem new_game_transition render (e : environ) (fs : files) :
  command_of e = "new" →
  chess_data (files_after render e fs) ≫= game_json
  = Some (GameState INITIAL_BOARD "black" []
            (Some (default 1 (game_num (loaded_state fs)) + 1))) ∧
  (chess_data fs ≫= game_json = None →
   loaded_state fs = GameState INITIAL_BOARD "black" [] (Some 1) ∧
   game_num (loaded_state (files_after render e fs)) = Some 2) ∧
  chess_data (files_after render e fs) ≫= leaderboard_json
  = chess_data fs ≫= leaderboard_json.
Proof.
  intros Hcmd. destruct (main_new render e fs Hcmd) as (h & b & Hc & E).
  destruct (new_command_run
              (GameState b (turn (loaded_state fs)) (moves (loaded_state fs))
                 (game_num (loaded_state fs)))
              (loaded_leaderboard fs) h fs [] Hc) as (w1 & state' & En & Hd).
  rewrite En in E.
  destruct (render_and_update render state' (loaded_leaderboard fs) w1)
    as [w2 r] eqn:Er.
  apply render_and_update_data in Er.
  assert (Hfs : chess_data (files_after render e fs) = chess_data (disk w1)).
  { unfold files_after, invoke. by rewrite E. }
  cbn [game_num] in Hd.
  unfold loaded_state at 3. rewrite Hfs, Hd. cbn.
  split; [done|]. split; [|done].
  intros Hnone. unfold loaded_state. rewrite Hnone. done.
Qed.

Lemma new_game_transition_witness :
  chess_data (files_after keep_readme (new_game_by "alice") fresh_checkout)
    ≫= game_json
  = Some (GameState INITIAL_BOARD "black" [] (Some 2)).
Proof.
  destruct (new_game_transition keep_readme (new_game_by "alice") fresh_checkout eq_refl)
    as (H & _ & _).
  exact H.
Defined.

(** ** Rank digits outside 1..8 *)

Lemma file_index_not_space (c : ascii) (k : Z) :
  file_index c = Some k → isspace c = false.
Proof. each_char c; vm_compute; congruence. Qed.

Lemma decimal_digit_not_space (c : ascii) (d : Z) :
  decimal_digit c = Some d → isspace c = false.
Proof. each_char c; vm_compute; congruence. Qed.

Lemma strip_token (c0 c1 c2 c3 : ascii) :
  isspace c0 = false → isspace c3 = false →
  strip (String c0 (String c1 (String c2 (String c3 EmptyString))))
  = String c0 (String c1 (String c2 (String c3 EmptyString))).
Proof.
  intros H0 H3. unfold strip. cbn [lstrip]. rewrite H0.
  cbn [rstrip]. by rewrite H3.
Qed.

Lemma parse_move_digits (f1 d1 f2 d2 : ascii) (c1 n1 c2 n2 : Z) :
  file_index f1 = Some c1 → decimal_digit d1 = Some n1 →
  file_index f2 = Some c2 → decimal_digit d2 = Some n2 →
  parse_move (String f1 (String d1 (String f2 (String d2 EmptyString))))
  = Ok (Some ((8 - n1, c1), (8 - n2, c2))).
Proof.
  intros Hf1 Hd1 Hf2 Hd2. rewrite parse_move_stripped, strip_token.
  - by rewrite Hf1, Hd1, Hf2, Hd2.
  - by eapply file_index_not_space.
  - by eapply decimal_digit_not_space.
Qed.

Lemma is_valid_move_row_minus_one (g : grid) (c : Z) (dst : pos) (t : string) :
  length g = 8%nat →
  is_valid_move g (-1, c) dst t = is_valid_move g (7, c) dst t.
Proof.
  intros Hlen. unfold is_valid_move. destruct dst as [tr tc].
  rewrite (getitem_negative g (-1)) by lia.
  by replace (-1 + Z.of_nat (length g)) with 7 by lia.
Qed.

Lemma is_valid_move_row_eight (g : grid) (c : Z) (dst : pos) (t : string) :
  length g = 8%nat → is_valid_move g (8, c) dst t = Raise IndexError.
Proof.
  intros Hlen. unfold is_valid_move. destruct dst as [tr tc].
  rewrite (getitem_out_of_range g 8) by lia. reflexivity.
Qed.

(** C10.  [parse_move] maps a rank digit d to the row 8 - d without a
    range check: every token of a file letter, a decimal digit, a file
    letter and a decimal digit parses, so "e9e4" gives row -1 and "e0e4"
    gives row 8.  On a board of 8 rows the legality check reads row -1 as
    row 7, so "e9e4" gets the verdict of a move from e1 and, when refused,
    is refused with the message of the legality check; row 8 makes the
    legality check raise IndexError, which nothing catches: the invocation
    of "e0e4" ends with that exception, having printed and written
    nothing. *)
Theorem rank_digits_unchecked render :
  (∀ (f1 d1 f2 d2 : ascii) (c1 n1 c2 n2 : Z),
     file_index f1 = Some c1 → decimal_digit d1 = Some n1 →
     file_index f2 = Some c2 → decimal_digit d2 = Some n2 →
     parse_move (String f1 (String d1 (String f2 (String d2 EmptyString))))
     = Ok (Some ((8 - n1, c1), (8 - n2, c2)))) ∧
  parse_move "e9e4" = Ok (Some ((-1, 4), (4, 4))) ∧
  parse_move "e0e4" = Ok (Some ((8, 4), (4, 4))) ∧
  (∀ (g : grid) (c : Z) (dst : pos) (t : string),
     length g = 8%nat →
     is_valid_move g (-1, c) dst t = is_valid_move g (7, c) dst t) ∧
  (∀ (g : grid) (c : Z) (dst : pos) (t : string),
     length g = 8%nat → is_valid_move g (8, c) dst t = Raise IndexError) ∧
  (∀ (e : environ) (fs : files) (msg : string),
     command_of e = "move" → move_str_of e = "e9e4" →
     length (board (loaded_state fs)) = 8%nat →
     is_valid_move (board (loaded_state fs)) (7, 4) (4, 4) (turn (loaded_state fs))
     = Ok (false, msg) →
     invoke render e fs
     = (fs, ["[-] Gerakan tidak valid: " +:+ msg], Raise (SystemExit 1))) ∧
  (∀ (e : environ) (fs : files),
     command_of e = "move" → move_str_of e = "e0e4" →
     length (board (loaded_state fs)) = 8%nat →
     invoke render e fs = (fs, [], Raise IndexError)).
Proof.
  split; [exact parse_move_digits|].
  split; [reflexivity|]. split; [reflexivity|].
  split; [exact is_valid_move_row_minus_one|].
  split; [exact is_valid_move_row_eight|]. split.
  - intros e fs msg Hcmd Hmv Hlen Hv.
    apply (invoke_move_refused render e fs (-1, 4) (4, 4)); [done|by rewrite Hmv|].
    by rewrite is_valid_move_row_minus_one.
  - intros e fs Hcmd Hmv Hlen.
    apply (invoke_move_raises render e fs (8, 4) (4, 4)); [done|by rewrite Hmv|].
    by apply is_valid_move_row_eight.
Qed.

Lemma rank_digits_unchecked_witness :
  invoke keep_readme (move_by "e9e4" "alice") fresh_checkout
  = (fresh_checkout, ["[-] Gerakan tidak valid: Sekarang giliran hitam!"],
     Raise (SystemExit 1)) ∧
  invoke keep_readme (move_by "e0e4" "alice") fresh_checkout
  = (fresh_checkout, [], Raise IndexError).
Proof.
  destruct (rank_digits_unchecked keep_readme) as (_ & _ & _ & _ & _ & H9 & H0).
  split.
  - apply (H9 (move_by "e9e4" "alice") fresh_checkout "Sekarang giliran hitam!");
      reflexivity.
  - apply (H0 (move_by "e0e4" "alice") fresh_checkout); reflexivity.
Defined.


(** * Further properties *)

(** ** Tokens and the parser *)

Lemma file_index_file_letter (c : Z) :
  0 <= c < 8 → file_index (file_letter c) = Some c.
Proof. intros H. each_index H; reflexivity. Qed.

Lemma decimal_digit_rank_char (r : Z) :
  0 <= r < 8 → decimal_digit (rank_char r) = Some (8 - r).
Proof. intros H. each_index H; reflexivity. Qed.

Lemma file_index_upper (c : ascii) : file_index (char_upper c) = file_index c.
Proof. each_char c; reflexivity. Qed.

Lemma decimal_digit_upper (c : ascii) : decimal_digit (char_upper c) = decimal_digit c.
Proof. each_char c; reflexivity. Qed.

Lemma file_index_lower (c : ascii) : file_index (char_lower c) = file_index c.
Proof. each_char c; reflexivity. Qed.

Lemma decimal_digit_lower (c : ascii) : decimal_digit (char_lower c) = decimal_digit c.
Proof. each_char c; reflexivity. Qed.

Lemma isspace_upper (c : ascii) : isspace (char_upper c) = isspace c.
Proof. each_char c; reflexivity. Qed.

Lemma isspace_lower (c : ascii) : isspace (char_lower c) = isspace c.
Proof. each_char c; reflexivity. Qed.

Lemma file_index_bounds (c : ascii) (k : Z) : file_index c = Some k → 0 <= k <= 7.
Proof. each_char c; vm_compute; intros [= <-]; done. Qed.

Lemma decimal_digit_bounds (c : ascii) (d : Z) : decimal_digit c = Some d → 0 <= d <= 9.
Proof. each_char c; vm_compute; intros [= <-]; done. Qed.

Lemma parse_move_token (source destination : pos) :
  on_board source → on_board destination →
  parse_move (token_of source destination) = Ok (Some (source, destination)).
Proof.
  intros [Hr Hc] [Htr Htc]. destruct source as [r c], destination as [tr tc].
  cbn [fst snd] in *. unfold token_of. cbn [fst snd].
  rewrite (parse_move_digits _ _ _ _ c (8 - r) tc (8 - tr))
    by auto using file_index_file_letter, decimal_digit_rank_char.
  do 2 f_equal; f_equal; f_equal; lia.
Qed.

(** X1.  The token that [get_legal_moves] builds for a source and a
    destination square of the board parses back to these two squares, and
    so does its upper-case form, which is what the move log records. *)
Theorem parse_move_token_of (source destination : pos) :
  on_board source → on_board destination →
  parse_move (token_of source destination) = Ok (Some (source, destination)) ∧
  parse_move (upper (token_of source destination))
  = Ok (Some (source, destination)).
Proof.
  intros Hs Hd. split; [by apply parse_move_token|].
  destruct Hs as [Hr Hc], Hd as [Htr Htc].
  destruct source as [r c], destination as [tr tc].
  cbn [fst snd] in *. unfold token_of. cbn [fst snd upper].
  rewrite (parse_move_digits _ _ _ _ c (8 - r) tc (8 - tr))
    by (rewrite ?file_index_upper, ?decimal_digit_upper;
        auto using file_index_file_letter, decimal_digit_rank_char).
  do 2 f_equal; f_equal; f_equal; lia.
Qed.

Lemma parse_move_token_of_witness :
  parse_move (token_of (1, 4) (3, 4)) = Ok (Some ((1, 4), (3, 4))) ∧
  parse_move (upper (token_of (1, 4) (3, 4))) = Ok (Some ((1, 4), (3, 4))).
Proof. apply (parse_move_token_of (1, 4) (3, 4)); unfold on_board; cbn; lia. Defined.

(** X2.  Whatever [parse_move] returns lies in a fixed window: the
    stripped input has four characters, the columns are in 0..7 and the
    rows in -1..8.  Rows -1 and 8 are outside the board. *)
Theorem parse_move_bounds (s : string) (from_pos to_pos : pos) :
  parse_move s = Ok (Some (from_pos, to_pos)) →
  String.length (strip s) = 4%nat ∧
  (-1 <= from_pos.1 <= 8 ∧ 0 <= from_pos.2 <= 7) ∧
  (-1 <= to_pos.1 <= 8 ∧ 0 <= to_pos.2 <= 7).
Proof.
  rewrite parse_move_stripped.
  destruct (strip s) as [|c0 [|c1 [|c2 [|c3 [|c4 t]]]]]; try discriminate.
  destruct (file_index c0) as [fc|] eqn:E0; [|discriminate].
  destruct (decimal_digit c1) as [d1|] eqn:E1; [|discriminate].
  destruct (file_index c2) as [tc|] eqn:E2; [|discriminate].
  destruct (decimal_digit c3) as [d3|] eqn:E3; [|discriminate].
  intros [= <- <-]. cbn [fst snd String.length].
  apply file_index_bounds in E0, E2. apply decimal_digit_bounds in E1, E3.
  repeat split; lia.
Qed.

Lemma parse_move_bounds_witness :
  String.length (strip " e9e0 ") = 4%nat ∧
  (-1 <= -1 <= 8 ∧ 0 <= 4 <= 7) ∧ (-1 <= 8 <= 8 ∧ 0 <= 4 <= 7).
Proof. exact (parse_move_bounds " e9e0 " (-1, 4) (8, 4) eq_refl). Defined.


Lemma lstrip_lower (s : string) : lstrip (lower s) = lower (lstrip s).
Proof.
  induction s as [|c s IH]; [done|]. cbn [lower lstrip].
  rewrite isspace_lower. by destruct (isspace c).
Qed.

Lemma rstrip_lower (s : string) : rstrip (lower s) = lower (rstrip s).
Proof.
  induction s as [|c s IH]; [done|]. cbn [lower rstrip].
  rewrite IH, isspace_lower.
  destruct (rstrip s); cbn [lower]; [by destruct (isspace c)|done].
Qed.

Lemma lstrip_upper (s : string) : lstrip (upper s) = upper (lstrip s).
Proof.
  induction s as [|c s IH]; [done|]. cbn [upper lstrip].
  rewrite isspace_upper. by destruct (isspace c).
Qed.

Lemma rstrip_upper (s : string) : rstrip (upper s) = upper (rstrip s).
Proof.
  induction s as [|c s IH]; [done|]. cbn [upper rstrip].
  rewrite IH, isspace_upper.
  destruct (rstrip s); cbn [upper]; [by destruct (isspace c)|done].
Qed.

Lemma rstrip_rstrip (s : string) : rstrip (rstrip s) = rstrip s.
Proof.
  induction s as [|c s IH]; [done|]. cbn [rstrip].
  destruct (rstrip s) as [|a r] eqn:E.
  - destruct (isspace c) eqn:Ec; [done|]. simpl. by rewrite Ec.
  - change (rstrip (String c (String a r)))
      with (match rstrip (String a r) with
            | EmptyString => if isspace c then EmptyString else String c EmptyString
            | r' => String c r'
            end).
    by rewrite IH.
Qed.

Lemma lstrip_head (s : string) :
  lstrip s = EmptyString ∨ ∃ c r, lstrip s = String c r ∧ isspace c = false.
Proof.
  induction s as [|c s IH]; [by left|]. cbn [lstrip].
  destruct (isspace c) eqn:Ec; [done|]. right. by exists c, s.
Qed.

Lemma lstrip_rstrip_head (c : ascii) (r : string) :
  isspace c = false → lstrip (rstrip (String c r)) = rstrip (String c r).
Proof.
  intros Ec. cbn [rstrip]. destruct (rstrip r); rewrite ?Ec; cbn [lstrip];
    by rewrite Ec.
Qed.

Lemma strip_strip (s : string) : strip (strip s) = strip s.
Proof.
  unfold strip. destruct (lstrip_head s) as [->|(c & r & -> & Ec)]; [done|].
  by rewrite lstrip_rstrip_head, rstrip_rstrip.
Qed.

(** X3.  [parse_move] does not see surrounding whitespace nor the case
    of the letters: stripping the input or lower-casing it changes
    nothing, and a token that parses gives the same squares when it is
    upper-cased, as the move log records it. *)
Theorem parse_move_insensitive (s : string) :
  parse_move (strip s) = parse_move s ∧
  parse_move (lower s) = parse_move s ∧
  ∀ mv, parse_move s = Ok (Some mv) → parse_move (upper s) = Ok (Some mv).
Proof.
  split; [by rewrite !parse_move_stripped, strip_strip|]. split.
  - rewrite !parse_move_stripped. unfold strip.
    rewrite lstrip_lower, rstrip_lower. fold (strip s).
    destruct (strip s) as [|c0 [|c1 [|c2 [|c3 [|c4 t]]]]]; try done.
    cbn [lower]. by rewrite !file_index_lower, !decimal_digit_lower.
  - intros mv. rewrite !parse_move_stripped. unfold strip.
    rewrite lstrip_upper, rstrip_upper. fold (strip s).
    destruct (strip s) as [|c0 [|c1 [|c2 [|c3 [|c4 t]]]]]; try done.
    cbn [upper]. by rewrite !file_index_upper, !decimal_digit_upper.
Qed.

Lemma parse_move_insensitive_witness :
  parse_move (upper " e7e5 ") = Ok (Some ((1, 4), (3, 4))).
Proof.
  destruct (parse_move_insensitive " e7e5 ") as (_ & _ & H).
  exact (H ((1, 4), (3, 4)) eq_refl).
Defined.


(** ** The menu of legal moves *)

Lemma check_accepts (p q : string) (s : side) :
  is_token p → is_token q →
  (if bool_decide (p = empty_cell) then Some NoPieceAtSource
   else if bool_decide (piece_side p ≠ Some s) then Some (WrongSidesTurn s)
   else if bool_decide (q ≠ empty_cell ∧ piece_side q = piece_side p)
   then Some CannotCaptureOwnPiece else None) = None
  ↔ bool_decide (piece_side p = Some s) = true ∧
    bool_decide (piece_side q = Some s) = false.
Proof.
  intros Hp Hq. each_token Hp; each_token Hq; destruct s; vm_compute;
    split; (intros [? ?] || intros ?); try discriminate; done.
Qed.

Lemma is_valid_move_accepts (g : grid) (src dst : pos) (t : string) (s : side) :
  well_formed g → on_board src → on_board dst → side_of t = Some s →
  is_valid_move g src dst t = Ok (true, "OK")
  ↔ owned g s src = true ∧ owned g s dst = false.
Proof.
  intros Hwf Hsrc Hdst Ht.
  rewrite (is_valid_move_check g src dst t s) by done.
  unfold owned. rewrite <- check_accepts by by apply cell_is_token.
  fold (check_claimed g src dst s).
  destruct (check_claimed g src dst s) as [r|]; cbn; split; done.
Qed.

Lemma token_of_inj (src dst src' dst' : pos) :
  on_board src → on_board dst → on_board src' → on_board dst' →
  token_of src dst = token_of src' dst' → src = src' ∧ dst = dst'.
Proof.
  intros H1 H2 H3 H4 E.
  pose proof (parse_move_token src dst H1 H2) as P.
  pose proof (parse_move_token src' dst' H3 H4) as P'.
  rewrite E in P. rewrite P in P'. by injection P' as -> ->.
Qed.

(** X4.  On a board of the data model the list of [get_legal_moves] and
    the verdict of [is_valid_move] agree: every token of the list parses to
    two squares of the board that [is_valid_move] accepts, and every pair of
    squares of the board that [is_valid_move] accepts has its token in the
    list. *)
Theorem legal_moves_are_the_accepted_moves (g : grid) (t : string) (s : side) :
  well_formed g → side_of t = Some s →
  ∃ l, get_legal_moves g t = Ok l ∧
       (∀ tok, tok ∈ l →
          ∃ src dst, on_board src ∧ on_board dst ∧
                     parse_move tok = Ok (Some (src, dst)) ∧
                     is_valid_move g src dst t = Ok (true, "OK")) ∧
       (∀ src dst, on_board src → on_board dst →
          is_valid_move g src dst t = Ok (true, "OK") →
          token_of src dst ∈ l).
Proof.
  intros Hwf Ht. exists (legal_tokens g s).
  split; [by apply get_legal_moves_tokens|]. split.
  - intros tok (src & dst & Hsrc & Hdst & Hs & Hd & ->)%elem_of_legal_tokens.
    exists src, dst. split; [done|]. split; [done|].
    split; [by apply parse_move_token|].
    by apply (is_valid_move_accepts g src dst t s).
  - intros src dst Hsrc Hdst Hv.
    apply (is_valid_move_accepts g src dst t s) in Hv as [Hs Hd]; try done.
    apply elem_of_legal_tokens. by exists src, dst.
Qed.

Lemma legal_moves_are_the_accepted_moves_witness :
  ∃ l, get_legal_moves INITIAL_BOARD "black" = Ok l ∧ "e7e5" ∈ l.
Proof.
  destruct (legal_moves_are_the_accepted_moves INITIAL_BOARD "black" Black
              INITIAL_BOARD_well_formed eq_refl) as (l & E & _ & Hin).
  exists l. split; [exact E|].
  apply (Hin (1, 4) (3, 4)); [unfold on_board; cbn; lia..|reflexivity].
Defined.

Lemma flat_map_bind {A B} (f : A → list B) (l : list A) : flat_map f l = l ≫= f.
Proof. induction l as [|x l IH]; [done|]. cbn. by rewrite IH. Qed.

Lemma NoDup_all_squares : NoDup all_squares.
Proof. apply (bool_decide_unpack _). vm_compute. exact I. Qed.

Lemma NoDup_legal_tokens (g : grid) (s : side) : NoDup (legal_tokens g s).
Proof.
  unfold legal_tokens. rewrite flat_map_bind.
  apply NoDup_bind; [| |exact NoDup_all_squares].
  - intros src src' tok Hsrc Hsrc' Hin Hin'.
    apply elem_of_all_squares in Hsrc, Hsrc'.
    destruct (owned g s src); [|by apply elem_of_nil in Hin].
    destruct (owned g s src'); [|by apply elem_of_nil in Hin'].
    rewrite flat_map_bind in Hin, Hin'.
    apply list_elem_of_bind in Hin as (dst & Hin & Hdst).
    apply list_elem_of_bind in Hin' as (dst' & Hin' & Hdst').
    apply elem_of_all_squares in Hdst, Hdst'.
    destruct (owned g s dst); [by apply elem_of_nil in Hin|].
    destruct (owned g s dst'); [by apply elem_of_nil in Hin'|].
    apply list_elem_of_singleton in Hin, Hin'. subst tok.
    by destruct (token_of_inj src dst src' dst').
  - intros src Hsrc. apply elem_of_all_squares in Hsrc.
    destruct (owned g s src); [|constructor].
    rewrite flat_map_bind. apply NoDup_bind; [| |exact NoDup_all_squares].
    + intros dst dst' tok Hdst Hdst' Hin Hin'.
      apply elem_of_all_squares in Hdst, Hdst'.
      destruct (owned g s dst); [by apply elem_of_nil in Hin|].
      destruct (owned g s dst'); [by apply elem_of_nil in Hin'|].
      apply list_elem_of_singleton in Hin, Hin'. subst tok.
      by destruct (token_of_inj src dst src dst').
    + intros dst _. destruct (owned g s dst); [constructor|apply NoDup_singleton].
Qed.

(** X5.  On a board of the data model [get_legal_moves] never lists a
    move twice. *)
Theorem get_legal_moves_no_duplicates (g : grid) (t : string) (s : side) :
  well_formed g → side_of t = Some s →
  ∃ l, get_legal_moves g t = Ok l ∧ NoDup l.
Proof.
  intros Hwf Ht. exists (legal_tokens g s).
  split; [by apply get_legal_moves_tokens|apply NoDup_legal_tokens].
Qed.

Lemma get_legal_moves_no_duplicates_witness :
  ∃ l, get_legal_moves INITIAL_BOARD "white" = Ok l ∧ NoDup l.
Proof.
  exact (get_legal_moves_no_duplicates INITIAL_BOARD "white" White
           INITIAL_BOARD_well_formed eq_refl).
Defined.


(** ** [apply_move] on any heap *)

Lemma deepcopy_items_extends (its : list loc) :
  ∀ (h0 hc : heap) (memo : gmap loc loc) (y : loc) (copied : list loc)
    (h' : heap) (res : exc unit),
  extends h0 hc → boards h0 !! y = None → boards hc !! y = Some copied →
  Forall (fun r => rows h0 !! r = None) copied →
  (∀ r r', memo !! r = Some r' → rows h0 !! r' = None) →
  deepcopy_items its y memo hc = (h', res) →
  extends h0 h' ∧
  (∀ u, res = Ok u →
        ∃ new, boards h' !! y = Some new ∧ Forall (fun r => rows h0 !! r = None) new).
Proof.
  induction its as [|r its IH];
    intros h0 hc memo y copied h' res Hx Hy0 Hy Hcop Hmemo Hrun.
  - cbn in Hrun. injection Hrun as <- <-. split; [done|]. intros _ _. eauto.
  - cbn [deepcopy_items] in Hrun. rewrite run_bind in Hrun.
    assert (Hstep : ∀ (r' : loc) (memo' : gmap loc loc) (h1 : heap),
              extends h0 h1 → boards h1 = boards hc → rows h0 !! r' = None →
              (∀ a a', memo' !! a = Some a' → rows h0 !! a' = None) →
              (ys ← deref_board y; write_board y (ys ++ [r']);;
               deepcopy_items its y memo') h1 = (h', res) →
              extends h0 h' ∧
              (∀ u, res = Ok u →
                 ∃ new, boards h' !! y = Some new ∧
                        Forall (fun r => rows h0 !! r = None) new)).
    { intros r' memo' h1 [Hb1 Hr1] Eb Hr' Hmemo' Hrun'.
      rewrite run_bind, (deref_board_Some h1 y copied) in Hrun' by (by rewrite Eb).
      rewrite run_bind in Hrun'. unfold write_board at 1, modify at 1 in Hrun'.
      eapply (IH h0 _ memo' y (copied ++ [r'])); [| | | | |exact Hrun'].
      - split; cbn; [|done]. by apply insert_subseteq_r.
      - done.
      - cbn. by rewrite lookup_insert_eq.
      - apply Forall_app. split; [done|]. by constructor.
      - done. }
    destruct (memo !! r) as [r'|] eqn:Em.
    + rewrite run_ret in Hrun. eapply (Hstep r' memo hc); eauto.
    + rewrite run_bind in Hrun. unfold deref_row at 1 in Hrun.
      destruct (rows hc !! r) as [cs|] eqn:Er.
      2: { injection Hrun as <- <-. split; [done|]. intros u [=]. }
      rewrite run_bind in Hrun. unfold new_row_obj at 1 in Hrun.
      rewrite run_ret in Hrun.
      set (r' := fresh (dom (rows hc))) in *.
      assert (Hr' : rows hc !! r' = None) by apply fresh_row_None.
      destruct Hx as [Hbx Hrx].
      assert (Hr0 : rows h0 !! r' = None) by (by eapply lookup_weaken_None).
      eapply (Hstep r' (<[r := r']> memo) _); [| | | |exact Hrun].
      * split; cbn; [done|]. etrans; [exact Hrx|]. by apply insert_subseteq.
      * done.
      * done.
      * intros a a'. rewrite lookup_insert. case_decide; [by intros [= <-]|].
        apply Hmemo.
Qed.


Lemma deepcopy_extends (h h' : heap) (b : loc) (res : exc loc) :
  deepcopy b h = (h', res) →
  extends h h' ∧
  (∀ y, res = Ok y →
        ∃ new, boards h' !! y = Some new ∧ Forall (fun r => rows h !! r = None) new).
Proof.
  unfold deepcopy. rewrite run_bind. unfold deref_board at 1.
  destruct (boards h !! b) as [items|].
  2: { intros [= <- <-]. split; [apply extends_refl|]. intros y [=]. }
  rewrite run_bind. unfold new_board_obj at 1.
  set (y := fresh (dom (boards h))).
  assert (Hy : boards h !! y = None) by apply fresh_board_None.
  rewrite run_bind.
  destruct (deepcopy_items items y ∅ _) as [h1 res1] eqn:E.
  apply (deepcopy_items_extends items h _ ∅ y []) in E as [Hx Hnew].
  - destruct res1 as [u|ex]; intros [= <- <-].
    + split; [done|]. intros ? [= <-]. by apply (Hnew u).
    + split; [done|]. intros ? [=].
  - split; cbn; [by apply insert_subseteq|done].
  - done.
  - cbn. by rewrite lookup_insert_eq.
  - constructor.
  - intros r r'. by rewrite lookup_empty.
Qed.

Lemma load2_heap (h h' : heap) (b : loc) (i j : Z) (res : exc string) :
  load2 b i j h = (h', res) → h' = h.
Proof.
  unfold load2. rewrite run_bind. unfold deref_board at 1.
  destruct (boards h !! b) as [rs|]; [|by intros [= <- _]].
  rewrite run_bind. unfold lift at 1.
  destruct (getitem rs i) as [r|ex]; [|by intros [= <- _]].
  rewrite run_bind. unfold deref_row at 1.
  destruct (rows h !! r) as [cs|]; [|by intros [= <- _]].
  unfold lift. by intros [= <- _].
Qed.

Lemma getitem_elem_of {A} (l : list A) (i : Z) (x : A) : getitem l i = Ok x → x ∈ l.
Proof.
  unfold getitem. destruct (norm_index (length l) i) as [k|ex]; [|done].
  cbn. destruct (l !! k) as [y|] eqn:E; [|done].
  intros [= <-]. by eapply list_elem_of_lookup_2.
Qed.

(** A store into a board whose rows did not exist in [h0] leaves the
    objects of [h0] alone, whether it succeeds or raises. *)
Lemma store2_extends (h0 h h' : heap) (b : loc) (rs : list loc) (i j : Z)
    (v : string) (res : exc unit) :
  extends h0 h → boards h !! b = Some rs →
  Forall (fun r => rows h0 !! r = None) rs →
  store2 b i j v h = (h', res) →
  extends h0 h' ∧ boards h' = boards h.
Proof.
  intros Hx Hb Hfresh. unfold store2.
  rewrite run_bind, (deref_board_Some _ _ _ Hb).
  rewrite run_bind. unfold lift at 1.
  destruct (getitem rs i) as [r|ex] eqn:Eg; [|by intros [= <- _]].
  rewrite run_bind. unfold deref_row at 1.
  destruct (rows h !! r) as [cs|]; [|by intros [= <- _]].
  rewrite run_bind. unfold lift at 1.
  destruct (setitem cs j v) as [cs'|ex]; [|by intros [= <- _]].
  unfold write_row, modify. intros [= <- _]. cbn. split; [|done].
  destruct Hx as [Hbx Hrx]. split; cbn; [done|].
  apply insert_subseteq_r; [|done].
  rewrite Forall_forall in Hfresh. apply Hfresh. by eapply getitem_elem_of.
Qed.

(** X6.  [apply_move] never mutates: whatever board reference and
    subscripts it is given, and whether it returns or raises, every list
    object that existed before the call holds afterwards what it held
    before. *)
Theorem apply_move_never_mutates (h : heap) (b : loc) (from_pos to_pos : pos) :
  extends h (apply_move b from_pos to_pos h).1 ∧
  ∀ b0 g, contents h b0 = Some g →
          contents (apply_move b from_pos to_pos h).1 b0 = Some g.
Proof.
  assert (Hx : extends h (apply_move b from_pos to_pos h).1).
  { unfold apply_move. rewrite run_bind.
    destruct (deepcopy b h) as [h1 [y|ex]] eqn:E1;
      apply deepcopy_extends in E1 as [Hx1 Hnew]; [|done].
    destruct (Hnew y eq_refl) as (new & Hy & Hfresh).
    destruct from_pos as [fr fc], to_pos as [tr tc].
    rewrite run_bind.
    destruct (load2 y fr fc h1) as [h2 [piece|ex]] eqn:E2;
      apply load2_heap in E2 as ->; [|done].
    rewrite run_bind.
    destruct (store2 y tr tc piece h1) as [h3 [[]|ex]] eqn:E3;
      apply (store2_extends h h1 h3 y new) in E3 as [Hx3 Hb3]; try done.
    rewrite run_bind.
    destruct (store2 y fr fc "." h3) as [h4 [[]|ex]] eqn:E4;
      apply (store2_extends h h3 h4 y new) in E4 as [Hx4 Hb4];
      try done; try (by rewrite Hb3).
    assert (Hy4 : boards h4 !! y = Some new) by (by rewrite Hb4, Hb3).
    rewrite run_bind.
    assert (Hq : ∀ (c : bool) (v : string) (hq hq' : heap) (res : exc unit),
              extends h hq → boards hq !! y = Some new →
              (if c then store2 y tr tc v else mret tt) hq = (hq', res) →
              extends h hq' ∧ boards hq' !! y = Some new).
    { intros [] v hq hq' res Hxq Hyq Hrun.
      - apply (store2_extends h hq hq' y new) in Hrun as [? Hbq]; try done.
        by rewrite Hbq.
      - by injection Hrun as <- _. }
    destruct ((if bool_decide (piece = "P") && bool_decide (tr = 0)
               then store2 y tr tc "Q" else mret tt) h4) as [h5 [[]|ex]] eqn:E5;
      apply Hq in E5 as [Hx5 Hy5]; try done.
    rewrite run_bind.
    destruct ((if bool_decide (piece = "p") && bool_decide (tr = 7)
               then store2 y tr tc "q" else mret tt) h5) as [h6 [[]|ex]] eqn:E6;
      apply Hq in E6 as [Hx6 Hy6]; try done. }
  split; [done|]. intros b0 g Hc. by eapply contents_extends.
Qed.

Lemma apply_move_never_mutates_witness :
  contents (apply_move INITIAL_BOARD_ref (8, 0) (0, 0) module_heap).1 INITIAL_BOARD_ref
  = Some INITIAL_BOARD.
Proof.
  exact (proj2 (apply_move_never_mutates module_heap INITIAL_BOARD_ref (8, 0) (0, 0))
           INITIAL_BOARD_ref INITIAL_BOARD (proj1 module_heap_board)).
Defined.


(** ** Subscripts of [apply_move] *)

Lemma norm_index_wrap (i : Z) :
  -8 <= i < 8 → norm_index 8 i = Ok (Z.to_nat (i `mod` 8)).
Proof.
  intros H. unfold norm_index.
  destruct (Z.ltb_spec i 0).
  - replace (i `mod` 8) with (i + 8) by (apply Z.mod_unique with (-1); lia).
    destruct (Z.leb_spec 0 (i + Z.of_nat 8)); [|lia].
    destruct (Z.ltb_spec (i + Z.of_nat 8) (Z.of_nat 8)); [done|lia].
  - rewrite Z.mod_small by lia.
    destruct (Z.leb_spec 0 i); [|lia].
    destruct (Z.ltb_spec i (Z.of_nat 8)); [done|lia].
Qed.

Lemma norm_index_outside (i : Z) :
  ¬ (-8 <= i < 8) → norm_index 8 i = Raise IndexError.
Proof.
  intros H. unfold norm_index.
  destruct (Z.ltb_spec i 0).
  - destruct (Z.leb_spec 0 (i + Z.of_nat 8)); [lia|done].
  - destruct (Z.leb_spec 0 i); [|lia].
    destruct (Z.ltb_spec i (Z.of_nat 8)); [lia|done].
Qed.

Lemma getitem_wrap {A} (l : list A) (i : Z) (x : A) :
  length l = 8%nat → -8 <= i < 8 → l !! Z.to_nat (i `mod` 8) = Some x →
  getitem l i = Ok x.
Proof.
  intros Hl Hi Hx. unfold getitem. rewrite Hl, norm_index_wrap by done.
  cbn. by rewrite Hx.
Qed.

Lemma getitem_outside {A} (l : list A) (i : Z) :
  length l = 8%nat → ¬ (-8 <= i < 8) → getitem l i = Raise IndexError.
Proof. intros Hl Hi. unfold getitem. by rewrite Hl, norm_index_outside. Qed.

Lemma wrap_on_board (p : pos) : in_range p → on_board (wrap p).
Proof.
  intros _. unfold on_board, wrap. cbn.
  pose proof (Z.mod_pos_bound p.1 8). pose proof (Z.mod_pos_bound p.2 8). lia.
Qed.

Lemma wrap_id (p : pos) : on_board p → wrap p = p.
Proof.
  intros [Hr Hc]. destruct p as [r c]. unfold wrap. cbn in *.
  by rewrite !Z.mod_small by lia.
Qed.

Lemma on_board_in_range (p : pos) : on_board p → in_range p.
Proof. unfold on_board, in_range. lia. Qed.

Lemma load2_wrap (h : heap) (b : loc) (rs : list loc) (g : grid) (p : pos) :
  board_view h b rs g → eight_by_eight g → in_range p →
  load2 b p.1 p.2 h = (h, Ok (cell g (wrap p))).
Proof.
  intros Hv Hs Hp. pose proof (wrap_on_board p Hp) as Hw.
  destruct (view_lookup h b rs g (wrap p) Hv Hs Hw)
    as (r & cs & Hr & Hcs & Hrow & Hl & Hlen).
  destruct (square_lookup g (wrap p) Hs Hw) as (cs' & Hcs' & _ & Hx).
  assert (cs' = cs) as -> by congruence.
  destruct Hv as (Hb & _). destruct Hp as [Hi Hj]. cbn [wrap fst snd] in *.
  unfold load2. rewrite run_bind, (deref_board_Some _ _ _ Hb).
  rewrite run_bind. unfold lift at 1.
  rewrite (getitem_wrap rs p.1 r) by done.
  rewrite run_bind, (deref_row_Some _ _ _ Hrow).
  unfold lift. by rewrite (getitem_wrap cs p.2 _ Hl Hj Hx).
Qed.

Lemma load2_outside (h : heap) (b : loc) (rs : list loc) (g : grid) (p : pos) :
  board_view h b rs g → eight_by_eight g → ¬ in_range p →
  load2 b p.1 p.2 h = (h, Raise IndexError).
Proof.
  intros Hv Hs Hp.
  pose proof Hv as (Hb & _ & Hall).
  assert (Hlen : length rs = 8%nat).
  { rewrite (Forall2_length _ _ _ Hall). by destruct Hs. }
  unfold load2. rewrite run_bind, (deref_board_Some _ _ _ Hb).
  rewrite run_bind. unfold lift at 1.
  destruct (decide (-8 <= p.1 < 8)) as [Hi|Hi].
  2: { by rewrite getitem_outside. }
  assert (Hw : on_board (p.1 `mod` 8, 0)).
  { unfold on_board. cbn. pose proof (Z.mod_pos_bound p.1 8). lia. }
  destruct (view_lookup h b rs g _ Hv Hs Hw) as (r & cs & Hr & _ & Hrow & Hl & _).
  cbn [fst] in Hr. rewrite (getitem_wrap rs p.1 r) by done.
  rewrite run_bind, (deref_row_Some _ _ _ Hrow). unfold lift.
  rewrite getitem_outside; [done|done|]. unfold in_range in Hp. tauto.
Qed.

Lemma store2_wrap (h0 h : heap) (b : loc) (rs : list loc) (g : grid) (p : pos)
    (v : string) :
  board_view h b rs g → eight_by_eight g → in_range p →
  extends h0 h → (∀ r, r ∈ rs → rows h0 !! r = None) →
  ∃ h', store2 b p.1 p.2 v h = (h', Ok tt) ∧
        board_view h' b rs (set_cell g (wrap p) v) ∧
        eight_by_eight (set_cell g (wrap p) v) ∧
        extends h0 h'.
Proof.
  intros Hv Hs Hp Hx Hfresh. pose proof (wrap_on_board p Hp) as Hw.
  destruct (store2_step h0 h b rs g (wrap p) v Hv Hs Hw Hx Hfresh)
    as (h' & E & Hv' & Hs' & Hx').
  exists h'. split; [|done]. rewrite <- E. clear E.
  destruct (view_lookup h b rs g (wrap p) Hv Hs Hw)
    as (r & cs & Hr & Hcs & Hrow & Hl & Hlen).
  destruct Hv as (Hb & _). destruct Hp as [Hi Hj]. cbn [wrap fst snd] in *.
  assert (Hwi : 0 <= p.1 `mod` 8 < 8) by apply Hw.
  assert (Hwj : 0 <= p.2 `mod` 8 < 8) by apply Hw.
  unfold store2. rewrite !run_bind, (deref_board_Some _ _ _ Hb).
  rewrite !run_bind. unfold lift at 1 3.
  rewrite (getitem_wrap rs p.1 r) by done.
  rewrite (getitem_lookup rs (p.1 `mod` 8) r) by (lia || done).
  rewrite !run_bind, (deref_row_Some _ _ _ Hrow).
  rewrite !run_bind. unfold lift, setitem. rewrite Hl.
  rewrite norm_index_wrap by done.
  rewrite (norm_index_in_range 8 (p.2 `mod` 8)) by lia.
  cbn [mbind exc_bind]. done.
Qed.

Lemma store2_outside (h : heap) (b : loc) (rs : list loc) (g : grid) (p : pos)
    (v : string) :
  board_view h b rs g → eight_by_eight g → ¬ in_range p →
  store2 b p.1 p.2 v h = (h, Raise IndexError).
Proof.
  intros Hv Hs Hp.
  pose proof Hv as (Hb & _ & Hall).
  assert (Hlen : length rs = 8%nat).
  { rewrite (Forall2_length _ _ _ Hall). by destruct Hs. }
  unfold store2. rewrite run_bind, (deref_board_Some _ _ _ Hb).
  rewrite run_bind. unfold lift at 1.
  destruct (decide (-8 <= p.1 < 8)) as [Hi|Hi].
  2: { by rewrite getitem_outside. }
  assert (Hw : on_board (p.1 `mod` 8, 0)).
  { unfold on_board. cbn. pose proof (Z.mod_pos_bound p.1 8). lia. }
  destruct (view_lookup h b rs g _ Hv Hs Hw) as (r & cs & Hr & _ & Hrow & Hl & _).
  cbn [fst] in Hr. rewrite (getitem_wrap rs p.1 r) by done.
  rewrite run_bind, (deref_row_Some _ _ _ Hrow).
  rewrite run_bind. unfold lift, setitem. rewrite Hl.
  rewrite norm_index_outside; [done|]. unfold in_range in Hp. tauto.
Qed.


Lemma apply_move_wrapped_run (h : heap) (b : loc) (rs : list loc) (g : grid)
    (src dst : pos) :
  board_view h b rs g → eight_by_eight g → in_range src → in_range dst →
  ∃ h' b' rs', apply_move b src dst h = (h', Ok b') ∧
               board_view h' b' rs' (moved_wrapped g src dst).
Proof.
  intros Hv Hs Hsrc Hdst.
  destruct (deepcopy_spec h b rs g Hv) as (h1 & b' & rs' & E1 & Hx1 & Hnew & Hv1 & Hfresh).
  pose proof (load2_wrap h1 b' rs' g src Hv1 Hs Hsrc) as E2.
  destruct (store2_wrap h h1 b' rs' g dst (cell g (wrap src)) Hv1 Hs Hdst Hx1 Hfresh)
    as (h2 & E3 & Hv2 & Hs2 & Hx2).
  destruct (store2_wrap h h2 b' rs' _ src "." Hv2 Hs2 Hsrc Hx2 Hfresh)
    as (h3 & E4 & Hv3 & Hs3 & Hx3).
  unfold apply_move, moved_wrapped.
  destruct src as [fr fc], dst as [tr tc]. cbn [fst snd] in *.
  rewrite run_bind, E1, run_bind, E2, run_bind, E3, run_bind, E4.
  destruct (bool_decide (cell g (wrap (fr, fc)) = "P") && bool_decide (tr = 0)) eqn:EP.
  - destruct (store2_wrap h h3 b' rs' _ (tr, tc) "Q" Hv3 Hs3 Hdst Hx3 Hfresh)
      as (h4 & E5 & Hv4 & Hs4 & Hx4). cbn [fst snd] in E5.
    rewrite run_bind, E5.
    destruct (bool_decide (cell g (wrap (fr, fc)) = "p") && bool_decide (tr = 7)) eqn:Ep.
    + destruct (store2_wrap h h4 b' rs' _ (tr, tc) "q" Hv4 Hs4 Hdst Hx4 Hfresh)
        as (h5 & E6 & Hv5 & Hs5 & Hx5). cbn [fst snd] in E6.
      rewrite run_bind, E6, run_ret. by exists h5, b', rs'.
    + rewrite run_bind, !run_ret. by exists h4, b', rs'.
  - rewrite run_bind, run_ret.
    destruct (bool_decide (cell g (wrap (fr, fc)) = "p") && bool_decide (tr = 7)) eqn:Ep.
    + destruct (store2_wrap h h3 b' rs' _ (tr, tc) "q" Hv3 Hs3 Hdst Hx3 Hfresh)
        as (h5 & E6 & Hv5 & Hs5 & Hx5). cbn [fst snd] in E6.
      rewrite run_bind, E6, run_ret. by exists h5, b', rs'.
    + rewrite run_bind, !run_ret. by exists h3, b', rs'.
Qed.

Lemma apply_move_outside (h : heap) (b : loc) (rs : list loc) (g : grid)
    (src dst : pos) :
  board_view h b rs g → eight_by_eight g → ¬ (in_range src ∧ in_range dst) →
  ∃ h', apply_move b src dst h = (h', Raise IndexError).
Proof.
  intros Hv Hs Hout.
  destruct (deepcopy_spec h b rs g Hv) as (h1 & b' & rs' & E1 & Hx1 & Hnew & Hv1 & Hfresh).
  unfold apply_move. rewrite run_bind, E1.
  destruct (decide (in_range src)) as [Hsrc|Hsrc].
  - assert (Hdst : ¬ in_range dst) by tauto.
    pose proof (load2_wrap h1 b' rs' g src Hv1 Hs Hsrc) as E2.
    pose proof (store2_outside h1 b' rs' g dst (cell g (wrap src)) Hv1 Hs Hdst) as E3.
    destruct src as [fr fc], dst as [tr tc]. cbn [fst snd] in *.
    rewrite run_bind, E2, run_bind, E3. by exists h1.
  - pose proof (load2_outside h1 b' rs' g src Hv1 Hs Hsrc) as E2.
    destruct src as [fr fc], dst as [tr tc]. cbn [fst snd] in *.
    rewrite run_bind, E2. by exists h1.
Qed.

Lemma moved_wrapped_on_board (g : grid) (src dst : pos) :
  on_board src → on_board dst → moved_wrapped g src dst = moved g src dst.
Proof. intros Hs Hd. unfold moved_wrapped, moved. by rewrite !wrap_id. Qed.

Lemma eight_by_eight_moved_wrapped (g : grid) (src dst : pos) :
  eight_by_eight g → eight_by_eight (moved_wrapped g src dst).
Proof.
  intros Hs. unfold moved_wrapped.
  repeat (destruct (_ && _)); repeat apply eight_by_eight_set_cell; done.
Qed.

Lemma moved_wrapped_destination (g : grid) (src dst : pos) :
  eight_by_eight g → in_range src → in_range dst →
  cell (moved_wrapped g src dst) (wrap dst)
  = if bool_decide (cell g (wrap src) = "P" ∧ dst.1 = 0) then "Q"
    else if bool_decide (cell g (wrap src) = "p" ∧ dst.1 = 7) then "q"
    else if bool_decide (wrap src = wrap dst) then "." else cell g (wrap src).
Proof.
  intros Hs Hsrc%wrap_on_board Hdst%wrap_on_board. unfold moved_wrapped.
  pose proof (eight_by_eight_set_cell g (wrap dst) (cell g (wrap src)) Hs) as Hs1.
  pose proof (eight_by_eight_set_cell _ (wrap src) "." Hs1) as Hs2.
  repeat case_bool_decide; destruct_and?; cbn [andb];
    rewrite ?cell_set_cell_eq by (try apply eight_by_eight_set_cell; done);
    try done; try tauto; try congruence.
  all: try (match goal with E : wrap _ = wrap _ |- _ => rewrite E end;
            by rewrite cell_set_cell_eq
              by (repeat apply eight_by_eight_set_cell; done)).
  all: rewrite cell_set_cell_ne by done; by rewrite cell_set_cell_eq.
Qed.

(** X7.  On an 8 x 8 board whose rows are distinct objects,
    [apply_move] returns exactly when the rows and columns of both squares
    are in [-8, 8), and raises IndexError otherwise.  Negative subscripts
    designate the squares counted from the end, but the promotion tests
    compare the row as it was passed: a pawn that arrives on its last row
    through a negative row is not promoted. *)
Theorem apply_move_subscripts (h : heap) (b : loc) (g : grid)
    (from_pos to_pos : pos) :
  contents h b = Some g → unshared h b → eight_by_eight g →
  (in_range from_pos → in_range to_pos →
   ∃ h' b' g',
     apply_move b from_pos to_pos h = (h', Ok b') ∧
     contents h' b' = Some g' ∧ eight_by_eight g' ∧
     cell g' (wrap to_pos)
     = (if bool_decide (cell g (wrap from_pos) = "P" ∧ to_pos.1 = 0) then "Q"
        else if bool_decide (cell g (wrap from_pos) = "p" ∧ to_pos.1 = 7) then "q"
        else if bool_decide (wrap from_pos = wrap to_pos) then "."
        else cell g (wrap from_pos))) ∧
  (¬ (in_range from_pos ∧ in_range to_pos) →
   ∃ h', apply_move b from_pos to_pos h = (h', Raise IndexError)).
Proof.
  intros Hc Hu Hs. destruct (view_of_contents h b g Hc Hu) as (rs & Hv). split.
  - intros Hsrc Hdst.
    destruct (apply_move_wrapped_run h b rs g from_pos to_pos Hv Hs Hsrc Hdst)
      as (h' & b' & rs' & E & Hv').
    exists h', b', (moved_wrapped g from_pos to_pos).
    split; [done|]. split; [by eapply contents_view|].
    split; [by apply eight_by_eight_moved_wrapped|].
    by apply moved_wrapped_destination.
  - by apply (apply_move_outside h b rs g).
Qed.

Lemma apply_move_subscripts_witness :
  (∃ h' b' g',
     apply_move INITIAL_BOARD_ref (1, 0) (-1, 0) module_heap = (h', Ok b') ∧
     contents h' b' = Some g' ∧ cell g' (7, 0) = "p") ∧
  (∃ h', apply_move INITIAL_BOARD_ref (1, 0) (8, 0) module_heap
         = (h', Raise IndexError)).
Proof.
  destruct (apply_move_subscripts module_heap INITIAL_BOARD_ref INITIAL_BOARD
              (1, 0) (-1, 0)) as [Hin _];
    [apply module_heap_board|apply module_heap_board|exact INITIAL_BOARD_shape|].
  destruct (apply_move_subscripts module_heap INITIAL_BOARD_ref INITIAL_BOARD
              (1, 0) (8, 0)) as [_ Hout];
    [apply module_heap_board|apply module_heap_board|exact INITIAL_BOARD_shape|].
  split.
  - destruct Hin as (h' & b' & g' & E & Hc & _ & Hcell);
      [unfold in_range; cbn; lia..|].
    exists h', b', g'. split; [exact E|]. split; [exact Hc|]. exact Hcell.
  - apply Hout. unfold in_range. cbn. lia.
Defined.


(** ** Accepted moves *)

Lemma getitem_Ok_in_range {A} (l : list A) (i : Z) (x : A) :
  length l = 8%nat → getitem l i = Ok x → -8 <= i < 8.
Proof.
  intros Hl Hx. destruct (decide (-8 <= i < 8)) as [|Hout]; [done|].
  by rewrite getitem_outside in Hx.
Qed.

Lemma is_valid_move_accepted_in_range (g : grid) (src dst : pos) (t msg : string) :
  eight_by_eight g → is_valid_move g src dst t = Ok (true, msg) →
  in_range src ∧ in_range dst.
Proof.
  intros [Hlen Hrows] Hv. rewrite Forall_forall in Hrows.
  unfold is_valid_move in Hv. destruct src as [fr fc], dst as [tr tc].
  destruct (getitem g fr) as [row|] eqn:E1; [|done]. cbn [mbind exc_bind] in Hv.
  destruct (getitem row fc) as [piece|] eqn:E2; [|done]. cbn [mbind exc_bind] in Hv.
  destruct (bool_decide (piece = ".")); [done|].
  destruct (bool_decide (t = "white") && islower piece); [done|].
  destruct (bool_decide (t = "black") && isupper piece); [done|].
  destruct (getitem g tr) as [trow|] eqn:E3; [|done]. cbn [mbind exc_bind] in Hv.
  destruct (getitem trow tc) as [target|] eqn:E4; [|done].
  pose proof (Hrows row (getitem_elem_of _ _ _ E1)) as Hl1.
  pose proof (Hrows trow (getitem_elem_of _ _ _ E3)) as Hl3.
  unfold in_range. cbn.
  eauto 10 using getitem_Ok_in_range.
Qed.

Lemma move_command_accepted (move_str player now : string)
    (state : game_state loc) (lb : gmap string Z) (h : heap) (fs : files)
    (o : list string) (g : grid) (src dst : pos) (msg : string) :
  parse_move move_str = Ok (Some (src, dst)) →
  contents h (board state) = Some g → unshared h (board state) →
  eight_by_eight g →
  is_valid_move g src dst (turn state) = Ok (true, msg) →
  ∃ h1 b',
    contents h1 b' = Some (moved_wrapped g src dst) ∧
    move_command move_str player now state lb (World h fs o)
    = match chess_data fs with
      | None => (World h1 fs o, Raise FileNotFoundError)
      | Some d =>
          (World h1
             (Files (Some (ChessData
                       (Some (GameState (moved_wrapped g src dst)
                                (flipped (turn state))
                                (moves state ++
                                   [MoveRecord (upper move_str) player now])
                                (game_num state)))
                       (Some (<[player := default 0 (lb !! player) + 1]> lb))))
                (README_md fs))
             (o ++ ["[+] Gerakan " +:+ move_str +:+ " oleh @" +:+ player
                    +:+ " berhasil!"]),
           Ok (GameState b' (flipped (turn state))
                 (moves state ++ [MoveRecord (upper move_str) player now])
                 (game_num state),
               <[player := default 0 (lb !! player) + 1]> lb))
      end.
Proof.
  intros Hp Hc Hu Hs Hv.
  destruct (is_valid_move_accepted_in_range g src dst _ _ Hs Hv) as [Hsrc Hdst].
  destruct (view_of_contents h _ g Hc Hu) as (rs & Hview).
  destruct (apply_move_wrapped_run h _ rs g src dst Hview Hs Hsrc Hdst)
    as (h1 & b' & rs' & E & Hview').
  pose proof (contents_view _ _ _ _ Hview') as Hc'.
  exists h1, b'. split; [done|].
  erewrite move_command_checked; [|exact Hp|exact Hc]. rewrite Hv.
  rewrite run_bind, run_with_heap, E. cbv zeta.
  rewrite run_bind. unfold save_leaderboard at 1.
  rewrite run_bind. unfold gets at 1. cbn [disk].
  destruct (chess_data fs) as [d|]; [|reflexivity].
  unfold set_disk at 1, modify at 1. cbn [mem disk stdout].
  rewrite run_bind. unfold save_game at 1. cbn [board].
  rewrite run_bind, (read_board_contents h1 _ _ b' _ Hc').
  rewrite run_bind. unfold gets at 1. cbn [disk chess_data README_md default].
  unfold set_disk at 1, modify at 1. cbn [mem disk stdout leaderboard_json].
  rewrite run_bind. unfold print at 1, modify at 1. rewrite run_ret.
  reflexivity.
Qed.

Lemma invoke_move_accepted render (e : environ) (fs : files)
    (src dst : pos) (msg : string) :
  command_of e = "move" → eight_by_eight (board (loaded_state fs)) →
  parse_move (move_str_of e) = Ok (Some (src, dst)) →
  is_valid_move (board (loaded_state fs)) src dst (turn (loaded_state fs))
  = Ok (true, msg) →
  match chess_data fs with
  | None => invoke render e fs = (fs, [], Raise FileNotFoundError)
  | Some d =>
      chess_data (files_after render e fs)
      = Some (ChessData (Some (snapshot_after_move e fs src dst))
                (Some (leaderboard_after_move e fs))) ∧
      ∃ rest, (invoke render e fs).1.2 = success_line e :: rest
  end.
Proof.
  intros Hcmd Hs Hp Hv.
  destruct (main_move render e fs Hcmd) as (h & b & Hc & Hu & E).
  destruct (move_command_accepted (move_str_of e) (player_of e) (utcnow_isoformat e)
              (GameState b (turn (loaded_state fs)) (moves (loaded_state fs))
                 (game_num (loaded_state fs)))
              (loaded_leaderboard fs) h fs [] _ src dst msg Hp Hc Hu Hs Hv)
    as (h1 & b' & _ & Em).
  rewrite Em in E. clear Em. unfold files_after, invoke. rewrite E.
  destruct (chess_data fs) as [d|] eqn:Ed; [|reflexivity].
  destruct (render_and_update render _ _ _) as [w2 r] eqn:Er.
  pose proof (render_and_update_data _ _ _ _ _ _ Er) as Hd.
  cbn [fst snd disk]. split; [by rewrite Hd|].
  clear Hd. revert Er. unfold render_and_update.
  rewrite run_bind, run_with_heap. unfold read_board at 1.
  destruct (contents h1 _) as [g'|]; [|intros [= <- _]; by eexists].
  rewrite run_bind. unfold lift at 1.
  destruct (get_legal_moves g' _) as [legal|ex]; [|intros [= <- _]; by eexists].
  rewrite run_bind. unfold lift at 1. cbn [game_num].
  destruct (game_num (loaded_state fs)) as [n|]; [|intros [= <- _]; by eexists].
  rewrite run_bind. unfold update_readme at 1. rewrite run_bind.
  unfold gets at 1. cbn [disk README_md].
  destruct (README_md fs) as [content|]; [|intros [= <- _]; by eexists].
  rewrite run_bind. unfold lift at 1.
  destruct (render _ _ _ _ _ _ _) as [content'|ex]; intros [= <- _]; by eexists.
Qed.


Lemma main_other render (e : environ) (fs : files) :
  command_of e ≠ "new" → command_of e ≠ "move" →
  ∃ h b, main render e (World module_heap fs [])
         = render_and_update render
             (GameState b (turn (loaded_state fs)) (moves (loaded_state fs))
                (game_num (loaded_state fs)))
             (loaded_leaderboard fs) (World h fs []).
Proof.
  intros Hnew Hmove. destruct (load_game_run fs []) as (h & b & E & _).
  exists h, b. unfold main. cbv zeta. unfold command_of in Hnew, Hmove.
  rewrite run_bind, E, run_bind, load_leaderboard_run. cbn [disk].
  rewrite !bool_decide_false by done. by rewrite run_bind, run_ret.
Qed.

(** What an invocation can do to [chess_data/] when the board it loads
    has the right shape: nothing, the snapshot of a new game, or the
    snapshot and the leaderboard of an accepted move. *)
Lemma files_after_cases render (e : environ) (fs : files) :
  eight_by_eight (board (loaded_state fs)) →
  chess_data (files_after render e fs) = chess_data fs
  ∨ (command_of e = "new" ∧
     chess_data (files_after render e fs)
     = Some (ChessData
               (Some (GameState INITIAL_BOARD "black" []
                        (Some (default 1 (game_num (loaded_state fs)) + 1))))
               (chess_data fs ≫= leaderboard_json)))
  ∨ (command_of e = "move" ∧
     ∃ src dst msg,
       parse_move (move_str_of e) = Ok (Some (src, dst)) ∧
       is_valid_move (board (loaded_state fs)) src dst (turn (loaded_state fs))
       = Ok (true, msg) ∧
       chess_data (files_after render e fs)
       = Some (ChessData (Some (snapshot_after_move e fs src dst))
                 (Some (leaderboard_after_move e fs)))).
Proof.
  intros Hs.
  destruct (decide (command_of e = "new")) as [Hnew|Hnew].
  { right. left. split; [done|].
    destruct (main_new render e fs Hnew) as (h & b & Hc & E).
    destruct (new_command_run
                (GameState b (turn (loaded_state fs)) (moves (loaded_state fs))
                   (game_num (loaded_state fs)))
                (loaded_leaderboard fs) h fs [] Hc) as (w1 & state' & En & Hd).
    rewrite En in E.
    destruct (render_and_update render state' (loaded_leaderboard fs) w1)
      as [w2 r] eqn:Er.
    apply render_and_update_data in Er.
    unfold files_after, invoke. rewrite E. cbn [fst disk]. by rewrite Er, Hd. }
  destruct (decide (command_of e = "move")) as [Hmove|Hmove].
  - destruct (parse_move_total (move_str_of e)) as ([[src dst]|] & Hp).
    + destruct (is_valid_move (board (loaded_state fs)) src dst
                  (turn (loaded_state fs))) as [[[] msg]|ex] eqn:Hv.
      * pose proof (invoke_move_accepted render e fs src dst msg Hmove Hs Hp Hv) as H.
        destruct (chess_data fs) as [d|] eqn:Ed.
        -- right. right. split; [done|]. exists src, dst, msg. by destruct H.
        -- left. unfold files_after. by rewrite H.
      * left. unfold files_after.
        by rewrite (invoke_move_refused render e fs src dst msg).
      * left. unfold files_after.
        by rewrite (invoke_move_raises render e fs src dst ex).
    + left. unfold files_after. by rewrite invoke_move_unparsed.
  - left. destruct (main_other render e fs Hnew Hmove) as (h & b & E).
    destruct (render_and_update render _ _ _) as [w2 r] eqn:Er.
    apply render_and_update_data in Er.
    unfold files_after, invoke. by rewrite E.
Qed.

Lemma well_formed_set_cell (g : grid) (p : pos) (v : string) :
  well_formed g → is_token v → well_formed (set_cell g p v).
Proof.
  intros [Hlen Hrows] Hv. unfold set_cell. split; [by rewrite length_alter|].
  apply (Forall_alter (fun row : list string =>
                         length row = 8%nat ∧ Forall is_token row)); [done|].
  intros row _ [Hl Htok]. split; [by rewrite length_insert|].
  by apply Forall_insert.
Qed.

Lemma well_formed_moved_wrapped (g : grid) (src dst : pos) :
  well_formed g → well_formed (moved_wrapped g src dst).
Proof.
  intros Hwf. unfold moved_wrapped.
  assert (Hp : is_token (cell g (wrap src))).
  { apply cell_is_token; [done|]. unfold on_board, wrap. cbn.
    pose proof (Z.mod_pos_bound src.1 8). pose proof (Z.mod_pos_bound src.2 8).
    lia. }
  assert (HQ : is_token "Q") by (by apply (bool_decide_unpack _)).
  assert (Hq : is_token "q") by (by apply (bool_decide_unpack _)).
  assert (Hd : is_token ".") by (by apply (bool_decide_unpack _)).
  repeat (destruct (_ && _)); repeat apply well_formed_set_cell; done.
Qed.


(** X8.  A move that parses and that the legality check accepts is
    applied, provided [chess_data/] exists: the invocation writes the
    snapshot whose board is the loaded board after the move, whose turn is
    flipped, whose log has one more entry (the token in upper case, the
    player, the time) and whose game number is unchanged; it writes the
    leaderboard with the player's count raised by one; and the first line
    it prints reports the move.  For squares of the board the new board is
    [moved]. *)
Theorem accepted_move_is_applied render (e : environ) (fs : files)
    (d : chess_data_dir) (from_pos to_pos : pos) (msg : string) :
  command_of e = "move" → eight_by_eight (board (loaded_state fs)) →
  chess_data fs = Some d →
  parse_move (move_str_of e) = Ok (Some (from_pos, to_pos)) →
  is_valid_move (board (loaded_state fs)) from_pos to_pos (turn (loaded_state fs))
  = Ok (true, msg) →
  chess_data (files_after render e fs)
  = Some (ChessData (Some (snapshot_after_move e fs from_pos to_pos))
            (Some (leaderboard_after_move e fs))) ∧
  (∃ rest, (invoke render e fs).1.2 = success_line e :: rest) ∧
  (on_board from_pos → on_board to_pos →
   board (snapshot_after_move e fs from_pos to_pos)
   = moved (board (loaded_state fs)) from_pos to_pos).
Proof.
  intros Hcmd Hs Hd Hp Hv.
  pose proof (invoke_move_accepted render e fs from_pos to_pos msg Hcmd Hs Hp Hv) as H.
  rewrite Hd in H. destruct H as [H1 H2].
  split; [done|]. split; [done|].
  intros Hsrc Hdst. by apply moved_wrapped_on_board.
Qed.

Lemma accepted_move_is_applied_witness :
  let fs' := files_after keep_readme (move_by "e7e5" "alice") fresh_checkout in
  chess_data fs'
  = Some (ChessData
            (Some (snapshot_after_move (move_by "e7e5" "alice") fresh_checkout
                     (1, 4) (3, 4)))
            (Some (leaderboard_after_move (move_by "e7e5" "alice") fresh_checkout))) ∧
  cell (board (loaded_state fs')) (1, 4) = "." ∧
  cell (board (loaded_state fs')) (3, 4) = "p" ∧
  turn (loaded_state fs') = "white" ∧
  loaded_leaderboard fs' !! "alice" = Some 1.
Proof.
  destruct (accepted_move_is_applied keep_readme (move_by "e7e5" "alice")
              fresh_checkout (ChessData None None) (1, 4) (3, 4) "OK")
    as (H & _ & _); [reflexivity|exact INITIAL_BOARD_shape|reflexivity..|].
  cbv zeta. split; [exact H|].
  unfold loaded_state, loaded_leaderboard. rewrite H.
  repeat split; vm_compute; reflexivity.
Defined.

(** X9.  Without the directory [chess_data/] no move can be recorded:
    every invocation of the move command ends with an exception and leaves
    the files as they were, and a move that parses and is accepted ends
    with FileNotFoundError, raised when the leaderboard is saved, before
    anything is printed. *)
Theorem move_without_data_directory render (e : environ) (fs : files) :
  chess_data fs = None → command_of e = "move" →
  (∃ out ex, invoke render e fs = (fs, out, Raise ex)) ∧
  (∀ from_pos to_pos msg,
     parse_move (move_str_of e) = Ok (Some (from_pos, to_pos)) →
     is_valid_move INITIAL_BOARD from_pos to_pos "black" = Ok (true, msg) →
     invoke render e fs = (fs, [], Raise FileNotFoundError)).
Proof.
  intros Hd Hcmd.
  assert (Hls : loaded_state fs = GameState INITIAL_BOARD "black" [] (Some 1)).
  { unfold loaded_state. by rewrite Hd. }
  assert (Hacc : ∀ src dst msg,
            parse_move (move_str_of e) = Ok (Some (src, dst)) →
            is_valid_move INITIAL_BOARD src dst "black" = Ok (true, msg) →
            invoke render e fs = (fs, [], Raise FileNotFoundError)).
  { intros src dst msg Hp Hv.
    pose proof (invoke_move_accepted render e fs src dst msg Hcmd) as H.
    rewrite Hls, Hd in H. apply H; [exact INITIAL_BOARD_shape|done|done]. }
  split; [|exact Hacc].
  destruct (parse_move_total (move_str_of e)) as ([[src dst]|] & Hp).
  - destruct (is_valid_move INITIAL_BOARD src dst "black") as [[[] msg]|ex] eqn:Hv.
    + eexists _, _. by eapply Hacc.
    + eexists _, _. apply (invoke_move_refused render e fs src dst msg); try done.
      by rewrite Hls.
    + eexists _, _. apply (invoke_move_raises render e fs src dst ex); try done.
      by rewrite Hls.
  - eexists _, _. by apply invoke_move_unparsed.
Qed.

Lemma move_without_data_directory_witness :
  invoke keep_readme (move_by "e7e5" "alice") bare_checkout
  = (bare_checkout, [], Raise FileNotFoundError).
Proof.
  destruct (move_without_data_directory keep_readme (move_by "e7e5" "alice")
              bare_checkout eq_refl eq_refl) as [_ H].
  exact (H (1, 4) (3, 4) "OK" eq_refl eq_refl).
Defined.

(** X10.  A command other than "new" and "move" changes neither the
    snapshot nor the leaderboard: [main] only renders the README. *)
Theorem other_command_changes_no_data render (e : environ) (fs : files) :
  command_of e ≠ "new" → command_of e ≠ "move" →
  chess_data (files_after render e fs) = chess_data fs.
Proof.
  intros Hnew Hmove. destruct (main_other render e fs Hnew Hmove) as (h & b & E).
  destruct (render_and_update render _ _ _) as [w2 r] eqn:Er.
  apply render_and_update_data in Er.
  unfold files_after, invoke. by rewrite E.
Qed.

Lemma other_command_changes_no_data_witness :
  chess_data (files_after keep_readme (help_by "alice") fresh_checkout)
  = chess_data fresh_checkout.
Proof.
  apply (other_command_changes_no_data keep_readme (help_by "alice") fresh_checkout);
    discriminate.
Defined.


(** ** Histories *)

Lemma files_after_new render (e : environ) (fs : files) :
  command_of e = "new" →
  chess_data (files_after render e fs)
  = Some (ChessData
            (Some (GameState INITIAL_BOARD "black" []
                     (Some (default 1 (game_num (loaded_state fs)) + 1))))
            (chess_data fs ≫= leaderboard_json)).
Proof.
  intros Hnew.
  destruct (main_new render e fs Hnew) as (h & b & Hc & E).
  destruct (new_command_run
              (GameState b (turn (loaded_state fs)) (moves (loaded_state fs))
                 (game_num (loaded_state fs)))
              (loaded_leaderboard fs) h fs [] Hc) as (w1 & state' & En & Hd).
  rewrite En in E.
  destruct (render_and_update render state' (loaded_leaderboard fs) w1)
    as [w2 r] eqn:Er.
  apply render_and_update_data in Er.
  unfold files_after, invoke. rewrite E. cbn [fst disk]. by rewrite Er, Hd.
Qed.

Lemma fresh_is_good (fs : files) : chess_data fs ≫= game_json = None → good fs.
Proof.
  intros H. unfold good, loaded_state. rewrite H. cbn.
  split; [exact INITIAL_BOARD_well_formed|]. split; by eexists.
Qed.

Lemma side_of_flipped (t : string) : is_Some (side_of (flipped t)).
Proof. unfold flipped. case_bool_decide; by eexists. Qed.

Lemma step_good render (e : environ) (fs : files) :
  good fs → good (files_after render e fs).
Proof.
  intros (Hwf & Ht & Hn).
  destruct (files_after_cases render e fs (well_formed_shape _ Hwf))
    as [E|[[_ E]|(_ & src & dst & msg & _ & _ & E)]];
    unfold good, loaded_state in *; rewrite E; cbn.
  - done.
  - split; [exact INITIAL_BOARD_well_formed|]. split; by eexists.
  - split; [by apply well_formed_moved_wrapped|].
    split; [apply side_of_flipped|done].
Qed.

Lemma step_game_num render (e : environ) (fs : files) :
  good fs →
  game_num (loaded_state (files_after render e fs))
  = if bool_decide (command_of e = "new")
    then Some (default 1 (game_num (loaded_state fs)) + 1)
    else game_num (loaded_state fs).
Proof.
  intros (Hwf & _ & _). case_bool_decide as Hnew.
  - unfold loaded_state at 1. by rewrite files_after_new.
  - destruct (files_after_cases render e fs (well_formed_shape _ Hwf))
      as [E|[[? _]|(_ & src & dst & msg & _ & _ & E)]]; [|done|];
      unfold loaded_state in *; by rewrite E.
Qed.

Lemma step_leaderboard render (e : environ) (fs : files) (actor : string) :
  good fs →
  count_of (loaded_leaderboard fs) actor
  <= count_of (loaded_leaderboard (files_after render e fs)) actor ∧
  (is_Some (loaded_leaderboard fs !! actor) →
   is_Some (loaded_leaderboard (files_after render e fs) !! actor)).
Proof.
  intros (Hwf & _ & _).
  destruct (files_after_cases render e fs (well_formed_shape _ Hwf))
    as [E|[[_ E]|(_ & src & dst & msg & _ & _ & E)]];
    unfold loaded_leaderboard at 2 4; rewrite E; cbn.
  - done.
  - done.
  - unfold leaderboard_after_move. rewrite count_of_insert. split.
    + case_bool_decide; subst; lia.
    + intros Hsome. destruct (decide (player_of e = actor)) as [->|Hne].
      * rewrite lookup_insert_eq. by eexists.
      * by rewrite lookup_insert_ne.
Qed.

Lemma new_commands_snoc (es : list environ) (e : environ) :
  new_commands (es ++ [e])
  = (new_commands es + if bool_decide (command_of e = "new") then 1 else 0)%nat.
Proof.
  unfold new_commands. rewrite filter_app, length_app, filter_cons, filter_nil.
  case_decide; case_bool_decide; done.
Qed.

Lemma run_all_snoc render (es : list environ) (e : environ) (fs : files) :
  run_all render (es ++ [e]) fs = files_after render e (run_all render es fs).
Proof. unfold run_all. by rewrite foldl_app. Qed.

Lemma run_all_good render (es : list environ) (fs : files) :
  good fs → good (run_all render es fs).
Proof.
  revert fs. induction es as [|e es IH] using rev_ind; intros fs Hgood; [done|].
  rewrite run_all_snoc. by apply step_good, IH.
Qed.

(** X11.  The files stay within the data model.  A checkout without a
    snapshot loads a state of the data model; whenever the loaded state is
    one (board of 8 x 8 piece tokens, turn "white" or "black", game number
    present), so is the state loaded after any invocation, whatever its
    command, its inputs and its outcome, and hence after any sequence of
    invocations. *)
Theorem state_stays_in_data_model render :
  (∀ fs, chess_data fs ≫= game_json = None → good fs) ∧
  (∀ e fs, good fs → good (files_after render e fs)) ∧
  (∀ es fs, good fs → good (run_all render es fs)).
Proof.
  split; [exact fresh_is_good|]. split; [exact (step_good render)|].
  exact (run_all_good render).
Qed.

Lemma state_stays_in_data_model_witness :
  good (run_all keep_readme
          [move_by "e7e5" "alice"; move_by "e2e9" "bob"; new_game_by "carol";
           move_by "zz" "dave"]
          fresh_checkout).
Proof.
  destruct (state_stays_in_data_model keep_readme) as (Hfresh & _ & Hall).
  apply Hall, Hfresh. reflexivity.
Defined.

(** X12.  Along every sequence of invocations that starts from a state
    of the data model, whatever the commands and their outcomes, the game
    number is the initial one plus the number of "new" commands (so it
    never decreases and moves never change it), no actor's count on the
    leaderboard decreases and no entry of the leaderboard disappears. *)
Theorem history_is_monotone render (es : list environ) (fs : files) :
  good fs →
  game_num (loaded_state (run_all render es fs))
  = Some (default 1 (game_num (loaded_state fs)) + Z.of_nat (new_commands es)) ∧
  ∀ actor,
    count_of (loaded_leaderboard fs) actor
    <= count_of (loaded_leaderboard (run_all render es fs)) actor ∧
    (is_Some (loaded_leaderboard fs !! actor) →
     is_Some (loaded_leaderboard (run_all render es fs) !! actor)).
Proof.
  intros Hgood. induction es as [|e es IH] using rev_ind.
  - cbn. split; [|done]. destruct Hgood as (_ & _ & [n ->]). cbn. f_equal. lia.
  - destruct IH as [IHn IHlb].
    assert (Hg : good (run_all render es fs)).
    { by apply run_all_good. }
    rewrite run_all_snoc, new_commands_snoc. split.
    + rewrite step_game_num, IHn by done. cbn.
      case_bool_decide; f_equal; lia.
    + intros actor. destruct (IHlb actor) as [Hle Hkeep].
      destruct (step_leaderboard render e _ actor Hg) as [Hle' Hkeep'].
      split; [lia|auto].
Qed.

Lemma history_is_monotone_witness :
  game_num (loaded_state
              (run_all keep_readme
                 [move_by "e7e5" "alice"; new_game_by "bob"; move_by "zz" "carol";
                  new_game_by "dave"]
                 fresh_checkout))
  = Some 3.
Proof.
  destruct (history_is_monotone keep_readme
              [move_by "e7e5" "alice"; new_game_by "bob"; move_by "zz" "carol";
               new_game_by "dave"]
              fresh_checkout (fresh_is_good fresh_checkout eq_refl)) as [H _].
  exact H.
Defined.


(** ** Subscripts of [is_valid_move] *)

Lemma on_board_wrap (p : pos) : on_board (wrap p).
Proof.
  unfold on_board, wrap. cbn.
  pose proof (Z.mod_pos_bound p.1 8). pose proof (Z.mod_pos_bound p.2 8). lia.
Qed.

Lemma getitem_row_wrap (g : grid) (p : pos) :
  eight_by_eight g → in_range p →
  ∃ row, getitem g p.1 = Ok row ∧ getitem row p.2 = Ok (cell g (wrap p)).
Proof.
  intros Hs [Hi Hj].
  destruct (square_lookup g (wrap p) Hs (on_board_wrap p)) as (row & Hrow & Hl & Hx).
  exists row. cbn [wrap fst snd] in *. destruct Hs as [Hlen _].
  split; by apply getitem_wrap.
Qed.

Lemma getitem_row_outside (g : grid) (p : pos) :
  eight_by_eight g → ¬ in_range p →
  getitem g p.1 = Raise IndexError ∨
  ∃ row, getitem g p.1 = Ok row ∧ getitem row p.2 = Raise IndexError.
Proof.
  intros Hs Hout. pose proof Hs as [Hlen _].
  destruct (decide (-8 <= p.1 < 8)) as [Hi|Hi].
  - right.
    destruct (getitem_row_wrap g (p.1, 0) Hs) as (row & Hrow & Hcell);
      [unfold in_range; cbn; lia|].
    exists row. split; [done|]. cbn [fst snd] in *.
    apply getitem_outside.
    + destruct Hs as [_ Hrows]. rewrite Forall_forall in Hrows.
      apply Hrows. by eapply getitem_elem_of.
    + unfold in_range in Hout. tauto.
  - left. by apply getitem_outside.
Qed.

(** X13.  How [is_valid_move] treats subscripts on a board of the data
    model.  It raises IndexError when the source row or column is outside
    [-8, 8).  Otherwise the source is the square counted from the end for a
    negative subscript, and the two checks on the source come first: a
    source that is empty or not of the side to move is rejected whatever
    the destination is.  Only for a source of the side to move is the
    destination read: IndexError when it is outside [-8, 8), else the
    verdict of the rules on the two wrapped squares. *)
Theorem is_valid_move_subscripts (g : grid) (from_pos to_pos : pos)
    (turn : string) (s : side) :
  well_formed g → side_of turn = Some s →
  (¬ in_range from_pos → is_valid_move g from_pos to_pos turn = Raise IndexError) ∧
  (in_range from_pos → in_range to_pos →
   is_valid_move g from_pos to_pos turn
   = Ok (verdict (check_claimed g (wrap from_pos) (wrap to_pos) s))) ∧
  (in_range from_pos → ¬ in_range to_pos →
   is_valid_move g from_pos to_pos turn
   = if owned g s (wrap from_pos) then Raise IndexError
     else Ok (verdict (check_claimed g (wrap from_pos) (wrap to_pos) s))).
Proof.
  intros Hwf Ht. pose proof (well_formed_shape g Hwf) as Hs.
  apply side_of_cases in Ht. subst turn.
  pose proof (cell_is_token g (wrap from_pos) Hwf (on_board_wrap _)) as Hp.
  pose proof (cell_is_token g (wrap to_pos) Hwf (on_board_wrap _)) as Hq.
  destruct from_pos as [fr fc], to_pos as [tr tc].
  split; [|split].
  - intros Hout. unfold is_valid_move.
    destruct (getitem_row_outside g (fr, fc) Hs Hout) as [E|(row & E1 & E2)];
      cbn [fst snd] in *.
    + by rewrite E.
    + rewrite E1. cbn [mbind exc_bind]. by rewrite E2.
  - intros Hsrc Hdst.
    destruct (getitem_row_wrap g (fr, fc) Hs Hsrc) as (row & E1 & E2).
    destruct (getitem_row_wrap g (tr, tc) Hs Hdst) as (trow & E3 & E4).
    cbn [fst snd] in *. unfold is_valid_move, check_claimed.
    rewrite E1. cbn [mbind exc_bind]. rewrite E2. cbn [mbind exc_bind].
    rewrite E3. cbn [mbind exc_bind]. rewrite E4. cbn [mbind exc_bind].
    clear E1 E2 E3 E4. revert Hp Hq.
    generalize (cell g (wrap (fr, fc))) (cell g (wrap (tr, tc))). intros p q Hp Hq.
    each_token Hp; each_token Hq; destruct s; vm_compute; reflexivity.
  - intros Hsrc Hout.
    destruct (getitem_row_wrap g (fr, fc) Hs Hsrc) as (row & E1 & E2).
    cbn [fst snd] in *. unfold is_valid_move, check_claimed, owned.
    rewrite E1. cbn [mbind exc_bind]. rewrite E2. cbn [mbind exc_bind].
    clear E1 E2.
    destruct (getitem_row_outside g (tr, tc) Hs Hout) as [E|(trow & E3 & E4)];
      cbn [fst snd] in *.
    + rewrite E. cbn [mbind exc_bind]. clear E. revert Hp Hq.
      generalize (cell g (wrap (fr, fc))) (cell g (wrap (tr, tc))). intros p q Hp Hq.
      each_token Hp; each_token Hq; destruct s; vm_compute; reflexivity.
    + rewrite E3. cbn [mbind exc_bind]. rewrite E4. cbn [mbind exc_bind].
      clear E3 E4. revert Hp Hq.
      generalize (cell g (wrap (fr, fc))) (cell g (wrap (tr, tc))). intros p q Hp Hq.
      each_token Hp; each_token Hq; destruct s; vm_compute; reflexivity.
Qed.

Lemma is_valid_move_subscripts_witness :
  is_valid_move INITIAL_BOARD (1, 4) (8, 4) "black" = Raise IndexError ∧
  is_valid_move INITIAL_BOARD (6, 4) (8, 4) "black"
  = Ok (false, "Sekarang giliran hitam!") ∧
  is_valid_move INITIAL_BOARD (-7, -4) (-5, -4) "black" = Ok (true, "OK").
Proof.
  destruct (is_valid_move_subscripts INITIAL_BOARD (1, 4) (8, 4) "black" Black
              INITIAL_BOARD_well_formed eq_refl) as (_ & _ & H1).
  destruct (is_valid_move_subscripts INITIAL_BOARD (6, 4) (8, 4) "black" Black
              INITIAL_BOARD_well_formed eq_refl) as (_ & _ & H2).
  destruct (is_valid_move_subscripts INITIAL_BOARD (-7, -4) (-5, -4) "black" Black
              INITIAL_BOARD_well_formed eq_refl) as (_ & H3 & _).
  split; [|split].
  - apply H1; unfold in_range; cbn; lia.
  - apply H2; unfold in_range; cbn; lia.
  - apply H3; unfold in_range; cbn; lia.
Defined.


(** X14.  A move from a square to itself is never accepted: on a board
    of the data model [is_valid_move] rejects every pair of subscripts that
    designate the same square, also when one of them counts from the end. *)
Theorem null_move_is_rejected (g : grid) (from_pos to_pos : pos)
    (turn : string) (s : side) :
  well_formed g → side_of turn = Some s →
  in_range from_pos → in_range to_pos → wrap from_pos = wrap to_pos →
  ∃ msg, is_valid_move g from_pos to_pos turn = Ok (false, msg).
Proof.
  intros Hwf Ht Hsrc Hdst Hsame.
  pose proof (well_formed_shape g Hwf) as Hs.
  apply side_of_cases in Ht. subst turn.
  pose proof (cell_is_token g (wrap to_pos) Hwf (on_board_wrap _)) as Hq.
  destruct (getitem_row_wrap g from_pos Hs Hsrc) as (row & E1 & E2).
  destruct (getitem_row_wrap g to_pos Hs Hdst) as (trow & E3 & E4).
  rewrite Hsame in E2.
  destruct from_pos as [fr fc], to_pos as [tr tc]. cbn [fst snd] in *.
  unfold is_valid_move.
  rewrite E1. cbn [mbind exc_bind]. rewrite E2. cbn [mbind exc_bind].
  rewrite E3. cbn [mbind exc_bind]. rewrite E4. cbn [mbind exc_bind].
  clear E1 E2 E3 E4. revert Hq. generalize (cell g (wrap (tr, tc))). intros q Hq.
  each_token Hq; destruct s; vm_compute; eauto.
Qed.

Lemma null_move_is_rejected_witness :
  ∃ msg, is_valid_move INITIAL_BOARD (7, 4) (-1, 4) "white" = Ok (false, msg).
Proof.
  apply (null_move_is_rejected INITIAL_BOARD (7, 4) (-1, 4) "white" White
           INITIAL_BOARD_well_formed eq_refl);
    [unfold in_range; cbn; lia..|reflexivity].
Defined.


(** ** [get_legal_moves] on any grid *)

Lemma for_each_raise {A S} (xs : list A) (body : S → A → exc S) (e : exn) :
  (∀ acc x, x ∈ xs → (∃ acc', body acc x = Ok acc') ∨ body acc x = Raise e) →
  (∃ x, x ∈ xs ∧ ∀ acc, body acc x = Raise e) →
  ∀ acc, for_each xs body acc = Raise e.
Proof.
  induction xs as [|x xs IH]; intros Hbody (y & Hy & Hraise) acc.
  - by apply elem_of_nil in Hy.
  - cbn [for_each]. destruct (Hbody acc x) as [(acc' & E)|E]; [by left| |].
    + rewrite E. cbn [mbind exc_bind].
      apply elem_of_cons in Hy as [->|Hy].
      * by rewrite Hraise in E.
      * apply IH; [|by exists y]. intros ? ? ?. apply Hbody. by right.
    + by rewrite E.
Qed.

Lemma for_each_returns {A S} (xs : list A) (body : S → A → exc S) :
  (∀ acc x, x ∈ xs → ∃ acc', body acc x = Ok acc') →
  ∀ acc, ∃ acc', for_each xs body acc = Ok acc'.
Proof.
  induction xs as [|x xs IH]; intros Hbody acc; [by eexists|].
  cbn [for_each]. destruct (Hbody acc x) as (acc' & E); [by left|].
  rewrite E. cbn [mbind exc_bind]. apply IH.
  intros ? ? ?. apply Hbody. by right.
Qed.

Lemma for_each_returns_or_raises {A S} (xs : list A) (body : S → A → exc S) (e : exn) :
  (∀ acc x, x ∈ xs → (∃ acc', body acc x = Ok acc') ∨ body acc x = Raise e) →
  ∀ acc, (∃ acc', for_each xs body acc = Ok acc') ∨ for_each xs body acc = Raise e.
Proof.
  induction xs as [|x xs IH]; intros Hbody acc; [left; by eexists|].
  cbn [for_each]. destruct (Hbody acc x) as [(acc' & E)|E]; [by left| |].
  - rewrite E. cbn [mbind exc_bind]. apply IH.
    intros ? ? ?. apply Hbody. by right.
  - right. by rewrite E.
Qed.

Lemma getitem_raises {A} (l : list A) (i : Z) :
  (∃ x, getitem l i = Ok x) ∨ getitem l i = Raise IndexError.
Proof.
  unfold getitem, norm_index.
  destruct (_ && _); cbn; [|by right].
  destruct (l !! _); [left; by eexists|by right].
Qed.

Lemma is_valid_move_raises (g : grid) (src dst : pos) (t : string) :
  (∃ v, is_valid_move g src dst t = Ok v) ∨
  is_valid_move g src dst t = Raise IndexError.
Proof.
  unfold is_valid_move. destruct src as [fr fc], dst as [tr tc].
  destruct (getitem_raises g fr) as [(row & ->)| ->]; [|by right].
  cbn [mbind exc_bind].
  destruct (getitem_raises row fc) as [(piece & ->)| ->]; [|by right].
  cbn [mbind exc_bind].
  destruct (bool_decide (piece = ".")); [left; by eexists|].
  destruct (_ && _); [left; by eexists|].
  destruct (_ && _); [left; by eexists|].
  destruct (getitem_raises g tr) as [(trow & ->)| ->]; [|by right].
  cbn [mbind exc_bind].
  destruct (getitem_raises trow tc) as [(target & ->)| ->]; [|by right].
  cbn [mbind exc_bind]. destruct (_ && _); left; by eexists.
Qed.

Lemma corner_lookup (g : grid) (r c : Z) :
  has_corner g → 0 <= r < 8 → 0 <= c < 8 →
  ∃ row piece, getitem g r = Ok row ∧ getitem row c = Ok piece.
Proof.
  intros [Hlen Hrows] Hr Hc.
  destruct (lookup_lt_is_Some_2 g (Z.to_nat r)) as [row Hrow]; [lia|].
  assert (Hl : (8 <= length row)%nat).
  { rewrite Forall_forall in Hrows. apply Hrows.
    apply (list_elem_of_lookup_2 _ (Z.to_nat r)).
    rewrite lookup_take_lt by lia. done. }
  destruct (lookup_lt_is_Some_2 row (Z.to_nat c)) as [piece Hpiece]; [lia|].
  exists row, piece. split; apply getitem_lookup; (lia || done).
Qed.

Lemma no_corner_square (g : grid) :
  ¬ has_corner g →
  ∃ r c, 0 <= r < 8 ∧ 0 <= c < 8 ∧
         (getitem g r = Raise IndexError ∨
          ∃ row, getitem g r = Ok row ∧ getitem row c = Raise IndexError).
Proof.
  intros Hno. destruct (decide (8 <= length g)%nat) as [Hlen|Hlen].
  - assert (Hex : Exists (fun row : list string => ¬ (8 <= length row)%nat) (take 8 g)).
    { apply not_Forall_Exists; [apply _|]. intros HF. by apply Hno. }
    apply Exists_exists in Hex as (row & Hin & Hshort).
    apply list_elem_of_lookup in Hin as (k & Hk).
    pose proof (lookup_lt_Some _ _ _ Hk) as Hklt. rewrite length_take in Hklt.
    rewrite lookup_take_lt in Hk by lia.
    exists (Z.of_nat k), (Z.of_nat (length row)).
    split; [lia|]. split; [lia|]. right. exists row. split.
    + apply getitem_lookup; [lia|]. by rewrite Nat2Z.id.
    + apply getitem_out_of_range. lia.
  - exists (Z.of_nat (length g)), 0. split; [lia|]. split; [lia|]. left.
    apply getitem_out_of_range. lia.
Qed.

Lemma get_legal_moves_corner (g : grid) (turn : string) :
  (has_corner g → ∃ l, get_legal_moves g turn = Ok l) ∧
  (¬ has_corner g → get_legal_moves g turn = Raise IndexError).
Proof.
  assert (Hinner : ∀ r c moves,
    (∃ l, for_each (range 8) (fun moves tr =>
            for_each (range 8) (fun moves tc =>
              '(valid, _) ← is_valid_move g (r, c) (tr, tc) turn;
              if (valid : bool) then
                col ← str_getitem "abcdefgh" c;
                tcol ← str_getitem "abcdefgh" tc;
                Ok (moves ++ [move_token col r tcol tr])
              else Ok moves) moves) moves = Ok l) ∨
    for_each (range 8) (fun moves tr =>
      for_each (range 8) (fun moves tc =>
        '(valid, _) ← is_valid_move g (r, c) (tr, tc) turn;
        if (valid : bool) then
          col ← str_getitem "abcdefgh" c;
          tcol ← str_getitem "abcdefgh" tc;
          Ok (moves ++ [move_token col r tcol tr])
        else Ok moves) moves) moves = Raise IndexError).
  { intros r c moves. apply for_each_returns_or_raises. intros acc tr _.
    apply for_each_returns_or_raises. intros acc' tc _.
    destruct (is_valid_move_raises g (r, c) (tr, tc) turn) as [([[] msg] & ->)| ->];
      cbn [mbind exc_bind]; [| left; by eexists | by right].
    unfold str_getitem.
    destruct (getitem_raises (list_ascii_of_string "abcdefgh") c) as [(a & ->)| ->];
      [|by right].
    cbn [mbind exc_bind].
    destruct (getitem_raises (list_ascii_of_string "abcdefgh") tc) as [(a' & ->)| ->];
      [|by right].
    left. by eexists. }
  assert (Hbody : ∀ r c moves,
    (∃ l, (row ← getitem g r; piece ← getitem row c;
           if bool_decide (piece = ".") then Ok moves
           else if bool_decide (turn = "white") && negb (isupper piece) then Ok moves
           else if bool_decide (turn = "black") && negb (islower piece) then Ok moves
           else
             for_each (range 8) (fun moves tr =>
               for_each (range 8) (fun moves tc =>
                 '(valid, _) ← is_valid_move g (r, c) (tr, tc) turn;
                 if (valid : bool) then
                   col ← str_getitem "abcdefgh" c;
                   tcol ← str_getitem "abcdefgh" tc;
                   Ok (moves ++ [move_token col r tcol tr])
                 else Ok moves) moves) moves) = Ok l) ∨
    (row ← getitem g r; piece ← getitem row c;
     if bool_decide (piece = ".") then Ok moves
     else if bool_decide (turn = "white") && negb (isupper piece) then Ok moves
     else if bool_decide (turn = "black") && negb (islower piece) then Ok moves
     else
       for_each (range 8) (fun moves tr =>
         for_each (range 8) (fun moves tc =>
           '(valid, _) ← is_valid_move g (r, c) (tr, tc) turn;
           if (valid : bool) then
             col ← str_getitem "abcdefgh" c;
             tcol ← str_getitem "abcdefgh" tc;
             Ok (moves ++ [move_token col r tcol tr])
           else Ok moves) moves) moves) = Raise IndexError).
  { intros r c moves.
    destruct (getitem_raises g r) as [(row & ->)| ->]; [|by right].
    cbn [mbind exc_bind].
    destruct (getitem_raises row c) as [(piece & ->)| ->]; [|by right].
    cbn [mbind exc_bind].
    destruct (bool_decide (piece = ".")); [left; by eexists|].
    destruct (_ && _); [left; by eexists|].
    destruct (_ && _); [left; by eexists|].
    apply Hinner. }
  split.
  - intros Hcorner. unfold get_legal_moves.
    apply for_each_returns. intros acc r Hr%elem_of_range_8.
    apply for_each_returns. intros acc' c Hc%elem_of_range_8.
    destruct (corner_lookup g r c Hcorner Hr Hc) as (row & piece & E1 & E2).
    rewrite E1. cbn [mbind exc_bind]. rewrite E2. cbn [mbind exc_bind].
    destruct (bool_decide (piece = ".")); [by eexists|].
    destruct (_ && _); [by eexists|].
    destruct (_ && _); [by eexists|].
    apply for_each_returns. intros acc2 tr Htr%elem_of_range_8.
    apply for_each_returns. intros acc3 tc Htc%elem_of_range_8.
    destruct (corner_lookup g tr tc Hcorner Htr Htc) as (trow & target & E3 & E4).
    unfold is_valid_move.
    rewrite E1. cbn [mbind exc_bind]. rewrite E2. cbn [mbind exc_bind].
    rewrite !file_letter_getitem by done.
    destruct (bool_decide (piece = ".")); [by eexists|].
    destruct (_ && _); [by eexists|].
    destruct (_ && _); [by eexists|].
    rewrite E3. cbn [mbind exc_bind]. rewrite E4. cbn [mbind exc_bind].
    destruct (_ && _); by eexists.
  - intros Hno. destruct (no_corner_square g Hno) as (r & c & Hr & Hc & Hbad).
    unfold get_legal_moves. apply for_each_raise.
    + intros acc r' _. apply for_each_returns_or_raises. intros acc' c' _.
      apply Hbody.
    + exists r. split; [by apply elem_of_range_8|]. intros acc.
      apply for_each_raise.
      * intros acc' c' _. apply Hbody.
      * exists c. split; [by apply elem_of_range_8|]. intros acc'.
        destruct Hbad as [E|(row & E1 & E2)].
        -- by rewrite E.
        -- rewrite E1. cbn [mbind exc_bind]. by rewrite E2.
Qed.

(** X15.  [get_legal_moves] on an arbitrary grid and with an arbitrary
    turn: it returns a list when the grid has at least 8 rows and at least
    8 cells in each of the first 8 rows, and raises IndexError when a row
    or a cell is missing there; it never returns a partial list and raises
    nothing else. *)
Theorem get_legal_moves_bounds (g : grid) (turn : string) :
  (has_corner g ↔ ∃ l, get_legal_moves g turn = Ok l) ∧
  (¬ has_corner g ↔ get_legal_moves g turn = Raise IndexError).
Proof.
  destruct (get_legal_moves_corner g turn) as [Hok Hraise].
  assert (Hdec : has_corner g ∨ ¬ has_corner g).
  { unfold has_corner.
    destruct (decide ((8 <= length g)%nat ∧
                      Forall (fun row : list string => (8 <= length row)%nat)
                        (take 8 g))); [by left|by right]. }
  split; split; try done.
  - intros [l E]. destruct Hdec as [H|H]; [done|].
    rewrite (Hraise H) in E. discriminate.
  - intros E H. destruct (Hok H) as [l E']. rewrite E in E'. discriminate.
Qed.

Lemma get_legal_moves_bounds_witness :
  get_legal_moves (take 7 INITIAL_BOARD) "black" = Raise IndexError.
Proof.
  destruct (get_legal_moves_bounds (take 7 INITIAL_BOARD) "black") as [_ H].
  apply H. intros [Hlen _]. cbn in Hlen. lia.
Defined.


(** ** Pieces on the board *)

Lemma filter_length_ext {A} (P Q : A → bool) (l : list A) :
  (∀ y, y ∈ l → P y = Q y) →
  length (filter (fun p => P p = true) l) = length (filter (fun p => Q p = true) l).
Proof.
  induction l as [|a l IH]; intros H; [done|].
  rewrite !filter_cons. rewrite (H a) by left.
  destruct (decide (Q a = true)); cbn [length]; rewrite IH; try done;
    intros; apply H; by right.
Qed.

(** Changing a predicate at one point of a duplicate-free list changes the
    count by that point. *)
Lemma count_change {A} (P Q : A → bool) (x : A) (l : list A) :
  NoDup l → x ∈ l → (∀ y, y ∈ l → y ≠ x → P y = Q y) →
  Z.of_nat (length (filter (fun p => Q p = true) l)) + indicator (P x)
  = Z.of_nat (length (filter (fun p => P p = true) l)) + indicator (Q x).
Proof.
  induction l as [|a l IH]; intros Hnd Hin Hagree; [by apply elem_of_nil in Hin|].
  apply NoDup_cons in Hnd as [Hnotin Hnd]. rewrite !filter_cons.
  apply elem_of_cons in Hin as [->|Hin].
  - assert (E : length (filter (fun p => P p = true) l)
                = length (filter (fun p => Q p = true) l)).
    { apply filter_length_ext. intros y Hy. apply Hagree; [by right|].
      intros ->. done. }
    destruct (decide (P a = true)), (decide (Q a = true));
      destruct (P a), (Q a); try done; cbn [length indicator]; lia.
  - assert (Ha : a ≠ x) by (intros ->; done).
    assert (Ea : P a = Q a) by (apply Hagree; [by left|done]).
    assert (IH' := IH Hnd Hin (fun y Hy => Hagree y (list_elem_of_further _ _ _ Hy))).
    destruct (decide (P a = true)), (decide (Q a = true));
      try congruence; cbn [length]; lia.
Qed.

Lemma piece_side_promoted (p : string) (r : Z) :
  is_token p → piece_side (promoted p r) = piece_side p.
Proof.
  intros Hp. unfold promoted.
  repeat case_bool_decide; destruct_and?; subst; done.
Qed.

Lemma owned_moved (g : grid) (src dst : pos) (s o : side) :
  well_formed g → on_board src → on_board dst →
  owned g s src = true → owned g s dst = false →
  owned (moved g src dst) o src = false ∧
  owned (moved g src dst) o dst = bool_decide (o = s) ∧
  ∀ p, on_board p → p ≠ src → p ≠ dst → owned (moved g src dst) o p = owned g o p.
Proof.
  intros Hwf Hsrc Hdst Hs Hd. pose proof (well_formed_shape g Hwf) as Hshape.
  assert (Hne : src ≠ dst) by (intros ->; congruence).
  unfold owned in *. split; [|split].
  - rewrite moved_source by done. by destruct o.
  - rewrite moved_destination by done.
    assert (E : (if bool_decide (cell g src = "P" ∧ dst.1 = 0) then "Q"
                 else if bool_decide (cell g src = "p" ∧ dst.1 = 7) then "q"
                 else if bool_decide (src = dst) then "." else cell g src)
                = promoted (cell g src) dst.1).
    { unfold promoted. repeat case_bool_decide; done. }
    rewrite E, piece_side_promoted by by apply cell_is_token.
    apply bool_decide_eq_true in Hs. rewrite Hs.
    apply bool_decide_ext. split; congruence.
  - intros p Hp Hp1 Hp2. by rewrite moved_elsewhere.
Qed.

Lemma count_owned_moved (g : grid) (src dst : pos) (s o : side) :
  well_formed g → on_board src → on_board dst →
  owned g s src = true → owned g s dst = false →
  Z.of_nat (count_owned (moved g src dst) o) + indicator (owned g o src)
    + indicator (owned g o dst)
  = Z.of_nat (count_owned g o) + indicator (bool_decide (o = s)).
Proof.
  intros Hwf Hsrc Hdst Hs Hd.
  destruct (owned_moved g src dst s o Hwf Hsrc Hdst Hs Hd) as (Es & Ed & Eo).
  assert (Hne : src ≠ dst) by (intros ->; congruence).
  set (R := fun p => if bool_decide (p = dst) then owned (moved g src dst) o p
                     else owned g o p).
  assert (HR : R src = owned g o src) by (unfold R; by rewrite bool_decide_false).
  assert (HRd : R dst = bool_decide (o = s))
    by (unfold R; by rewrite bool_decide_true).
  assert (H1 : Z.of_nat (length (filter (fun p => R p = true) all_squares))
               + indicator (owned g o dst)
               = Z.of_nat (length (filter (fun p => owned g o p = true) all_squares))
                 + indicator (R dst)).
  { apply count_change; [exact NoDup_all_squares|by apply elem_of_all_squares|].
    intros y _ Hy. unfold R. by rewrite bool_decide_false. }
  assert (H2 : Z.of_nat (length (filter (fun p => owned (moved g src dst) o p = true)
                                   all_squares))
               + indicator (R src)
               = Z.of_nat (length (filter (fun p => R p = true) all_squares))
                 + indicator (owned (moved g src dst) o src)).
  { apply count_change; [exact NoDup_all_squares|by apply elem_of_all_squares|].
    intros y Hy Hy'. unfold R. destruct (decide (y = dst)) as [Hyd|Hyd].
    - by rewrite bool_decide_true.
    - rewrite bool_decide_false by done.
      symmetry. apply Eo; [by apply elem_of_all_squares|done|done]. }
  rewrite HRd in H1. rewrite HR, Es in H2. unfold count_owned.
  cbn [indicator] in H2. lia.
Qed.

Lemma count_owned_accepted (g : grid) (from_pos to_pos : pos)
    (turn : string) (s : side) :
  well_formed g → on_board from_pos → on_board to_pos →
  side_of turn = Some s →
  is_valid_move g from_pos to_pos turn = Ok (true, "OK") →
  count_owned (moved g from_pos to_pos) s = count_owned g s ∧
  (count_owned (moved g from_pos to_pos) (opposite s)
   + if owned g (opposite s) to_pos then 1 else 0)%nat
  = count_owned g (opposite s).
Proof.
  intros Hwf Hsrc Hdst Ht Hv.
  apply (is_valid_move_accepts g from_pos to_pos turn s) in Hv as [Hs Hd]; try done.
  pose proof (count_owned_moved g from_pos to_pos s s Hwf Hsrc Hdst Hs Hd) as H1.
  pose proof (count_owned_moved g from_pos to_pos s (opposite s) Hwf Hsrc Hdst Hs Hd)
    as H2.
  rewrite Hs, Hd, bool_decide_true in H1 by done.
  assert (Ho : owned g (opposite s) from_pos = false).
  { unfold owned in *. apply bool_decide_eq_true in Hs. rewrite Hs.
    apply bool_decide_eq_false. by destruct s. }
  rewrite Ho, bool_decide_false in H2 by (by destruct s).
  cbn [indicator] in H1, H2. split; [lia|].
  destruct (owned g (opposite s) to_pos); cbn [indicator] in H2; lia.
Qed.

(** X16.  An accepted move never creates a piece.  On a board object
    whose rows are distinct objects, holding a board of the data model,
    when [is_valid_move] accepts a move between squares of the board,
    [apply_move] returns a board on which the side that moved has as many
    pieces as before (a promoted pawn is still one of them) and the other
    side has one piece fewer exactly when the destination held one of its
    pieces: a capture removes the piece for good. *)
Theorem accepted_move_piece_counts (h : heap) (b : loc) (g : grid)
    (from_pos to_pos : pos) (turn : string) (s : side) :
  contents h b = Some g → unshared h b → well_formed g →
  on_board from_pos → on_board to_pos →
  side_of turn = Some s →
  is_valid_move g from_pos to_pos turn = Ok (true, "OK") →
  ∃ h' b' g',
    apply_move b from_pos to_pos h = (h', Ok b') ∧
    contents h' b' = Some g' ∧
    count_owned g' s = count_owned g s ∧
    (count_owned g' (opposite s)
     + if owned g (opposite s) to_pos then 1 else 0)%nat
    = count_owned g (opposite s).
Proof.
  intros Hc Hu Hwf Hsrc Hdst Ht Hv.
  destruct (apply_move_effect h b g from_pos to_pos Hc Hu
              (well_formed_shape g Hwf) Hsrc Hdst)
    as (h' & b' & E & _ & _ & _ & Hc' & _).
  exists h', b', (moved g from_pos to_pos).
  split; [done|]. split; [done|].
  by apply (count_owned_accepted g from_pos to_pos turn s).
Qed.

Lemma accepted_move_piece_counts_witness :
  ∃ h' b' g',
    apply_move INITIAL_BOARD_ref (1, 4) (6, 4) module_heap = (h', Ok b') ∧
    contents h' b' = Some g' ∧
    count_owned g' Black = 16%nat ∧ count_owned g' White = 15%nat.
Proof.
  destruct (accepted_move_piece_counts module_heap INITIAL_BOARD_ref INITIAL_BOARD
              (1, 4) (6, 4) "black" Black)
    as (h' & b' & g' & E & Hc & H1 & H2);
    [apply module_heap_board|apply module_heap_board
    |exact INITIAL_BOARD_well_formed|unfold on_board; cbn; lia..
    |reflexivity|reflexivity|].
  exists h', b', g'. split; [done|]. split; [done|]. split.
  - rewrite H1. reflexivity.
  - cbn [opposite] in H2.
    change (count_owned INITIAL_BOARD White) with 16%nat in H2.
    change (owned INITIAL_BOARD White (6, 4)) with true in H2.
    cbv beta iota in H2. lia.
Defined.


(** ** Recovery and partial completion *)

(** X17.  The command "new" leaves a state of the data model from every
    snapshot that decodes to a state record, also from one that is not in
    the data model itself (a board of any shape, a turn that names no side,
    no game number), and from a checkout without [chess_data/], which
    [save_game] creates.  (Files that do not decode, or hold values of
    other types, are outside the type [files].) *)
Theorem new_game_recovers render (e : environ) (fs : files) :
  command_of e = "new" →
  good (files_after render e fs) ∧ is_Some (chess_data (files_after render e fs)).
Proof.
  intros Hnew. pose proof (files_after_new render e fs Hnew) as E.
  split; [|by rewrite E].
  unfold good, loaded_state. rewrite E. cbn.
  split; [exact INITIAL_BOARD_well_formed|]. split; by eexists.
Qed.

Lemma new_game_recovers_witness :
  good (files_after keep_readme (new_game_by "alice")
          (Files (Some (ChessData (Some (GameState [] "nobody" [] None)) None)) None)).
Proof.
  exact (proj1 (new_game_recovers keep_readme (new_game_by "alice") _ eq_refl)).
Defined.

Lemma eight_by_eight_corner (g : grid) : eight_by_eight g → has_corner g.
Proof.
  intros [Hlen Hrows]. split; [lia|].
  apply Forall_take. eapply Forall_impl; [exact Hrows|]. cbn. lia.
Qed.

Lemma render_and_update_no_readme render (state : game_state loc)
    (lb : gmap string Z) (h : heap) (fs : files) (o : list string) (g : grid) :
  contents h (board state) = Some g → has_corner g →
  is_Some (game_num state) → README_md fs = None →
  render_and_update render state lb (World h fs o)
  = (World h fs o, Raise FileNotFoundError).
Proof.
  intros Hc Hcorner [n Hn] Hreadme. unfold render_and_update.
  rewrite run_bind, (read_board_contents h fs o _ _ Hc).
  destruct (get_legal_moves_corner g (turn state)) as [Hok _].
  destruct (Hok Hcorner) as (legal & ->).
  rewrite run_bind. unfold lift at 1. rewrite Hn.
  rewrite run_bind. unfold lift at 1.
  rewrite run_bind. unfold update_readme at 1. rewrite run_bind.
  unfold gets at 1. cbn [disk]. by rewrite Hreadme.
Qed.

(** X18.  The writes of an invocation are not undone when the README
    step fails.  With README.md missing, an accepted move is recorded all
    the same (snapshot and leaderboard are written and the success line
    is printed) and then the invocation ends with FileNotFoundError. *)
Theorem move_is_recorded_without_readme render (e : environ) (fs : files)
    (d : chess_data_dir) (from_pos to_pos : pos) (msg : string) :
  command_of e = "move" → eight_by_eight (board (loaded_state fs)) →
  is_Some (game_num (loaded_state fs)) →
  chess_data fs = Some d → README_md fs = None →
  parse_move (move_str_of e) = Ok (Some (from_pos, to_pos)) →
  is_valid_move (board (loaded_state fs)) from_pos to_pos (turn (loaded_state fs))
  = Ok (true, msg) →
  invoke render e fs
  = (Files (Some (ChessData (Some (snapshot_after_move e fs from_pos to_pos))
                    (Some (leaderboard_after_move e fs))))
       None,
     [success_line e], Raise FileNotFoundError).
Proof.
  intros Hcmd Hs Hn Hd Hreadme Hp Hv.
  destruct (main_move render e fs Hcmd) as (h & b & Hc & Hu & E).
  destruct (move_command_accepted (move_str_of e) (player_of e) (utcnow_isoformat e)
              (GameState b (turn (loaded_state fs)) (moves (loaded_state fs))
                 (game_num (loaded_state fs)))
              (loaded_leaderboard fs) h fs [] _ from_pos to_pos msg Hp Hc Hu Hs Hv)
    as (h1 & b' & Hc1 & Em).
  rewrite Em, Hd in E. clear Em. unfold invoke. rewrite E.
  erewrite render_and_update_no_readme; [| exact Hc1 | | done | done].
  - cbn [disk stdout]. by rewrite Hreadme.
  - by apply eight_by_eight_corner, eight_by_eight_moved_wrapped.
Qed.

Lemma move_is_recorded_without_readme_witness :
  (invoke keep_readme (move_by "e7e5" "alice") (Files (Some (ChessData None None)) None)).2
  = Raise FileNotFoundError ∧
  loaded_leaderboard
    (files_after keep_readme (move_by "e7e5" "alice")
       (Files (Some (ChessData None None)) None)) !! "alice"
  = Some 1.
Proof.
  pose proof (move_is_recorded_without_readme keep_readme (move_by "e7e5" "alice")
                (Files (Some (ChessData None None)) None) (ChessData None None)
                (1, 4) (3, 4) "OK" eq_refl INITIAL_BOARD_shape
                (ex_intro _ 1 eq_refl) eq_refl eq_refl eq_refl eq_refl) as H.
  unfold files_after. rewrite H. split; reflexivity.
Defined.
